(** * Availability-resolution engine of the meeting bot

    A shallow embedding of [scheduler2.py] (busy/free interval computation,
    candidate placement, week inference, slot formatting) and of
    [parse_selected_time] from [update_schedule_2.py], with the properties
    the specification states about them.

    Time model.  The Python code manipulates time-zone aware [datetime]
    values whose zone is a fixed UTC offset (the engine takes its zone from
    [datetime.now().astimezone()], which yields a fixed-offset zone).  A
    [datetime] is kept here as the pair of its wall-clock reading, counted in
    microseconds from the start of proleptic-Gregorian ordinal day 0, and its
    UTC offset in microseconds.  The calendar fields ([.minute], [.date()],
    ...) are read off the wall clock; comparison and subtraction of aware
    values go through the UTC instant, as in Python.  A [timedelta] is a
    number of microseconds and a [date] is its ordinal ([date.toordinal()]).

    Python bounds years to 1..9999 and raises [OverflowError] outside; the
    time line below is all of [Z], so the statements describe runs that stay
    inside Python's range. *)

From Stdlib Require Import ZArith List Bool Lia String Ascii QArith Sorting.Sorted
  Sorting.Permutation.
Import ListNotations.
Open Scope Z_scope.

(** ** Python runtime: datetime, timedelta, date *)

Module Py.

Definition US_PER_SECOND : Z := 1000000.
Definition US_PER_MINUTE : Z := 60 * US_PER_SECOND.
Definition US_PER_HOUR   : Z := 60 * US_PER_MINUTE.
Definition US_PER_DAY    : Z := 24 * US_PER_HOUR.

(** A zone is its UTC offset; a date is its ordinal; a timedelta is a count
    of microseconds. *)
Definition tzinfo := Z.
Definition date := Z.
Definition timedelta := Z.

Record datetime : Type := mkdt { wall : Z; utcoffset : tzinfo }.

(** The UTC instant an aware datetime denotes. *)
Definition instant (d : datetime) : Z := wall d - utcoffset d.

(** [d.date()], [d.hour], [d.minute], [d.second], [d.microsecond]. *)
Definition date_of (d : datetime) : date := wall d / US_PER_DAY.
Definition hour (d : datetime) : Z := (wall d / US_PER_HOUR) mod 24.
Definition minute (d : datetime) : Z := (wall d / US_PER_MINUTE) mod 60.
Definition second (d : datetime) : Z := (wall d / US_PER_SECOND) mod 60.
Definition microsecond (d : datetime) : Z := wall d mod US_PER_SECOND.

(** [datetime.combine(day, time(h, mi, tzinfo=tz))]. *)
Definition combine (day : date) (h mi : Z) (tz : tzinfo) : datetime :=
  mkdt (day * US_PER_DAY + h * US_PER_HOUR + mi * US_PER_MINUTE) tz.

(** [d.astimezone(tz)]: same instant, wall clock of the target zone. *)
Definition astimezone (d : datetime) (tz : tzinfo) : datetime :=
  mkdt (instant d + tz) tz.

(** [d.replace(tzinfo=tz)]: same wall clock, another zone. *)
Definition replace_tzinfo (d : datetime) (tz : tzinfo) : datetime :=
  mkdt (wall d) tz.

(** Comparisons of aware datetimes compare instants. *)
Definition dt_ltb (a b : datetime) : bool := instant a <? instant b.
Definition dt_leb (a b : datetime) : bool := instant a <=? instant b.
Definition dt_eqb (a b : datetime) : bool := instant a =? instant b.

(** [max(a, b)] returns [b] only when [b > a]; [min(a, b)] returns [b] only
    when [b < a]. *)
Definition dt_max (a b : datetime) : datetime := if dt_ltb a b then b else a.
Definition dt_min (a b : datetime) : datetime := if dt_ltb b a then b else a.

(** [a - b] on aware datetimes and [d + td]. *)
Definition dt_sub (a b : datetime) : timedelta := instant a - instant b.
Definition dt_add (d : datetime) (td : timedelta) : datetime :=
  mkdt (wall d + td) (utcoffset d).

(** [timedelta(minutes=m)], [timedelta(hours=h)], [timedelta(days=n)]. *)
Definition td_minutes (m : Z) : timedelta := m * US_PER_MINUTE.
Definition td_hours (h : Z) : timedelta := h * US_PER_HOUR.

(** [timedelta / int] rounds the quotient of microseconds half to even
    (datetime.py, [_divide_and_round]). *)
Definition divide_and_round (a b : Z) : Z :=
  let q := a / b in
  let r := 2 * (a mod b) in
  let greater_than_half := if 0 <? b then b <? r else r <? b in
  if greater_than_half || ((r =? b) && (q mod 2 =? 1)) then q + 1 else q.

Definition td_div (td : timedelta) (n : Z) : timedelta := divide_and_round td n.

(** [d.replace(minute=m, second=0, microsecond=0)]. *)
Definition replace_minute (d : datetime) (m : Z) : datetime :=
  mkdt (wall d - wall d mod US_PER_HOUR + m * US_PER_MINUTE) (utcoffset d).

(** [date.weekday()]: Monday is 0 (datetime.py: [(toordinal() + 6) % 7]). *)
Definition weekday (d : date) : Z := (d + 6) mod 7.

(** [list.sort(key=...)] is stable; a stable sort is determined by the order
    it sorts with, so the insertion sort below returns the list Python
    returns.  [lt a b] is the strict order on keys: an element is put in
    front of the first element that is not strictly before it. *)
Section Sort.
Context {A : Type} (lt : A -> A -> bool).

Fixpoint insert_sorted (x : A) (l : list A) : list A :=
  match l with
  | [] => [x]
  | y :: l' => if lt y x then y :: insert_sorted x l' else x :: y :: l'
  end.

Definition stable_sort (l : list A) : list A :=
  fold_right insert_sorted [] l.
End Sort.

(** [range(n)] on dates and counters: empty when [n <= 0]. *)
Definition range (n : Z) : list Z := map Z.of_nat (seq 0 (Z.to_nat n)).

(** [l[:k]]: a negative [k] counts from the end. *)
Definition slice_to {A : Type} (k : Z) (l : list A) : list A :=
  firstn (Z.to_nat (if k <? 0 then k + Z.of_nat (List.length l) else k)) l.

(** Exceptions the modelled code can raise, and the result of a call. *)
Inductive exn : Type :=
| ParseError        (* the calendar payload is not valid interchange text *)
| ValueError        (* str/strptime: the text does not have the expected shape *)
| InvalidDuration.  (* named by the specification; nothing modelled here raises it *)

Definition result (A : Type) : Type := (exn + A)%type.
Definition Ok {A : Type} (x : A) : result A := inr x.
Definition Raise {A : Type} (e : exn) : result A := inl e.
Definition bind {A B : Type} (c : result A) (k : A -> result B) : result B :=
  match c with inl e => inl e | inr x => k x end.

(** *** The proleptic Gregorian calendar of datetime.py *)

Definition DAYS_IN_MONTH : list Z := [-1; 31; 28; 31; 30; 31; 30; 31; 31; 30; 31; 30; 31].
Definition DAYS_BEFORE_MONTH : list Z :=
  [-1; 0; 31; 59; 90; 120; 151; 181; 212; 243; 273; 304; 334].
Definition tbl (t : list Z) (i : Z) : Z := nth (Z.to_nat i) t 0.

Definition is_leap (year : Z) : bool :=
  (year mod 4 =? 0) && (negb (year mod 100 =? 0) || (year mod 400 =? 0)).

Definition days_before_year (year : Z) : Z :=
  let y := year - 1 in y * 365 + y / 4 - y / 100 + y / 400.

Definition days_in_month (year month : Z) : Z :=
  if (month =? 2) && is_leap year then 29 else tbl DAYS_IN_MONTH month.

Definition days_before_month (year month : Z) : Z :=
  tbl DAYS_BEFORE_MONTH month + (if (2 <? month) && is_leap year then 1 else 0).

Definition ymd2ord (year month day : Z) : Z :=
  days_before_year year + days_before_month year month + day.

Definition DI400Y : Z := 146097.
Definition DI100Y : Z := 36524.
Definition DI4Y : Z := 1461.

Definition ord2ymd (n : Z) : Z * Z * Z :=
  let n := n - 1 in
  let n400 := n / DI400Y in
  let n := n mod DI400Y in
  let year := n400 * 400 + 1 in
  let n100 := n / DI100Y in
  let n := n mod DI100Y in
  let n4 := n / DI4Y in
  let n := n mod DI4Y in
  let n1 := n / 365 in
  let n := n mod 365 in
  let year := year + n100 * 100 + n4 * 4 + n1 in
  if (n1 =? 4) || (n100 =? 4) then (year - 1, 12, 31)
  else
    let leapyear := (n1 =? 3) && (negb (n4 =? 24) || (n100 =? 3)) in
    let month := Z.shiftr (n + 50) 5 in
    let preceding :=
      tbl DAYS_BEFORE_MONTH month + (if (2 <? month) && leapyear then 1 else 0) in
    if n <? preceding
    then
      let month := month - 1 in
      let preceding :=
        preceding - (tbl DAYS_IN_MONTH month +
                     (if (month =? 2) && leapyear then 1 else 0)) in
      (year, month, n - preceding + 1)
    else (year, month, n - preceding + 1).

(** [d.year] of a date. *)
Definition year (d : date) : Z := fst (fst (ord2ymd d)).

(** [datetime(year, month, day, hour, minute)], as a wall clock. *)
Definition naive (year month day h mi : Z) : Z :=
  ymd2ord year month day * US_PER_DAY + h * US_PER_HOUR + mi * US_PER_MINUTE.

(** *** Text: digits, strftime, str.split, strptime *)

Definition digit (n : Z) : ascii := ascii_of_nat (48 + Z.to_nat (n mod 10)).

Definition digit_value (c : ascii) : option Z :=
  let n := Z.of_nat (nat_of_ascii c) in
  if (48 <=? n) && (n <=? 57) then Some (n - 48) else None.

(** Zero-padded decimal fields, two and four wide. *)
Definition pad2 (n : Z) : string :=
  String (digit (n / 10)) (String (digit n) EmptyString).
Definition pad4 (n : Z) : string :=
  String (digit (n / 1000)) (String (digit (n / 100)) (pad2 n)).

(** ["%Y-%m-%d"] and ["%H:%M"] on calendar fields.  ([%Y] is written four
    wide; the C library does not pad years below 1000 on every platform.) *)
Definition fmt_date (year month day : Z) : string :=
  (pad4 year ++ "-" ++ pad2 month ++ "-" ++ pad2 day)%string.
Definition fmt_hm (h mi : Z) : string := (pad2 h ++ ":" ++ pad2 mi)%string.

Definition date_text (d : date) : string :=
  let '(y, m, dd) := ord2ymd d in fmt_date y m dd.
Definition strftime_date (d : datetime) : string := date_text (date_of d).
Definition strftime_hm (d : datetime) : string := fmt_hm (hour d) (minute d).

(** [s.startswith(sep)]. *)
Fixpoint starts_with (s sep : string) {struct sep} : bool :=
  match sep with
  | EmptyString => true
  | String a sep' =>
      match s with
      | EmptyString => false
      | String b s' => Ascii.eqb a b && starts_with s' sep'
      end
  end.

(** [s.split(sep)] for a non-empty separator: cut at each occurrence found
    scanning from the left, occurrences not overlapping.  [skip] counts the
    characters of a matched separator still to be passed over and [cur] is
    the piece being collected. *)
Fixpoint split_from (sep : string) (skip : nat) (cur s : string) : list string :=
  match s with
  | EmptyString => [cur]
  | String c s' =>
      match skip with
      | S k => split_from sep k cur s'
      | O =>
          if starts_with s sep
          then cur :: split_from sep (String.length sep - 1) EmptyString s'
          else split_from sep O (cur ++ String c EmptyString)%string s'
      end
  end.

Definition split (s sep : string) : list string := split_from sep 0 EmptyString s.

Definition number2 (a b : ascii) : option Z :=
  match digit_value a, digit_value b with
  | Some x, Some y => Some (10 * x + y)
  | _, _ => None
  end.

Definition number4 (a b c d : ascii) : option Z :=
  match number2 a b, number2 c d with
  | Some x, Some y => Some (100 * x + y)
  | _, _ => None
  end.

(** [datetime.strptime(s, "%Y-%m-%d %H:%M")], giving the naive wall clock.
    The text must be the zero-padded form that [strftime] writes, and the
    fields must name a real date and time of day; anything else is a
    [ValueError].  (Python's matcher also takes one-digit months, days,
    hours and minutes; those spellings are outside this model.) *)
Definition strptime (s : string) : result Z :=
  match list_ascii_of_string s with
  | [y1; y2; y3; y4; s1; m1; m2; s2; d1; d2; s3; h1; h2; s4; n1; n2] =>
      if ((s1 =? "-") && (s2 =? "-") && (s3 =? " ") && (s4 =? ":"))%char
      then
        match number4 y1 y2 y3 y4, number2 m1 m2, number2 d1 d2,
              number2 h1 h2, number2 n1 n2 with
        | Some y, Some m, Some d, Some h, Some mi =>
            if (1 <=? y) && (1 <=? m) && (m <=? 12) && (1 <=? d)
               && (d <=? days_in_month y m) && (h <=? 23) && (mi <=? 59)
            then Ok (naive y m d h mi)
            else Raise ValueError
        | _, _, _, _, _ => Raise ValueError
        end
      else Raise ValueError
  | _ => Raise ValueError
  end.

End Py.

(** ** scheduler2.py, day availability resolver *)

Module scheduler2.
Import Py.

(** An [ics] event, as far as the engine reads it: [event.begin] and
    [event.end], each with its own zone. *)
Record event : Type := mkevent { begin : datetime; end_ : datetime }.

Definition interval : Type := (datetime * datetime)%type.

(** The merge loop of [events_for_day]: one iteration on the list built so
    far ([merged[-1]] is its last element). *)
Definition merge_step (merged : list interval) (iv : interval) : list interval :=
  match rev merged with
  | [] => merged ++ [iv]
  | (last_start, last_end) :: _ =>
      let '(current_start, current_end) := iv in
      if dt_leb current_start last_end
      then removelast merged ++ [(last_start, dt_max last_end current_end)]
      else merged ++ [iv]
  end.

Definition work_start (day : date) (tz : tzinfo) : datetime := combine day 9 0 tz.
Definition work_end (day : date) (tz : tzinfo) : datetime := combine day 17 0 tz.

(** The first loop of [events_for_day]: keep the events that overlap the
    working window, clipped to it. *)
Definition clip_event (day : date) (tz : tzinfo) (ev : event) : list interval :=
  let event_start := astimezone (begin ev) tz in
  let event_end := astimezone (end_ ev) tz in
  if dt_ltb (work_start day tz) event_end && dt_ltb event_start (work_end day tz)
  then [(dt_max event_start (work_start day tz), dt_min event_end (work_end day tz))]
  else [].

Definition events_for_day (events : list event) (day : date) (tz : tzinfo)
  : list interval :=
  let day_events := flat_map (clip_event day tz) events in
  let day_events := stable_sort (fun a b => dt_ltb (fst a) (fst b)) day_events in
  fold_left merge_step day_events [].

(** The gaps between consecutive busy intervals
    ([for i in range(len(busy)-1)]). *)
Fixpoint gaps (busy : list interval) : list interval :=
  match busy with
  | a :: (b :: _) as rest =>
      (if dt_ltb (snd a) (fst b) then [(snd a, fst b)] else []) ++ gaps rest
  | _ => []
  end.

(** The "today" clipping of [free_intervals_for_day]. *)
Definition clip_to_now (current_dt : datetime) (iv : interval) : list interval :=
  let '(start, end') := iv in
  let start := if dt_ltb start current_dt then dt_max start current_dt else start in
  if dt_ltb start end' then [(start, end')] else [].

Definition free_intervals_for_day (events : list event) (day : date) (tz : tzinfo)
    (current_dt : option datetime) : list interval :=
  let busy := events_for_day events day tz in
  let free :=
    match busy with
    | [] => [(work_start day tz, work_end day tz)]
    | first :: _ =>
        (if dt_ltb (work_start day tz) (fst first)
         then [(work_start day tz, fst first)] else [])
        ++ gaps busy
        ++ (let last_end := snd (last busy first) in
            if dt_ltb last_end (work_end day tz)
            then [(last_end, work_end day tz)] else [])
    end in
  match current_dt with
  | Some now =>
      if day =? date_of now then flat_map (clip_to_now now) free else free
  | None => free
  end.

(** ** scheduler2.py, slot ranking engine *)

(** A candidate is the tuple [(score, start, end)].  The score is a float
    in the source, [slack.total_seconds() / 2]; it is kept as the exact
    rational it stands for, and only its order is ever used. *)
Definition candidate : Type := (Q * datetime * datetime)%type.
Definition score (c : candidate) : Q := fst (fst c).
Definition cand_start (c : candidate) : datetime := snd (fst c).
Definition cand_end (c : candidate) : datetime := snd c.

Definition total_seconds (td : timedelta) : Q := (td # 1000000)%Q.

Definition candidate_from_interval (iv : interval) (meeting_td : timedelta)
  : option candidate :=
  let '(start, end') := iv in
  let interval_td := dt_sub end' start in
  if interval_td <? meeting_td then None
  else
    let slack := interval_td - meeting_td in
    let candidate_start := dt_add start (td_div slack 2) in
    (* Round to nearest 5 minutes; on an integer minute, [m % 5 >= 2.5]
       is [2 * (m % 5) >= 5]. *)
    let rounded_minute := (minute candidate_start / 5) * 5 in
    let rounded_minute :=
      if 5 <=? 2 * (minute candidate_start mod 5)
      then rounded_minute + 5 else rounded_minute in
    let '(rounded_minute, candidate_start) :=
      if 60 <=? rounded_minute
      then (0, dt_add candidate_start (td_hours 1))
      else (rounded_minute, candidate_start) in
    let candidate_start := replace_minute candidate_start rounded_minute in
    let candidate_end := dt_add candidate_start meeting_td in
    if dt_ltb candidate_start start || dt_ltb end' candidate_end then None
    else Some ((total_seconds slack / 2)%Q, candidate_start, candidate_end).

(** [min(event.begin.date() for event in all_events)] on a non-empty pool. *)
Definition min_event_date (first : event) (others : list event) : date :=
  fold_left Z.min (map (fun ev => date_of (begin ev)) others) (date_of (begin first)).

(** [week_now] is the wall clock read by [infer_working_week] itself
    ([datetime.now().astimezone()]) when the pool is empty. *)
Definition infer_working_week (week_now : datetime) (all_events : list event)
  : date * date :=
  let monday :=
    match all_events with
    | first :: others =>
        let d := min_event_date first others in d - weekday d
    | [] => date_of week_now - weekday (date_of week_now)
    end in
  (monday, monday + 4).

Definition get_scheduling_days (week_now : datetime) (all_events : list event)
    (current_dt : datetime) : list date :=
  let '(working_week_start, working_week_end) :=
    infer_working_week week_now all_events in
  if (working_week_start <=? date_of current_dt)
     && (date_of current_dt <=? working_week_end)
  then
    let days_count := (working_week_end - date_of current_dt) + 1 in
    map (fun i => date_of current_dt + i) (range days_count)
  else map (fun i => working_week_start + i) (range 5).

(** The f-string of [find_best_meeting_slots]. *)
Definition slot_str (c : candidate) : string :=
  (strftime_date (cand_start c) ++ ": " ++ strftime_hm (cand_start c)
   ++ "-" ++ strftime_hm (cand_end c))%string.

Section Engine.
(** [Calendar(ics_content).events] of the [ics] package, which is not part
    of the repository: any function from payloads to event lists that may
    fail. *)
Variable Calendar : string -> result (list event).

Definition load_calendar_from_content (ics_content : string)
  : result (list event) := Calendar ics_content.

(** The loading loop: payloads are read in order, the first failure
    aborts the call. *)
Fixpoint load_all (ics_contents : list string) (all_events : list event)
  : result (list event) :=
  match ics_contents with
  | [] => Ok all_events
  | ics_content :: rest =>
      bind (load_calendar_from_content ics_content)
           (fun events => load_all rest (all_events ++ events))
  end.

(** The candidates of one scheduling day. *)
Definition day_candidates (all_events : list event) (meeting_td : timedelta)
    (current_dt : datetime) (day : date) : list candidate :=
  let free_intervals :=
    free_intervals_for_day all_events day (utcoffset current_dt)
      (if day =? date_of current_dt then Some current_dt else None) in
  flat_map (fun iv => match candidate_from_interval iv meeting_td with
                      | Some c => [c]
                      | None => []
                      end) free_intervals.

(** Everything up to [best_slots]; [now] is the clock read by
    [find_best_meeting_slots], [week_now] the later one read by
    [infer_working_week]. *)
Definition best_slots (now week_now : datetime) (all_events : list event)
    (meeting_duration_minutes max_slots : Z) : list candidate :=
  let meeting_td := td_minutes meeting_duration_minutes in
  let scheduling_days := get_scheduling_days week_now all_events now in
  let candidate_slots :=
    flat_map (day_candidates all_events meeting_td now) scheduling_days in
  (* sort(key=score, reverse=True): descending and still stable *)
  let candidate_slots :=
    stable_sort (fun a b => negb (Qle_bool (score a) (score b))) candidate_slots in
  slice_to max_slots candidate_slots.

Definition find_best_meeting_slots (now week_now : datetime)
    (ics_contents : list string) (meeting_duration_minutes max_slots : Z)
  : result (list string) :=
  bind (load_all ics_contents [])
       (fun all_events =>
          Ok (map slot_str
                  (best_slots now week_now all_events
                              meeting_duration_minutes max_slots))).
End Engine.

End scheduler2.

(** ** update_schedule_2.py *)

Module update_schedule_2.
Import Py scheduler2.

Section Parse.
(** The module constant [SGT = pytz.timezone("Asia/Singapore")], seen
    through the UTC offset a datetime carries once the zone object has
    been attached with [replace(tzinfo=SGT)]. *)
Variable SGT : tzinfo.

Definition parse_selected_time (selected_time : string)
  : result (datetime * datetime) :=
  match split selected_time ": " with
  | [date_str; time_range] =>
      match split time_range "-" with
      | [start_time_str; end_time_str] =>
          bind (strptime (date_str ++ " " ++ start_time_str))
            (fun start_naive =>
               bind (strptime (date_str ++ " " ++ end_time_str))
                 (fun end_naive =>
                    Ok (mkdt start_naive SGT, mkdt end_naive SGT)))
      | _ => Raise ValueError
      end
  | _ => Raise ValueError
  end.
End Parse.

End update_schedule_2.

(** ** Vocabulary of the specification *)

Module Spec.
Import Py scheduler2.

(** Intervals are half-open sets of instants. *)
Definition istart (iv : interval) : Z := instant (fst iv).
Definition iend (iv : interval) : Z := instant (snd iv).
Definition inside (iv : interval) (t : Z) : Prop := istart iv <= t < iend iv.
Definition covers (l : list interval) (t : Z) : Prop :=
  exists iv, In iv l /\ inside iv t.
Definition nonempty (iv : interval) : Prop := istart iv < iend iv.
Definition disjoint (a b : interval) : Prop := forall t, ~ (inside a t /\ inside b t).

(** An interval that does not end before it starts and lies between two
    instants. *)
Definition within (lo hi : Z) (iv : interval) : Prop :=
  lo <= istart iv /\ istart iv <= iend iv /\ iend iv <= hi.

(** Every pair of a list, taken in list order, is disjoint. *)
Definition pairwise_disjoint (l : list interval) : Prop := ForallOrdPairs disjoint l.

Definition sorted_by_start (l : list interval) : Prop :=
  StronglySorted (fun a b => istart a <= istart b) l.

(** An earlier interval ends strictly before a later one starts. *)
Definition separated (a b : interval) : Prop := iend a < istart b.
Definition chain (l : list interval) : Prop := StronglySorted separated l.

(** An earlier interval ends no later than a later one starts. *)
Definition wchain (l : list interval) : Prop :=
  StronglySorted (fun a b => iend a <= istart b) l.

(** The complement of a busy list between two bounds, by recursion on the
    list: the gap in front of the first interval, then the complement of the
    rest from where that interval ends. *)
Fixpoint free_between (lo : datetime) (busy : list interval) (hi : datetime)
  : list interval :=
  match busy with
  | [] => if dt_ltb lo hi then [(lo, hi)] else []
  | a :: rest =>
      (if dt_ltb lo (fst a) then [(lo, fst a)] else [])
      ++ free_between (snd a) rest hi
  end.

(** Where [candidate_from_interval] first places the meeting: the start of
    the interval plus half the slack. *)
Definition centered_start (iv : interval) (meeting_td : timedelta) : datetime :=
  dt_add (fst iv) (td_div (dt_sub (snd iv) (fst iv) - meeting_td) 2).

(** The multiple of 5 nearest to a whole number of minutes: remainders 0, 1
    and 2 go down, 3 and 4 go up. *)
Definition nearest5 (m : Z) : Z :=
  if m mod 5 <=? 2 then m - m mod 5 else m - m mod 5 + 5.

(** A list holds exactly the consecutive days [a], [a + 1], ..., [b], in
    that order. *)
Definition days_from_to (l : list date) (a b : date) : Prop :=
  StronglySorted Z.lt l /\ forall d, In d l <-> a <= d <= b.

(** A datetime of the zone [tz] between 09:00 and 17:00 of the date. *)
Definition in_working_day (day : date) (tz : tzinfo) (d : datetime) : Prop :=
  utcoffset d = tz /\
  instant (work_start day tz) <= instant d <= instant (work_end day tz).

(** Both ends of every interval of a list have a property. *)
Definition endpoints (P : datetime -> Prop) (l : list interval) : Prop :=
  Forall (fun iv => P (fst iv) /\ P (snd iv)) l.

(** A character occurs in a text. *)
Fixpoint has_char (c : ascii) (s : string) : bool :=
  match s with
  | EmptyString => false
  | String b s' => Ascii.eqb c b || has_char c s'
  end.

(** [ord2ymd n] is a real calendar date and [ymd2ord] leads back to [n]. *)
Definition civil_ok (n : Z) : bool :=
  let '(y, m, d) := ord2ymd n in
  (ymd2ord y m d =? n) && (1 <=? m) && (m <=? 12) && (1 <=? d)
  && (d <=? days_in_month y m).

(** [civil_ok] on [count] consecutive ordinals from [n] on. *)
Fixpoint civil_ok_from (count : nat) (n : Z) : bool :=
  match count with
  | O => true
  | S k => civil_ok n && civil_ok_from k (n + 1)
  end.

(** The working window [09:00, 17:00) of a date in a zone. *)
Definition in_window (day : date) (tz : tzinfo) (t : Z) : Prop :=
  instant (work_start day tz) <= t < instant (work_end day tz).

(** The instants an event occupies. *)
Definition event_inside (ev : event) (t : Z) : Prop :=
  instant (begin ev) <= t < instant (end_ ev).

End Spec.

(** ** Sample data for the concrete runs *)

Module Samples.
Import Py scheduler2.

(** 2024-01-01, a Monday, as an ordinal. *)
Definition monday : date := 738886.
Definition utc : tzinfo := 0.
Definition plus8 : tzinfo := td_hours 8.

(** A payload reader for calendars without events, and one that rejects
    the payload ["garbage"]. *)
Definition no_events : string -> result (list event) := fun _ => Ok [].
Definition strict_reader : string -> result (list event) :=
  fun payload => if String.eqb payload "garbage" then Raise ParseError else Ok [].

(** 08:00 on that Monday, in UTC+8 and in UTC. *)
Definition monday_8am : datetime := combine monday 8 0 plus8.
Definition monday_8am_utc : datetime := combine monday 8 0 utc.

(** A payload of a calendar without events. *)
Definition empty_payload : string := "BEGIN:VCALENDAR END:VCALENDAR".

(** A meeting that ends at 09:00 sharp. *)
Definition early_meeting : event :=
  mkevent (combine monday 8 0 plus8) (combine monday 9 0 plus8).

(** A free interval of 35 minutes, from 09:00. *)
Definition short_gap : interval :=
  (combine monday 9 0 plus8, combine monday 9 35 plus8).

(** The slot the engine finds on the Monday for calendars without events,
    computed in UTC. *)
Definition utc_slot : candidate :=
  ((total_seconds (td_minutes 450) / 2)%Q,
   combine monday 12 45 utc, combine monday 13 15 utc).

(** Two readings of the parser's zone: the UTC+8 its comment states, and
    the local mean time +06:55 that a [pytz] zone attached with
    [replace(tzinfo=...)] carries. *)
Definition sgt_stated : tzinfo := td_hours 8.
Definition sgt_lmt : tzinfo := td_minutes 415.

(** A pool with two overlapping meetings, one touching them, and one apart. *)
Definition pool : list event :=
  [ mkevent (combine monday 13 0 plus8) (combine monday 14 0 plus8);
    mkevent (combine monday 10 0 plus8) (combine monday 11 0 plus8);
    mkevent (combine monday 2 30 utc) (combine monday 3 30 utc);
    mkevent (combine monday 11 30 plus8) (combine monday 12 0 plus8) ].

End Samples.

(** ** bot.py: the texts the handlers pass around *)

Module bot.
Import Py scheduler2.

(** Text is taken to be ASCII here, one [ascii] per character; [\d] and
    [str.split] are modelled on such text. *)
Definition is_digit (c : ascii) : bool :=
  match digit_value c with Some _ => true | None => false end.

Definition is_space (c : ascii) : bool := Ascii.eqb c " ".

(** [valid_meeting_id]: [re.match(r"^\d{3}( \d{3}){3}$", meeting_id)].
    [$] matches at the end of the text and also just before a newline that
    ends it. *)
Definition valid_meeting_id (meeting_id : string) : bool :=
  match list_ascii_of_string meeting_id with
  | a1 :: a2 :: a3 :: s1 :: b1 :: b2 :: b3 :: s2 :: c1 :: c2 :: c3 :: s3
    :: d1 :: d2 :: d3 :: rest =>
      is_digit a1 && is_digit a2 && is_digit a3 && is_space s1
      && is_digit b1 && is_digit b2 && is_digit b3 && is_space s2
      && is_digit c1 && is_digit c2 && is_digit c3 && is_space s3
      && is_digit d1 && is_digit d2 && is_digit d3
      && match rest with
         | [] => true
         | [nl] => Ascii.eqb nl (ascii_of_nat 10)
         | _ => false
         end
  | _ => false
  end.

(** [s.split(sep, maxsplit)] for a non-empty separator: as [split], but no
    more than [maxsplit] cuts are made. *)
Fixpoint split_from_max (sep : string) (maxsplit skip : nat) (cur s : string)
  : list string :=
  match s with
  | EmptyString => [cur]
  | String c s' =>
      match skip with
      | S k => split_from_max sep maxsplit k cur s'
      | O =>
          match maxsplit with
          | O => [(cur ++ s)%string]
          | S n =>
              if starts_with s sep
              then cur :: split_from_max sep n (String.length sep - 1) EmptyString s'
              else split_from_max sep maxsplit O (cur ++ String c EmptyString)%string s'
          end
      end
  end.

Definition split_max (s sep : string) (maxsplit : nat) : list string :=
  split_from_max sep maxsplit 0 EmptyString s.

(** The callback data of a slot button, [f"{meeting_id}|{slot}"], and how
    [slot_selection] takes it apart:
    [meeting_id, chosen_slot = query.data.split("|", 1)]. *)
Definition callback_data (meeting_id slot : string) : string :=
  (meeting_id ++ "|" ++ slot)%string.

Definition read_callback (data : string) : result (string * string) :=
  match split_max data "|" 1 with
  | [meeting_id; chosen_slot] => Ok (meeting_id, chosen_slot)
  | _ => Raise ValueError
  end.

(** [sep.join(items)]. *)
Fixpoint join (sep : string) (items : list string) : string :=
  match items with
  | [] => EmptyString
  | [x] => x
  | x :: rest => (x ++ sep ++ join sep rest)%string
  end.

(** The selection a user builds with the buttons is a Python [set] of slot
    texts, kept here as the list of the texts it holds, each once and in no
    particular order. *)
Definition slot_set := list string.

Definition mem (slot : string) (s : slot_set) : bool := existsb (String.eqb slot) s.
Definition set_of (slots : list string) : slot_set := nodup string_dec slots.
Definition set_add (slot : string) (s : slot_set) : slot_set :=
  if mem slot s then s else slot :: s.
Definition set_remove (slot : string) (s : slot_set) : slot_set :=
  filter (fun other => negb (String.eqb slot other)) s.
Definition set_eqb (a b : slot_set) : bool :=
  forallb (fun slot => mem slot b) a && forallb (fun slot => mem slot a) b.

(** What [slot_selection] does to the stored selection of a user when a
    button is pressed: ["select_all"] selects every offered slot, or clears
    the selection when every offered slot is selected already; any other
    button toggles its slot. *)
Definition slot_selection (common_slots : list string) (chosen_slot : string)
    (selected_slots : slot_set) : slot_set :=
  if String.eqb chosen_slot "select_all" then
    if negb (set_eqb (set_of common_slots) selected_slots)
    then set_of common_slots
    else []
  else
    if mem chosen_slot selected_slots
    then set_remove chosen_slot selected_slots
    else set_add chosen_slot selected_slots.

(** The selection after a run of button presses, from the empty one. *)
Definition selection_after (common_slots : list string) (presses : list string)
  : slot_set :=
  fold_left (fun selected chosen => slot_selection common_slots chosen selected)
            presses [].

(** What [submit_selection] stores for a user, [", ".join(selected_slots)],
    and how it reads a stored text back:
    [choices.split(", ") if choices else []]. *)
Definition stored_choices (selected_slots : list string) : string :=
  join ", " selected_slots.

Definition read_choices (choices : string) : list string :=
  match choices with
  | EmptyString => []
  | _ => split choices ", "
  end.

(** [set(user_a_choices).intersection(user_b_choices)], as the texts that
    occur in both lists; [pop()] then takes one of them. *)
Definition common_slots (user_a_choices user_b_choices : list string) : list string :=
  filter (fun slot => existsb (String.eqb slot) user_b_choices) user_a_choices.

End bot.

(** ** Further vocabulary *)

Module Spec2.
Import Py scheduler2.

(** The order the ranking sorts with: a candidate goes in front of the
    ones that score strictly less. *)
Definition score_lt (a b : candidate) : bool := negb (Qle_bool (score a) (score b)).

(** Fields that name a real date, and a real time of day. *)
Definition real_date (y m d : Z) : bool :=
  (1 <=? y) && (1 <=? m) && (m <=? 12) && (1 <=? d) && (d <=? days_in_month y m).
Definition real_time (h mi : Z) : bool := (h <=? 23) && (mi <=? 59).

End Spec2.

(** ** Further sample data *)

Module MoreSamples.
Import Py scheduler2 Samples.

(** A free hour, from 09:00. *)
Definition long_gap : interval :=
  (combine monday 9 0 plus8, combine monday 10 0 plus8).

(** The middle half hour of a whole working day, the Monday's and the
    Tuesday's, in UTC+8. *)
Definition monday_slot : candidate :=
  ((total_seconds (td_minutes 450) / 2)%Q,
   combine monday 12 45 plus8, combine monday 13 15 plus8).
Definition tuesday_slot : candidate :=
  ((total_seconds (td_minutes 450) / 2)%Q,
   combine (monday + 1) 12 45 plus8, combine (monday + 1) 13 15 plus8).

(** 08:00 on the Monday a week later. *)
Definition next_monday_8am : datetime := combine (monday + 7) 8 0 plus8.

(** Two calendars that share the sample pool between them, and a reader
    that knows their payloads. *)
Definition pool_a : list event :=
  [ mkevent (combine monday 13 0 plus8) (combine monday 14 0 plus8);
    mkevent (combine monday 10 0 plus8) (combine monday 11 0 plus8) ].
Definition pool_b : list event :=
  [ mkevent (combine monday 2 30 utc) (combine monday 3 30 utc);
    mkevent (combine monday 11 30 plus8) (combine monday 12 0 plus8) ].
Definition two_calendars : string -> result (list event) :=
  fun payload =>
    if String.eqb payload "calendar a" then Ok pool_a
    else if String.eqb payload "calendar b" then Ok pool_b
    else Raise ParseError.

(** A meeting id, and what two users selected among the offered slots. *)
Definition meeting_id : string := "123 456 789 012".
Definition selection_a : list string :=
  ["2024-01-01: 12:45-13:15"; "2024-01-02: 12:45-13:15"]%string.
Definition selection_b : list string := ["2024-01-02: 12:45-13:15"]%string.

(** Button presses of a user, among them "Select All". *)
Definition presses : list string :=
  ["2024-01-01: 12:45-13:15"; "select_all"; "2024-01-02: 12:45-13:15"]%string.

End MoreSamples.

(** ** Facts about the runtime model *)

Module PyFacts.
Import Py.

(** The unit constants as numerals, for linear arithmetic. *)
Ltac numerals :=
  change US_PER_DAY with 86400000000 in *;
  change US_PER_HOUR with 3600000000 in *;
  change US_PER_MINUTE with 60000000 in *;
  change US_PER_SECOND with 1000000 in *.

Lemma instant_dt_max a b : instant (dt_max a b) = Z.max (instant a) (instant b).
Proof.
  unfold dt_max, dt_ltb. destruct (Z.ltb_spec (instant a) (instant b)); lia.
Qed.

Lemma instant_dt_min a b : instant (dt_min a b) = Z.min (instant a) (instant b).
Proof.
  unfold dt_min, dt_ltb. destruct (Z.ltb_spec (instant b) (instant a)); lia.
Qed.

Lemma instant_astimezone d tz : instant (astimezone d tz) = instant d.
Proof. unfold astimezone, instant; simpl. lia. Qed.

Lemma utcoffset_dt_max a b tz :
  utcoffset a = tz -> utcoffset b = tz -> utcoffset (dt_max a b) = tz.
Proof. unfold dt_max. now destruct (dt_ltb a b). Qed.

Lemma utcoffset_dt_min a b tz :
  utcoffset a = tz -> utcoffset b = tz -> utcoffset (dt_min a b) = tz.
Proof. unfold dt_min. now destruct (dt_ltb b a). Qed.

Section SortFacts.
Context {A : Type} (lt : A -> A -> bool).

Lemma In_insert_sorted x y l : In y (insert_sorted lt x l) <-> y = x \/ In y l.
Proof.
  induction l as [|z l IH]; simpl.
  - intuition.
  - destruct (lt z x); simpl; rewrite ?IH; intuition.
Qed.

Lemma In_stable_sort y l : In y (stable_sort lt l) <-> In y l.
Proof.
  induction l as [|x l IH]; simpl; [tauto|].
  rewrite In_insert_sorted, IH. intuition.
Qed.

Lemma Forall_stable_sort (P : A -> Prop) l :
  Forall P l -> Forall P (stable_sort lt l).
Proof.
  rewrite !Forall_forall. intros H x Hx. apply H. now apply In_stable_sort.
Qed.
End SortFacts.

Section SortByKey.
Context {A : Type} (key : A -> Z).
Let lt := fun a b => key a <? key b.
Let le := fun a b => key a <= key b.

Lemma insert_sorted_sorted x l :
  StronglySorted le l -> StronglySorted le (insert_sorted lt x l).
Proof.
  induction 1 as [|z l Hs IH Hz]; simpl.
  - repeat constructor.
  - unfold lt at 1. destruct (Z.ltb_spec (key z) (key x)) as [Hlt|Hge].
    + constructor; [exact IH|].
      apply Forall_forall. intros y Hy.
      apply In_insert_sorted in Hy. destruct Hy as [->|Hy].
      * unfold le. lia.
      * rewrite Forall_forall in Hz. now apply Hz.
    + constructor.
      * now constructor.
      * constructor; [exact Hge|].
        rewrite Forall_forall in Hz |- *. intros y Hy.
        specialize (Hz y Hy). unfold le in *. lia.
Qed.

Lemma stable_sort_sorted l : StronglySorted le (stable_sort lt l).
Proof.
  induction l as [|x l IH]; simpl; [constructor|].
  now apply insert_sorted_sorted.
Qed.
End SortByKey.

End PyFacts.

(** ** The day availability resolver *)

Module Resolver.
Import Py scheduler2 Spec PyFacts.

Lemma covers_nil t : ~ covers [] t.
Proof. intros (iv & [] & _). Qed.

Lemma covers_cons iv l t : covers (iv :: l) t <-> inside iv t \/ covers l t.
Proof.
  unfold covers; split.
  - intros (x & [<-|Hin] & Hx); eauto.
  - intros [H|(x & Hin & Hx)]; [exists iv|exists x]; simpl; auto.
Qed.

Lemma covers_app l1 l2 t : covers (l1 ++ l2) t <-> covers l1 t \/ covers l2 t.
Proof.
  unfold covers; split.
  - intros (x & Hin & Hx). apply in_app_or in Hin. destruct Hin; eauto.
  - intros [(x & Hin & Hx)|(x & Hin & Hx)]; exists x; split; auto using in_or_app.
Qed.

Lemma covers_one iv t : covers [iv] t <-> inside iv t.
Proof. rewrite covers_cons. pose proof (covers_nil t). tauto. Qed.

Lemma covers_same_elements l1 l2 t :
  (forall iv, In iv l1 <-> In iv l2) -> covers l1 t <-> covers l2 t.
Proof.
  intros H; unfold covers; split; intros (x & Hin & Hx); exists x; split; auto;
    now apply H.
Qed.

Lemma snoc_cases {A : Type} (l : list A) : l = [] \/ exists l' x, l = l' ++ [x].
Proof.
  destruct l as [|a l]; [now left|right].
  destruct (@exists_last A (a :: l)) as (l' & x & E); [discriminate|eauto].
Qed.

Lemma merge_step_nil iv : merge_step [] iv = [iv].
Proof. reflexivity. Qed.

Lemma merge_step_snoc acc last_start last_end current_start current_end :
  merge_step (acc ++ [(last_start, last_end)]) (current_start, current_end) =
  if dt_leb current_start last_end
  then acc ++ [(last_start, dt_max last_end current_end)]
  else (acc ++ [(last_start, last_end)]) ++ [(current_start, current_end)].
Proof.
  unfold merge_step. rewrite rev_app_distr. simpl.
  now rewrite removelast_last.
Qed.

Lemma chain_snoc l x :
  chain l -> Forall (fun a => separated a x) l -> chain (l ++ [x]).
Proof.
  unfold chain. induction 1 as [|a l Hs IH Ha]; intros Hx; simpl.
  - repeat constructor.
  - inversion Hx; subst. constructor; [now apply IH|].
    apply Forall_app. split; [exact Ha|now constructor].
Qed.

Lemma chain_snoc_inv l x :
  chain (l ++ [x]) -> chain l /\ Forall (fun a => separated a x) l.
Proof.
  unfold chain. induction l as [|a l IH]; simpl; intros H.
  - split; constructor.
  - inversion H as [|? ? Hs Ha]; subst. destruct (IH Hs) as [Hc Hf].
    apply Forall_app in Ha. destruct Ha as [Ha Hax]. inversion Hax; subst.
    split; constructor; auto.
Qed.

(** The merge loop keeps a chain of intervals lying between [lo] and [hi]
    and covers what it has consumed, provided the intervals still to come
    start no earlier than the ones already placed. *)
Lemma merge_loop_invariant lo hi rest :
  forall acc,
    Forall (within lo hi) acc -> chain acc ->
    Forall (within lo hi) rest -> sorted_by_start rest ->
    (forall a b, In a acc -> In b rest -> istart a <= istart b) ->
    Forall (within lo hi) (fold_left merge_step rest acc) /\
    chain (fold_left merge_step rest acc) /\
    (forall t, covers (fold_left merge_step rest acc) t <->
               covers acc t \/ covers rest t).
Proof.
  induction rest as [|[cs ce] rest IH]; intros acc Hne Hch Hner Hsr Hle; simpl.
  - split; [|split]; auto. intros t. pose proof (covers_nil t). tauto.
  - inversion Hner as [|? ? Hc Hner']; subst.
    inversion Hsr as [|? ? Hsr' Hcr]; subst.
    rewrite Forall_forall in Hcr.
    unfold within, istart, iend in Hc; simpl in Hc.
    destruct (snoc_cases acc) as [->|(acc' & [ls le] & ->)].
    + rewrite merge_step_nil.
      destruct (IH [(cs, ce)]) as (H1 & H2 & H3); auto.
      * now repeat constructor.
      * intros a b [<-|[]] Hb. now apply Hcr.
      * split; [|split]; auto. intros t. rewrite H3, covers_one, covers_cons.
        pose proof (covers_nil t). tauto.
    + rewrite merge_step_snoc.
      apply Forall_app in Hne. destruct Hne as [Hne' Hl].
      inversion Hl as [|? ? Hlast _]; subst.
      unfold within, istart, iend in Hlast; simpl in Hlast.
      apply chain_snoc_inv in Hch. destruct Hch as [Hch' Hsep].
      assert (Hlc : instant ls <= instant cs).
      { apply (Hle (ls, le) (cs, ce)); [apply in_or_app; right|]; now left. }
      unfold dt_leb. destruct (Z.leb_spec (instant cs) (instant le)) as [Hov|Hgap].
      * destruct (IH (acc' ++ [(ls, dt_max le ce)])) as (H1 & H2 & H3); auto.
        -- apply Forall_app. split; [exact Hne'|]. repeat constructor;
             unfold istart, iend; simpl; rewrite ?instant_dt_max; lia.
        -- apply chain_snoc; [exact Hch'|].
           revert Hsep. apply Forall_impl. intros a. unfold separated, istart; simpl. auto.
        -- intros a b Ha Hb. apply in_app_or in Ha. destruct Ha as [Ha|[<-|[]]].
           ++ apply (Hle a b); [apply in_or_app; now left|now right].
           ++ apply (Hle (ls, le) b); [apply in_or_app; right; now left|now right].
        -- split; [|split]; auto. intros t.
           rewrite H3, !covers_app, !covers_one, covers_cons.
           unfold inside, istart, iend; simpl. rewrite instant_dt_max. split.
           ++ intros [[?|?]|?]; auto.
              destruct (Z.lt_ge_cases t (instant le)); [left; right; lia|right; left; lia].
           ++ intros [[?|?]|[?|?]]; auto; left; right; lia.
      * destruct (IH ((acc' ++ [(ls, le)]) ++ [(cs, ce)])) as (H1 & H2 & H3); auto.
        -- apply Forall_app. split; [|now repeat constructor].
           apply Forall_app. split; [exact Hne'|now repeat constructor].
        -- apply chain_snoc; [now apply chain_snoc|].
           apply Forall_app. split.
           ++ revert Hsep. apply Forall_impl. intros a.
              unfold separated, istart, iend; simpl. lia.
           ++ repeat constructor. unfold separated, istart, iend; simpl. lia.
        -- intros a b Ha Hb. apply in_app_or in Ha. destruct Ha as [Ha|[<-|[]]].
           ++ apply (Hle a b); [exact Ha|now right].
           ++ now apply Hcr.
        -- split; [|split]; auto. intros t.
           rewrite H3, !covers_app, !covers_one, covers_cons. tauto.
Qed.

(** Merging non-empty intervals gives non-empty intervals. *)
Lemma merge_step_nonempty acc iv :
  Forall nonempty acc -> nonempty iv -> Forall nonempty (merge_step acc iv).
Proof.
  intros Hacc Hiv. destruct iv as [cs ce].
  destruct (snoc_cases acc) as [->|(acc' & [ls le] & ->)].
  - rewrite merge_step_nil. now repeat constructor.
  - rewrite merge_step_snoc. apply Forall_app in Hacc. destruct Hacc as [Ha Hl].
    inversion Hl as [|? ? Hlast _]; subst.
    destruct (dt_leb cs le).
    + apply Forall_app. split; [exact Ha|]. repeat constructor.
      unfold nonempty, istart, iend in *; simpl in *. rewrite instant_dt_max. lia.
    + apply Forall_app. split; [|now repeat constructor].
      apply Forall_app. split; [exact Ha|now repeat constructor].
Qed.

Lemma merge_loop_nonempty rest :
  forall acc, Forall nonempty acc -> Forall nonempty rest ->
              Forall nonempty (fold_left merge_step rest acc).
Proof.
  induction rest as [|iv rest IH]; intros acc Hacc Hrest; simpl; [exact Hacc|].
  inversion Hrest; subst. apply IH; [now apply merge_step_nonempty|assumption].
Qed.

Lemma within_proper lo hi l : Forall (within lo hi) l -> Forall (fun iv => istart iv <= iend iv) l.
Proof. apply Forall_impl. unfold within. tauto. Qed.

Lemma chain_sorted_by_start l :
  Forall (fun iv => istart iv <= iend iv) l -> chain l -> sorted_by_start l.
Proof.
  unfold chain, sorted_by_start. intros Hne Hch. induction Hch as [|a l Hs IH Ha].
  - constructor.
  - inversion Hne as [|? ? Hna Hnl]; subst. constructor; [now apply IH|].
    revert Ha. apply Forall_impl. intros b. unfold separated in *. lia.
Qed.

Lemma chain_pairwise_disjoint l : chain l -> pairwise_disjoint l.
Proof.
  unfold chain, pairwise_disjoint. induction 1 as [|a l Hs IH Ha].
  - constructor.
  - constructor; [|exact IH].
    revert Ha. apply Forall_impl. intros b Hab u.
    unfold separated, inside in *. lia.
Qed.

Lemma covers_flat_map {A : Type} (f : A -> list interval) l t :
  covers (flat_map f l) t <-> exists x, In x l /\ covers (f x) t.
Proof.
  unfold covers; split.
  - intros (iv & Hin & Hiv). apply in_flat_map in Hin.
    destruct Hin as (x & Hx & Hin). eauto.
  - intros (x & Hx & iv & Hin & Hiv). exists iv. split; [|exact Hiv].
    apply in_flat_map. eauto.
Qed.

(** What one event contributes to the day: its instants inside the window. *)
Lemma covers_clip_event day tz ev t :
  covers (clip_event day tz ev) t <-> event_inside ev t /\ in_window day tz t.
Proof.
  unfold clip_event, dt_ltb, event_inside, in_window.
  rewrite !instant_astimezone.
  destruct (Z.ltb_spec (instant (work_start day tz)) (instant (end_ ev)));
    destruct (Z.ltb_spec (instant (begin ev)) (instant (work_end day tz))); simpl.
  - rewrite covers_one. unfold inside, istart, iend; simpl.
    rewrite instant_dt_max, instant_dt_min, !instant_astimezone. lia.
  - pose proof (covers_nil t). split; [tauto|lia].
  - pose proof (covers_nil t). split; [tauto|lia].
  - pose proof (covers_nil t). split; [tauto|lia].
Qed.

Lemma work_start_before_end day tz :
  instant (work_start day tz) < instant (work_end day tz).
Proof. unfold work_start, work_end, combine, instant; simpl. lia. Qed.

Lemma clip_event_within day tz ev :
  instant (begin ev) <= instant (end_ ev) ->
  Forall (within (instant (work_start day tz)) (instant (work_end day tz)))
         (clip_event day tz ev).
Proof.
  intros Hev. unfold clip_event, dt_ltb. rewrite !instant_astimezone.
  pose proof (work_start_before_end day tz).
  destruct (Z.ltb_spec (instant (work_start day tz)) (instant (end_ ev)));
    destruct (Z.ltb_spec (instant (begin ev)) (instant (work_end day tz)));
    simpl; repeat constructor;
    unfold istart, iend; simpl;
    rewrite ?instant_dt_max, ?instant_dt_min, ?instant_astimezone; lia.
Qed.

Lemma clip_event_nonempty day tz ev :
  instant (begin ev) < instant (end_ ev) -> Forall nonempty (clip_event day tz ev).
Proof.
  intros Hev. unfold clip_event, dt_ltb. rewrite !instant_astimezone.
  pose proof (work_start_before_end day tz).
  destruct (Z.ltb_spec (instant (work_start day tz)) (instant (end_ ev)));
    destruct (Z.ltb_spec (instant (begin ev)) (instant (work_end day tz)));
    simpl; repeat constructor.
  unfold nonempty, istart, iend; simpl.
  rewrite instant_dt_max, instant_dt_min, !instant_astimezone. lia.
Qed.

Lemma day_events_within day tz events :
  Forall (fun ev => instant (begin ev) <= instant (end_ ev)) events ->
  Forall (within (instant (work_start day tz)) (instant (work_end day tz)))
         (flat_map (clip_event day tz) events).
Proof.
  induction 1 as [|ev events Hev _ IH]; simpl; [constructor|].
  apply Forall_app. split; [now apply clip_event_within|exact IH].
Qed.

Lemma day_events_nonempty day tz events :
  Forall (fun ev => instant (begin ev) < instant (end_ ev)) events ->
  Forall nonempty (flat_map (clip_event day tz) events).
Proof.
  induction 1 as [|ev events Hev _ IH]; simpl; [constructor|].
  apply Forall_app. split; [now apply clip_event_nonempty|exact IH].
Qed.

(** The busy list is a chain of intervals inside the working window that
    covers exactly the clipped events. *)
Lemma events_for_day_chain events day tz :
  Forall (fun ev => instant (begin ev) <= instant (end_ ev)) events ->
  Forall (within (instant (work_start day tz)) (instant (work_end day tz)))
         (events_for_day events day tz) /\
  chain (events_for_day events day tz) /\
  forall t, covers (events_for_day events day tz) t <->
            exists ev, In ev events /\ event_inside ev t /\ in_window day tz t.
Proof.
  intros Hev. unfold events_for_day. cbv zeta.
  set (day_events := flat_map (clip_event day tz) events).
  match goal with |- context [fold_left merge_step ?s []] => set (sorted := s) end.
  destruct (merge_loop_invariant (instant (work_start day tz))
              (instant (work_end day tz)) sorted []) as (H1 & H2 & H3).
  - constructor.
  - constructor.
  - apply Forall_stable_sort. now apply day_events_within.
  - apply (stable_sort_sorted (fun iv : interval => instant (fst iv))).
  - intros a b [].
  - split; [exact H1|]. split; [exact H2|]. intros t. rewrite H3.
    assert (Hs : covers sorted t <-> covers day_events t).
    { apply covers_same_elements. intros iv. apply In_stable_sort. }
    rewrite Hs. unfold day_events. rewrite covers_flat_map.
    pose proof (covers_nil t) as Hnil.
    split.
    + intros [Hc|(ev & Hin & Hc)]; [tauto|].
      exists ev. split; [exact Hin|]. now apply covers_clip_event.
    + intros (ev & Hin & Hc). right. exists ev. split; [exact Hin|].
      now apply covers_clip_event.
Qed.

Lemma events_for_day_nonempty events day tz :
  Forall (fun ev => instant (begin ev) < instant (end_ ev)) events ->
  Forall nonempty (events_for_day events day tz).
Proof.
  intros Hev. unfold events_for_day. cbv zeta.
  apply merge_loop_nonempty; [constructor|].
  apply Forall_stable_sort. now apply day_events_nonempty.
Qed.

Lemma strict_events_weak events :
  Forall (fun ev => instant (begin ev) < instant (end_ ev)) events ->
  Forall (fun ev => instant (begin ev) <= instant (end_ ev)) events.
Proof. apply Forall_impl. intros; lia. Qed.

(** C1.  For a pool of events that each begin before they end, any date and
    any zone, the busy list of [events_for_day] is sorted by start instant,
    its intervals are non-empty and pairwise disjoint, and an instant lies
    in one of them exactly when it lies in some event and in the working
    window [09:00, 17:00) of that date. *)
Theorem events_for_day_merge_correct events day tz :
  Forall (fun ev => instant (begin ev) < instant (end_ ev)) events ->
  let merged := events_for_day events day tz in
  sorted_by_start merged /\
  pairwise_disjoint merged /\
  Forall nonempty merged /\
  forall t, covers merged t <->
            exists ev, In ev events /\ event_inside ev t /\ in_window day tz t.
Proof.
  intros Hev merged.
  destruct (events_for_day_chain events day tz (strict_events_weak _ Hev))
    as (Hin & Hch & Hcov).
  split; [apply chain_sorted_by_start; [now apply within_proper in Hin|exact Hch]|].
  split; [now apply chain_pairwise_disjoint|].
  split; [now apply events_for_day_nonempty|exact Hcov].
Qed.

(** *** Free intervals *)

Lemma gaps_then_tail hi d rest :
  forall a,
    gaps (a :: rest) ++
      (let last_end := snd (last (a :: rest) d) in
       if dt_ltb last_end hi then [(last_end, hi)] else [])
    = free_between (snd a) rest hi.
Proof.
  induction rest as [|b rest IH]; intros a.
  - reflexivity.
  - change (gaps (a :: b :: rest))
      with ((if dt_ltb (snd a) (fst b) then [(snd a, fst b)] else [])
            ++ gaps (b :: rest)).
    change (last (a :: b :: rest) d) with (last (b :: rest) d).
    rewrite <- app_assoc, IH. reflexivity.
Qed.

(** Without the "today" clipping the free list is the complement of the
    busy list inside the working window. *)
Lemma free_intervals_unclipped events day tz :
  free_intervals_for_day events day tz None =
  free_between (work_start day tz) (events_for_day events day tz) (work_end day tz).
Proof.
  unfold free_intervals_for_day. cbv zeta.
  destruct (events_for_day events day tz) as [|first rest].
  - simpl. unfold dt_ltb.
    pose proof (work_start_before_end day tz).
    destruct (Z.ltb_spec (instant (work_start day tz)) (instant (work_end day tz)));
      [reflexivity|lia].
  - rewrite gaps_then_tail. reflexivity.
Qed.

Lemma wchain_pairwise_disjoint l : wchain l -> pairwise_disjoint l.
Proof.
  unfold wchain, pairwise_disjoint. induction 1 as [|a l Hs IH Ha].
  - constructor.
  - constructor; [|exact IH].
    revert Ha. apply Forall_impl. intros b Hab u. unfold inside in *. lia.
Qed.

Lemma pairwise_disjoint_app l1 l2 :
  pairwise_disjoint l1 -> pairwise_disjoint l2 ->
  (forall a b, In a l1 -> In b l2 -> disjoint a b) ->
  pairwise_disjoint (l1 ++ l2).
Proof.
  unfold pairwise_disjoint. induction 1 as [|a l1 Ha H1 IH]; intros H2 Hx; simpl.
  - exact H2.
  - constructor.
    + apply Forall_app. split; [exact Ha|].
      apply Forall_forall. intros b Hb. apply Hx; [now left|exact Hb].
    + apply IH; [exact H2|]. intros x y Hx' Hy. apply Hx; [now right|exact Hy].
Qed.

Lemma within_weaken lo lo' hi l :
  lo <= lo' -> Forall (within lo' hi) l -> Forall (within lo hi) l.
Proof. intros Hlo. apply Forall_impl. unfold within. intros; lia. Qed.

Lemma free_between_complement hi busy :
  forall lo,
    chain busy ->
    Forall (within (instant lo) (instant hi)) busy ->
    instant lo <= instant hi ->
    Forall (within (instant lo) (instant hi)) (free_between lo busy hi) /\
    Forall nonempty (free_between lo busy hi) /\
    wchain (free_between lo busy hi) /\
    (forall t, covers (free_between lo busy hi) t ->
               instant lo <= t < instant hi /\ ~ covers busy t) /\
    (forall t, instant lo <= t < instant hi ->
               covers (free_between lo busy hi) t \/ covers busy t).
Proof.
  induction busy as [|[s e] busy IH]; intros lo Hch Hin Hlo; simpl.
  - unfold dt_ltb. destruct (Z.ltb_spec (instant lo) (instant hi)) as [Hlt|Hge].
    + split; [|split; [|split; [|split]]].
      * repeat constructor; unfold istart, iend; simpl; lia.
      * now repeat constructor.
      * repeat constructor.
      * intros t Ht. apply covers_one in Ht. split; [exact Ht|apply covers_nil].
      * intros t Ht. left. now apply covers_one.
    + split; [|split; [|split; [|split]]].
      * constructor.
      * constructor.
      * constructor.
      * intros t Ht. now apply covers_nil in Ht.
      * intros t Ht. lia.
  - inversion Hch as [|? ? Hch' Hsep]; subst.
    inversion Hin as [|? ? Hse Hin']; subst.
    unfold within, istart, iend in Hse; simpl in Hse.
    assert (Hrest : Forall (within (instant e) (instant hi)) busy).
    { rewrite Forall_forall in Hsep, Hin' |- *. intros b Hb.
      specialize (Hsep b Hb). specialize (Hin' b Hb).
      unfold separated, within, iend in *; simpl in *. lia. }
    destruct (IH e Hch' Hrest) as (F1 & F2 & F3 & F4 & F5); [lia|].
    assert (Hstarts : forall b t, In b busy -> inside b t -> instant e < t).
    { intros b t Hb Ht. rewrite Forall_forall in Hsep. specialize (Hsep b Hb).
      unfold separated, inside, iend in *; simpl in *. lia. }
    split; [|split; [|split; [|split]]].
    + apply Forall_app. split.
      * unfold dt_ltb. destruct (Z.ltb_spec (instant lo) (instant s));
          repeat constructor; unfold istart, iend; simpl; lia.
      * apply (within_weaken _ (instant e)); [lia|exact F1].
    + apply Forall_app. split; [|exact F2].
      unfold dt_ltb. destruct (Z.ltb_spec (instant lo) (instant s));
        repeat constructor. unfold nonempty, istart, iend; simpl; lia.
    + unfold dt_ltb. destruct (Z.ltb_spec (instant lo) (instant s)); simpl;
        [|exact F3].
      constructor; [exact F3|].
      revert F1. apply Forall_impl. intros b. unfold within, istart, iend; simpl. lia.
    + intros t Ht. apply covers_app in Ht. destruct Ht as [Ht|Ht].
      * assert (Hgap : instant lo <= t < instant s).
        { unfold dt_ltb in Ht. destruct (Z.ltb_spec (instant lo) (instant s)).
          - now apply covers_one in Ht.
          - now apply covers_nil in Ht. }
        split; [lia|]. rewrite covers_cons. intros [Ha|(b & Hb & Hbt)].
        -- unfold inside, istart in Ha; simpl in Ha. lia.
        -- specialize (Hstarts b t Hb Hbt). lia.
      * destruct (F4 t Ht) as [Hr Hn]. split; [lia|].
        rewrite covers_cons. intros [Ha|Hb]; [|tauto].
        unfold inside, iend in Ha; simpl in Ha. lia.
    + intros t Ht. rewrite covers_app, covers_cons.
      destruct (Z.lt_ge_cases t (instant s)) as [Hts|Hts].
      * left; left. unfold dt_ltb.
        destruct (Z.ltb_spec (instant lo) (instant s)); [|lia].
        apply covers_one. unfold inside, istart, iend; simpl. lia.
      * destruct (Z.lt_ge_cases t (instant e)) as [Hte|Hte].
        -- right; left. unfold inside, istart, iend; simpl. lia.
        -- destruct (F5 t) as [Hf|Hb]; [lia|tauto|tauto].
Qed.

(** C2.  With no current instant supplied, the free intervals of
    [free_intervals_for_day] and the busy intervals of [events_for_day]
    are pairwise disjoint, no instant is both free and busy, and the
    instants that are free or busy are exactly those of the working window
    [09:00, 17:00) of the date.  Events are those a calendar can hold: none
    ends before it begins. *)
Theorem free_busy_complement events day tz :
  Forall (fun ev => instant (begin ev) <= instant (end_ ev)) events ->
  let busy := events_for_day events day tz in
  let free := free_intervals_for_day events day tz None in
  pairwise_disjoint (free ++ busy) /\
  (forall t, ~ (covers free t /\ covers busy t)) /\
  (forall t, in_window day tz t <-> covers free t \/ covers busy t).
Proof.
  intros Hev busy free.
  destruct (events_for_day_chain events day tz Hev) as (Hin & Hch & Hcov).
  fold busy in Hin, Hch, Hcov.
  pose proof (work_start_before_end day tz) as Hw.
  unfold free. rewrite free_intervals_unclipped. fold busy.
  destruct (free_between_complement (work_end day tz) busy (work_start day tz))
    as (F1 & F2 & F3 & F4 & F5); [exact Hch|exact Hin|lia|].
  split; [|split].
  - apply pairwise_disjoint_app.
    + now apply wchain_pairwise_disjoint.
    + now apply chain_pairwise_disjoint.
    + intros a b Ha Hb t [Hat Hbt].
      destruct (F4 t) as [_ Hn]; [now exists a|]. apply Hn. now exists b.
  - intros t [Hf Hb]. destruct (F4 t Hf) as [_ Hn]. tauto.
  - intros t. unfold in_window. split.
    + apply F5.
    + intros [Hf|Hb].
      * now destruct (F4 t Hf).
      * apply Hcov in Hb. destruct Hb as (ev & _ & _ & Hwin). exact Hwin.
Qed.

(** *** Events that only touch the window *)

Lemma clip_event_touching day tz ev :
  instant (end_ ev) = instant (work_start day tz) \/
  instant (begin ev) = instant (work_end day tz) ->
  clip_event day tz ev = [].
Proof.
  intros H. unfold clip_event, dt_ltb. rewrite !instant_astimezone.
  destruct (Z.ltb_spec (instant (work_start day tz)) (instant (end_ ev)));
    destruct (Z.ltb_spec (instant (begin ev)) (instant (work_end day tz)));
    simpl; try reflexivity.
  lia.
Qed.

(** C9.  An event whose end is the 09:00 instant of the date, or whose
    start is the 17:00 instant, leaves the busy list as it is without the
    event, wherever the event stands in the pool; so the free list is the
    same too, and with that event alone the whole window is free. *)
Theorem touching_event_contributes_nothing before ev after day tz current_dt :
  instant (end_ ev) = instant (work_start day tz) \/
  instant (begin ev) = instant (work_end day tz) ->
  events_for_day (before ++ ev :: after) day tz =
    events_for_day (before ++ after) day tz /\
  free_intervals_for_day (before ++ ev :: after) day tz current_dt =
    free_intervals_for_day (before ++ after) day tz current_dt /\
  events_for_day [ev] day tz = [] /\
  free_intervals_for_day [ev] day tz None = [(work_start day tz, work_end day tz)].
Proof.
  intros Htouch.
  assert (Hbusy : forall l1 l2, events_for_day (l1 ++ ev :: l2) day tz =
                                events_for_day (l1 ++ l2) day tz).
  { intros l1 l2. unfold events_for_day.
    rewrite !flat_map_app. simpl. now rewrite clip_event_touching. }
  split; [apply Hbusy|].
  split; [unfold free_intervals_for_day; now rewrite Hbusy|].
  pose proof (Hbusy [] []) as Halone. simpl in Halone.
  split; [exact Halone|].
  unfold free_intervals_for_day. now rewrite Halone.
Qed.

(** *** Where the ends of busy and free intervals lie *)

Section Endpoints.
Variable P : datetime -> Prop.
Hypothesis P_max : forall a b, P a -> P b -> P (dt_max a b).

Lemma merge_step_endpoints acc iv :
  endpoints P acc -> P (fst iv) /\ P (snd iv) -> endpoints P (merge_step acc iv).
Proof.
  unfold endpoints. intros Hacc Hiv. destruct iv as [cs ce].
  destruct (snoc_cases acc) as [->|(acc' & [ls le] & ->)].
  - rewrite merge_step_nil. now repeat constructor.
  - rewrite merge_step_snoc. apply Forall_app in Hacc. destruct Hacc as [Ha Hl].
    inversion Hl as [|? ? [Hls Hle] _]; subst. cbn [fst snd] in *.
    destruct (dt_leb cs le).
    + apply Forall_app. split; [exact Ha|]. repeat constructor; cbn [fst snd].
      * exact Hls.
      * apply P_max; tauto.
    + apply Forall_app. split; [|now repeat constructor].
      apply Forall_app. split; [exact Ha|now repeat constructor].
Qed.

Lemma merge_loop_endpoints rest :
  forall acc, endpoints P acc -> endpoints P rest ->
              endpoints P (fold_left merge_step rest acc).
Proof.
  induction rest as [|iv rest IH]; intros acc Hacc Hrest; simpl; [exact Hacc|].
  inversion Hrest; subst. apply IH; [now apply merge_step_endpoints|assumption].
Qed.

Lemma gaps_endpoints busy : endpoints P busy -> endpoints P (gaps busy).
Proof.
  unfold endpoints. induction busy as [|a busy IH]; intros H; [constructor|].
  destruct busy as [|b busy]; [constructor|].
  inversion H as [|? ? [_ Ha] H']; subst. inversion H' as [|? ? [Hb _] _]; subst.
  change (gaps (a :: b :: busy))
    with ((if dt_ltb (snd a) (fst b) then [(snd a, fst b)] else [])
          ++ gaps (b :: busy)).
  apply Forall_app. split; [|now apply IH].
  destruct (dt_ltb (snd a) (fst b)); now repeat constructor.
Qed.

Lemma last_endpoint busy first :
  endpoints P (first :: busy) -> P (snd (last (first :: busy) first)).
Proof.
  unfold endpoints. intros H. rewrite Forall_forall in H.
  apply H. destruct (@exists_last _ (first :: busy)) as (l' & x & E); [discriminate|].
  rewrite E, last_last. rewrite <- E. rewrite E. apply in_or_app. right. now left.
Qed.
End Endpoints.

Lemma in_working_day_max day tz a b :
  in_working_day day tz a -> in_working_day day tz b ->
  in_working_day day tz (dt_max a b).
Proof.
  unfold in_working_day. intros [Ha1 Ha2] [Hb1 Hb2].
  split; [now apply utcoffset_dt_max|]. rewrite instant_dt_max. lia.
Qed.

Lemma work_bounds_in_working_day day tz :
  in_working_day day tz (work_start day tz) /\ in_working_day day tz (work_end day tz).
Proof.
  pose proof (work_start_before_end day tz). unfold in_working_day.
  repeat split; try reflexivity; lia.
Qed.

Lemma clip_event_endpoints day tz ev :
  endpoints (in_working_day day tz) (clip_event day tz ev).
Proof.
  unfold endpoints, clip_event, dt_ltb. rewrite !instant_astimezone.
  pose proof (work_start_before_end day tz).
  destruct (Z.ltb_spec (instant (work_start day tz)) (instant (end_ ev)));
    destruct (Z.ltb_spec (instant (begin ev)) (instant (work_end day tz)));
    simpl; repeat constructor; cbn [fst snd];
    try (apply utcoffset_dt_max; reflexivity);
    try (apply utcoffset_dt_min; reflexivity);
    rewrite ?instant_dt_max, ?instant_dt_min, ?instant_astimezone; lia.
Qed.

Lemma events_for_day_endpoints events day tz :
  endpoints (in_working_day day tz) (events_for_day events day tz).
Proof.
  unfold events_for_day. cbv zeta.
  apply merge_loop_endpoints.
  - apply in_working_day_max.
  - constructor.
  - apply Forall_stable_sort. unfold endpoints.
    induction events as [|ev events IH]; simpl; [constructor|].
    apply Forall_app. split; [apply clip_event_endpoints|exact IH].
Qed.

Lemma clip_to_now_endpoints day tz now free :
  utcoffset now = tz ->
  endpoints (in_working_day day tz) free ->
  endpoints (in_working_day day tz) (flat_map (clip_to_now now) free).
Proof.
  intros Hnow Hfree. unfold endpoints in *.
  apply Forall_forall. intros iv Hiv. apply in_flat_map in Hiv.
  destruct Hiv as ([s e] & Hin & Hiv).
  rewrite Forall_forall in Hfree. destruct (Hfree _ Hin) as [Hs He].
  cbn [fst snd] in Hs, He. unfold clip_to_now in Hiv.
  destruct (dt_ltb s now) eqn:Hlt.
  - destruct (dt_ltb (dt_max s now) e) eqn:Hfit; [|destruct Hiv].
    destruct Hiv as [<-|[]]. cbn [fst snd]. split; [|exact He].
    unfold dt_ltb in Hlt, Hfit. apply Z.ltb_lt in Hlt, Hfit.
    rewrite instant_dt_max in Hfit. unfold in_working_day in *.
    split; [apply utcoffset_dt_max; tauto|]. rewrite instant_dt_max. lia.
  - destruct (dt_ltb s e); [|destruct Hiv].
    destruct Hiv as [<-|[]]. cbn [fst snd]. tauto.
Qed.

(** The free intervals of a day, clipped to "now" or not, begin and end
    inside the working day, in the zone they were computed for. *)
Lemma free_intervals_endpoints events day tz current_dt :
  match current_dt with Some now => utcoffset now = tz | None => True end ->
  endpoints (in_working_day day tz) (free_intervals_for_day events day tz current_dt).
Proof.
  intros Hnow. unfold free_intervals_for_day. cbv zeta.
  destruct (work_bounds_in_working_day day tz) as [Hws Hwe].
  pose proof (events_for_day_endpoints events day tz) as Hbusy.
  assert (Hfree : endpoints (in_working_day day tz)
            match events_for_day events day tz with
            | [] => [(work_start day tz, work_end day tz)]
            | first :: _ =>
                (if dt_ltb (work_start day tz) (fst first)
                 then [(work_start day tz, fst first)] else [])
                ++ gaps (events_for_day events day tz)
                ++ (if dt_ltb (snd (last (events_for_day events day tz) first))
                              (work_end day tz)
                    then [(snd (last (events_for_day events day tz) first),
                           work_end day tz)] else [])
            end).
  { destruct (events_for_day events day tz) as [|first rest] eqn:Eb.
    - constructor; [split; assumption|constructor].
    - assert (Hfirst : in_working_day day tz (fst first))
        by (inversion Hbusy as [|? ? [Hf _] _]; exact Hf).
      pose proof (last_endpoint _ rest first Hbusy) as Hlast.
      unfold endpoints. apply Forall_app. split; [|apply Forall_app; split].
      + destruct (dt_ltb _ _); constructor; [split; assumption|constructor].
      + now apply gaps_endpoints.
      + destruct (dt_ltb _ _); constructor; [split; assumption|constructor]. }
  destruct current_dt as [now|]; [|exact Hfree].
  destruct (day =? date_of now); [|exact Hfree].
  now apply clip_to_now_endpoints.
Qed.

End Resolver.

(** ** The slot ranking engine *)

Module Ranking.
Import Py scheduler2 Spec PyFacts Resolver.


(** What a kept candidate is made of. *)
Lemma candidate_from_interval_inv iv meeting_td c :
  candidate_from_interval iv meeting_td = Some c ->
  let centered := centered_start iv meeting_td in
  let m := minute centered in
  let r := (m / 5) * 5 + (if 5 <=? 2 * (m mod 5) then 5 else 0) in
  cand_start c =
    (if 60 <=? r then replace_minute (dt_add centered (td_hours 1)) 0
     else replace_minute centered r) /\
  cand_end c = dt_add (cand_start c) meeting_td /\
  instant (fst iv) <= instant (cand_start c) /\
  instant (cand_end c) <= instant (snd iv) /\
  meeting_td <= dt_sub (snd iv) (fst iv).
Proof.
  destruct iv as [start end']. unfold candidate_from_interval, centered_start.
  cbn [fst snd]. cbv zeta.
  set (slack := dt_sub end' start - meeting_td).
  set (centered := dt_add start (td_div slack 2)).
  destruct (Z.ltb_spec (dt_sub end' start) meeting_td) as [|Hfit]; [discriminate|].
  destruct (5 <=? 2 * (minute centered mod 5)) eqn:Hup.
  - destruct (60 <=? minute centered / 5 * 5 + 5) eqn:Hroll.
    + destruct (dt_ltb _ start || dt_ltb end' _) eqn:Hout; [discriminate|].
      intros [= <-]. apply orb_false_elim in Hout. destruct Hout as [H1 H2].
      unfold dt_ltb in H1, H2. apply Z.ltb_ge in H1, H2.
      unfold cand_start, cand_end. cbn [fst snd]. auto.
    + destruct (dt_ltb _ start || dt_ltb end' _) eqn:Hout; [discriminate|].
      intros [= <-]. apply orb_false_elim in Hout. destruct Hout as [H1 H2].
      unfold dt_ltb in H1, H2. apply Z.ltb_ge in H1, H2.
      unfold cand_start, cand_end. cbn [fst snd]. auto.
  - rewrite Z.add_0_r.
    destruct (60 <=? minute centered / 5 * 5) eqn:Hroll.
    + destruct (dt_ltb _ start || dt_ltb end' _) eqn:Hout; [discriminate|].
      intros [= <-]. apply orb_false_elim in Hout. destruct Hout as [H1 H2].
      unfold dt_ltb in H1, H2. apply Z.ltb_ge in H1, H2.
      unfold cand_start, cand_end. cbn [fst snd]. auto.
    + destruct (dt_ltb _ start || dt_ltb end' _) eqn:Hout; [discriminate|].
      intros [= <-]. apply orb_false_elim in Hout. destruct Hout as [H1 H2].
      unfold dt_ltb in H1, H2. apply Z.ltb_ge in H1, H2.
      unfold cand_start, cand_end. cbn [fst snd]. auto.
Qed.

Lemma dt_sub_dt_add d td : dt_sub (dt_add d td) d = td.
Proof. unfold dt_sub, dt_add, instant; simpl. lia. Qed.

Lemma In_slice_to {A : Type} (x : A) k l : In x (slice_to k l) -> In x l.
Proof.
  unfold slice_to. intros H.
  rewrite <- (firstn_skipn (Z.to_nat (if k <? 0 then k + Z.of_nat (List.length l) else k)) l).
  apply in_or_app. now left.
Qed.

(** Every ranked candidate was produced by [candidate_from_interval] from
    a free interval of a scheduling day. *)
Lemma best_slots_origin now week_now all_events minutes max_slots c :
  In c (best_slots now week_now all_events minutes max_slots) ->
  exists day iv,
    In day (get_scheduling_days week_now all_events now) /\
    In iv (free_intervals_for_day all_events day (utcoffset now)
             (if day =? date_of now then Some now else None)) /\
    candidate_from_interval iv (td_minutes minutes) = Some c.
Proof.
  unfold best_slots. intros H. apply In_slice_to in H.
  apply In_stable_sort in H. apply in_flat_map in H.
  destruct H as (day & Hday & H). unfold day_candidates in H.
  apply in_flat_map in H. destruct H as (iv & Hiv & H).
  exists day, iv. split; [exact Hday|]. split; [exact Hiv|].
  destruct (candidate_from_interval iv (td_minutes minutes)) as [c'|].
  - destruct H as [->|[]]. reflexivity.
  - destruct H.
Qed.

(** C3.  A candidate kept by [candidate_from_interval] spans exactly the
    requested duration, rounding included; and so does every candidate
    that [find_best_meeting_slots] formats into its returned slots. *)
Theorem duration_invariant :
  (forall iv meeting_td c,
      candidate_from_interval iv meeting_td = Some c ->
      dt_sub (cand_end c) (cand_start c) = meeting_td) /\
  (forall Calendar now week_now ics_contents minutes max_slots slots,
      find_best_meeting_slots Calendar now week_now ics_contents minutes max_slots
        = Ok slots ->
      exists chosen,
        slots = map slot_str chosen /\
        Forall (fun c => dt_sub (cand_end c) (cand_start c) = td_minutes minutes)
               chosen).
Proof.
  assert (Hone : forall iv meeting_td c,
             candidate_from_interval iv meeting_td = Some c ->
             dt_sub (cand_end c) (cand_start c) = meeting_td).
  { intros iv meeting_td c H.
    destruct (candidate_from_interval_inv iv meeting_td c H) as (_ & -> & _).
    apply dt_sub_dt_add. }
  split; [exact Hone|].
  intros Calendar now week_now ics_contents minutes max_slots slots.
  unfold find_best_meeting_slots, bind.
  destruct (load_all Calendar ics_contents []) as [e|all_events]; [discriminate|].
  intros [= <-].
  exists (best_slots now week_now all_events minutes max_slots).
  split; [reflexivity|].
  apply Forall_forall. intros c Hc.
  destruct (best_slots_origin _ _ _ _ _ _ Hc) as (day & iv & _ & _ & Hcand).
  now apply (Hone iv).
Qed.

(** *** Rounding *)

Lemma minute_range d : 0 <= minute d < 60.
Proof. unfold minute. apply Z.mod_pos_bound. lia. Qed.

Lemma nearest5_as_computed m :
  (m / 5) * 5 + (if 5 <=? 2 * (m mod 5) then 5 else 0) = nearest5 m.
Proof.
  unfold nearest5.
  destruct (Z.leb_spec 5 (2 * (m mod 5))); destruct (Z.leb_spec (m mod 5) 2);
    Z.div_mod_to_equations; lia.
Qed.

Lemma nearest5_range m : 0 <= m < 60 -> 0 <= nearest5 m <= 60 /\ nearest5 m mod 5 = 0.
Proof.
  intros Hm. unfold nearest5.
  destruct (Z.leb_spec (m mod 5) 2); Z.div_mod_to_equations; lia.
Qed.

(** The fields of a wall clock set to [r] minutes past the top of the hour
    of [w], for [r] up to 60. *)
Lemma fields_after_rounding w tz r :
  0 <= r <= 60 ->
  let d := mkdt (w - w mod US_PER_HOUR + r * US_PER_MINUTE) tz in
  minute d = r mod 60 /\ second d = 0 /\ microsecond d = 0 /\
  hour d = (hour (mkdt w tz) + r / 60) mod 24.
Proof.
  intros Hr d. unfold d, minute, second, microsecond, hour. cbn [wall].
  numerals.
  assert (Hq : w - w mod 3600000000 = 3600000000 * (w / 3600000000))
    by (Z.div_mod_to_equations; lia).
  rewrite Hq. set (q := w / 3600000000).
  assert (E1 : (3600000000 * q + r * 60000000) / 60000000 = 60 * q + r)
    by (Z.div_mod_to_equations; lia).
  assert (E2 : (3600000000 * q + r * 60000000) / 1000000 = 60 * (60 * q + r))
    by (Z.div_mod_to_equations; lia).
  assert (E3 : (3600000000 * q + r * 60000000) mod 1000000 = 0)
    by (Z.div_mod_to_equations; lia).
  assert (E4 : (3600000000 * q + r * 60000000) / 3600000000 = q + r / 60)
    by (Z.div_mod_to_equations; lia).
  rewrite E1, E2, E3, E4.
  split; [Z.div_mod_to_equations; lia|].
  split; [Z.div_mod_to_equations; lia|].
  split; [reflexivity|].
  now rewrite Z.add_mod_idemp_l by lia.
Qed.

(** The start of a kept candidate, as one wall-clock expression. *)
Lemma candidate_start_wall iv meeting_td c :
  candidate_from_interval iv meeting_td = Some c ->
  let centered := centered_start iv meeting_td in
  cand_start c =
  mkdt (wall centered - wall centered mod US_PER_HOUR
        + nearest5 (minute centered) * US_PER_MINUTE) (utcoffset centered).
Proof.
  intros H centered.
  destruct (candidate_from_interval_inv iv meeting_td c H) as (Hs & _).
  cbv zeta in Hs. fold centered in Hs. rewrite nearest5_as_computed in Hs.
  rewrite Hs. destruct (Z.leb_spec 60 (nearest5 (minute centered))) as [H60|H60].
  - unfold replace_minute, dt_add, td_hours. cbn [wall utcoffset]. f_equal.
    destruct (nearest5_range (minute centered) (minute_range centered)) as [Hr _].
    numerals. Z.div_mod_to_equations. lia.
  - reflexivity.
Qed.

(** C7, as the code has it.  The start of a kept candidate is the top of
    the centered start's hour plus the centered start's whole minute rounded
    to the nearest multiple of 5 (remainders 3 and 4 up, 0 to 2 down; the
    seconds of the centered start take no part), a rounded value of 60
    carrying into the next hour.  Its seconds and microseconds are zero and
    its minute is a multiple of 5. *)
Theorem rounding_on_whole_minutes iv meeting_td c :
  candidate_from_interval iv meeting_td = Some c ->
  let centered := centered_start iv meeting_td in
  let r := nearest5 (minute centered) in
  wall (cand_start c) = wall centered - wall centered mod US_PER_HOUR + r * US_PER_MINUTE /\
  utcoffset (cand_start c) = utcoffset centered /\
  minute (cand_start c) = r mod 60 /\
  minute (cand_start c) mod 5 = 0 /\
  second (cand_start c) = 0 /\
  microsecond (cand_start c) = 0 /\
  hour (cand_start c) = (hour centered + r / 60) mod 24.
Proof.
  intros H centered r.
  pose proof (candidate_start_wall iv meeting_td c H) as Hw.
  cbv zeta in Hw. fold centered in Hw. fold r in Hw.
  destruct (nearest5_range (minute centered) (minute_range centered)) as [Hr H5].
  fold r in Hr, H5.
  destruct (fields_after_rounding (wall centered) (utcoffset centered) r Hr)
    as (F1 & F2 & F3 & F4).
  rewrite Hw. cbn [wall utcoffset].
  split; [reflexivity|]. split; [reflexivity|].
  split; [exact F1|].
  split; [rewrite F1; Z.div_mod_to_equations; lia|].
  split; [exact F2|]. split; [exact F3|].
  rewrite F4. destruct centered; reflexivity.
Qed.

(** *** Week inference and day selection *)

Lemma In_range n x : In x (range n) <-> 0 <= x < n.
Proof.
  unfold range. rewrite in_map_iff. split.
  - intros (k & <- & Hk). apply in_seq in Hk. lia.
  - intros Hx. exists (Z.to_nat x). split; [lia|]. apply in_seq. lia.
Qed.

Lemma shifted_range_days a n :
  days_from_to (map (fun i => a + i) (range n)) a (a + n - 1).
Proof.
  split.
  - unfold range. rewrite map_map.
    generalize 0%nat as k. induction (Z.to_nat n) as [|m IH]; intros k; simpl.
    + constructor.
    + constructor; [apply IH|].
      apply Forall_forall. intros d Hd. apply in_map_iff in Hd.
      destruct Hd as (j & <- & Hj). apply in_seq in Hj. lia.
  - intros d. rewrite in_map_iff. split.
    + intros (i & <- & Hi). apply In_range in Hi. lia.
    + intros Hd. exists (d - a). split; [lia|]. apply In_range. lia.
Qed.

Lemma weekday_range d : 0 <= weekday d < 7.
Proof. unfold weekday. apply Z.mod_pos_bound. lia. Qed.

Lemma weekday_of_monday d : weekday (d - weekday d) = 0.
Proof. unfold weekday. Z.div_mod_to_equations. lia. Qed.

(** The fold computing the earliest date returns the least of the dates it
    ranges over, and one of them. *)
Lemma fold_min_least l :
  forall d0,
    (fold_left Z.min l d0 = d0 \/ In (fold_left Z.min l d0) l) /\
    fold_left Z.min l d0 <= d0 /\
    (forall x, In x l -> fold_left Z.min l d0 <= x).
Proof.
  induction l as [|y l IH]; intros d0; simpl.
  - split; [now left|]. split; [lia|]. intros x [].
  - destruct (IH (Z.min d0 y)) as (H1 & H2 & H3). split; [|split].
    + destruct H1 as [H1|H1]; [|now right; right].
      rewrite H1. destruct (Z.min_spec d0 y) as [[_ ->]|[_ ->]]; auto.
    + lia.
    + intros x [<-|Hx]; [lia|now apply H3].
Qed.

(** The inferred week runs from a Monday to the Friday four days later and
    holds the date it was inferred from: the earliest [begin] date of the
    pool, or the date of the clock when the pool is empty. *)
Lemma infer_working_week_spec week_now all_events :
  let monday := fst (infer_working_week week_now all_events) in
  let friday := snd (infer_working_week week_now all_events) in
  weekday monday = 0 /\ friday = monday + 4 /\
  exists anchor,
    monday <= anchor <= monday + 6 /\
    match all_events with
    | [] => anchor = date_of week_now
    | _ :: _ =>
        (exists ev, In ev all_events /\ anchor = date_of (begin ev)) /\
        (forall ev, In ev all_events -> anchor <= date_of (begin ev))
    end.
Proof.
  unfold infer_working_week. cbn [fst snd].
  destruct all_events as [|first others].
  - split; [apply weekday_of_monday|]. split; [reflexivity|].
    exists (date_of week_now). pose proof (weekday_range (date_of week_now)).
    split; [lia|reflexivity].
  - split; [apply weekday_of_monday|]. split; [reflexivity|].
    exists (min_event_date first others).
    pose proof (weekday_range (min_event_date first others)).
    split; [lia|]. unfold min_event_date.
    destruct (fold_min_least (map (fun ev => date_of (begin ev)) others)
                (date_of (begin first))) as (H1 & H2 & H3).
    split.
    + destruct H1 as [H1|H1].
      * exists first. split; [now left|exact H1].
      * apply in_map_iff in H1. destruct H1 as (ev & Hev & Hin).
        exists ev. split; [now right|now rewrite Hev].
    + intros ev [<-|Hin]; [exact H2|].
      apply H3. apply in_map_iff. now exists ev.
Qed.

(** C6.  The inferred week is a Monday with its Friday.  If the date of
    "now" lies in it, the scheduling days are the consecutive days from that
    date through the Friday; otherwise they are the five days Monday to
    Friday.  When "now" is the Thursday of the week, they are Thursday and
    Friday. *)
Theorem scheduling_days_rule week_now all_events current_dt :
  let monday := fst (infer_working_week week_now all_events) in
  let friday := snd (infer_working_week week_now all_events) in
  let today := date_of current_dt in
  let days := get_scheduling_days week_now all_events current_dt in
  weekday monday = 0 /\ friday = monday + 4 /\
  (monday <= today <= friday -> days_from_to days today friday) /\
  (~ (monday <= today <= friday) ->
     days = [monday; monday + 1; monday + 2; monday + 3; monday + 4] /\
     days_from_to days monday friday) /\
  (today = monday + 3 ->
     weekday today = 3 /\ days = [today; friday]).
Proof.
  intros monday friday today days.
  destruct (infer_working_week_spec week_now all_events) as (Hmon & Hfri & _).
  fold monday in Hmon, Hfri. fold friday in Hfri.
  split; [exact Hmon|]. split; [exact Hfri|].
  unfold days, get_scheduling_days.
  rewrite (surjective_pairing (infer_working_week week_now all_events)).
  fold monday friday today.
  split; [|split].
  - intros Hin.
    destruct (Z.leb_spec monday today); [|lia].
    destruct (Z.leb_spec today friday); [|lia]. simpl.
    pose proof (shifted_range_days today (friday - today + 1)) as Hd.
    now replace (today + (friday - today + 1) - 1) with friday in Hd by lia.
  - intros Hout.
    assert (Hb : (monday <=? today) && (today <=? friday) = false).
    { destruct (Z.leb_spec monday today); destruct (Z.leb_spec today friday);
        simpl; auto. lia. }
    rewrite Hb. split.
    + simpl. now rewrite Z.add_0_r.
    + pose proof (shifted_range_days monday 5) as Hd.
      now replace (monday + 5 - 1) with friday in Hd by lia.
  - intros Hthu.
    destruct (Z.leb_spec monday today); [|lia].
    destruct (Z.leb_spec today friday); [|lia]. simpl.
    replace (friday - today + 1) with 2 by lia. simpl.
    split.
    + unfold weekday in *. Z.div_mod_to_equations. lia.
    + f_equal; [lia|]. f_equal. lia.
Qed.

(** *** Candidates in closed form *)

(** [candidate_from_interval] with the rounding written as one wall-clock
    expression: the top of the centered hour plus the rounded minute. *)
Lemma candidate_from_interval_eq iv meeting_td :
  candidate_from_interval iv meeting_td =
  let centered := centered_start iv meeting_td in
  let slack := dt_sub (snd iv) (fst iv) - meeting_td in
  let start' :=
    mkdt (wall centered - wall centered mod US_PER_HOUR
          + nearest5 (minute centered) * US_PER_MINUTE) (utcoffset centered) in
  let end' := dt_add start' meeting_td in
  if dt_sub (snd iv) (fst iv) <? meeting_td then None
  else if dt_ltb start' (fst iv) || dt_ltb (snd iv) end' then None
       else Some ((total_seconds slack / 2)%Q, start', end').
Proof.
  destruct iv as [start end']. unfold candidate_from_interval, centered_start.
  cbn [fst snd]. cbv zeta.
  set (slack := dt_sub end' start - meeting_td).
  set (centered := dt_add start (td_div slack 2)).
  destruct (dt_sub end' start <? meeting_td); [reflexivity|].
  rewrite <- nearest5_as_computed.
  destruct (nearest5_range (minute centered) (minute_range centered)) as [Hr _].
  rewrite <- nearest5_as_computed in Hr.
  set (up := if 5 <=? 2 * (minute centered mod 5) then 5 else 0) in *.
  assert (Hup : (if 5 <=? 2 * (minute centered mod 5)
                 then minute centered / 5 * 5 + 5 else minute centered / 5 * 5)
                = minute centered / 5 * 5 + up).
  { unfold up. destruct (5 <=? 2 * (minute centered mod 5)); lia. }
  rewrite Hup. set (r := minute centered / 5 * 5 + up) in *.
  assert (Hw : (let '(rounded_minute, candidate_start) :=
                  if 60 <=? r then (0, dt_add centered (td_hours 1)) else (r, centered) in
                replace_minute candidate_start rounded_minute)
               = mkdt (wall centered - wall centered mod US_PER_HOUR + r * US_PER_MINUTE)
                      (utcoffset centered)).
  { destruct (Z.leb_spec 60 r) as [H60|H60].
    - unfold replace_minute, dt_add, td_hours. cbn [wall utcoffset]. f_equal.
      numerals. Z.div_mod_to_equations. lia.
    - reflexivity. }
  destruct (60 <=? r); cbv beta iota in Hw |- *; rewrite Hw; reflexivity.
Qed.

Lemma combine_fields day h mi tz :
  0 <= h < 24 -> 0 <= mi < 60 ->
  date_of (combine day h mi tz) = day /\
  hour (combine day h mi tz) = h /\
  minute (combine day h mi tz) = mi.
Proof.
  intros Hh Hm. unfold date_of, hour, minute, combine. cbn [wall]. numerals.
  repeat split; Z.div_mod_to_equations; lia.
Qed.

(** *** The engine on calendars without events *)

Lemma stable_sort_already_sorted {A : Type} (lt : A -> A -> bool) l :
  (forall a b, In a l -> In b l -> lt a b = false) -> stable_sort lt l = l.
Proof.
  induction l as [|x l IH]; intros H; simpl; [reflexivity|].
  rewrite IH by (intros a b Ha Hb; apply H; now right).
  destruct l as [|y l']; simpl; [reflexivity|].
  rewrite (H y x); [reflexivity|right; now left|now left].
Qed.

Lemma free_intervals_no_events day tz current_dt :
  match current_dt with
  | Some now => day = date_of now -> instant now <= instant (work_start day tz)
  | None => True
  end ->
  free_intervals_for_day [] day tz current_dt = [(work_start day tz, work_end day tz)].
Proof.
  unfold free_intervals_for_day. cbn [events_for_day flat_map stable_sort fold_right fold_left].
  cbv zeta. destruct current_dt as [now|]; [|reflexivity].
  intros Hnow. destruct (Z.eqb_spec day (date_of now)) as [Heq|]; [|reflexivity].
  specialize (Hnow Heq). pose proof (work_start_before_end day tz) as Hw.
  cbn [flat_map clip_to_now]. unfold dt_ltb.
  assert (H1 : (instant (work_start day tz) <? instant now) = false)
    by (apply Z.ltb_ge; lia).
  assert (H2 : (instant (work_start day tz) <? instant (work_end day tz)) = true)
    by (apply Z.ltb_lt; lia).
  rewrite H1, H2. reflexivity.
Qed.

(** The whole working window and a 30-minute meeting: 12:45 to 13:15. *)
Lemma whole_window_candidate day tz :
  candidate_from_interval (work_start day tz, work_end day tz) (td_minutes 30) =
  Some ((total_seconds (td_minutes 450) / 2)%Q, combine day 12 45 tz, combine day 13 15 tz).
Proof.
  rewrite candidate_from_interval_eq. cbn [fst snd]. cbv zeta.
  assert (Hlen : dt_sub (work_end day tz) (work_start day tz) = td_minutes 480).
  { unfold dt_sub, work_end, work_start, combine, instant, td_minutes. cbn [wall utcoffset].
    numerals. lia. }
  assert (Hc : centered_start (work_start day tz, work_end day tz) (td_minutes 30)
               = combine day 12 45 tz).
  { unfold centered_start. cbn [fst snd]. rewrite Hlen.
    change (td_div (td_minutes 480 - td_minutes 30) 2) with 13500000000.
    unfold dt_add, work_start, combine. cbn [wall utcoffset]. f_equal. numerals. lia. }
  rewrite Hc, Hlen.
  change (td_minutes 480 <? td_minutes 30) with false. cbv iota.
  destruct (combine_fields day 12 45 tz) as (_ & _ & ->); [lia|lia|].
  change (nearest5 45) with 45.
  assert (Hs : mkdt (wall (combine day 12 45 tz)
                     - wall (combine day 12 45 tz) mod US_PER_HOUR + 45 * US_PER_MINUTE)
                    (utcoffset (combine day 12 45 tz)) = combine day 12 45 tz).
  { unfold combine. cbn [wall utcoffset]. f_equal. numerals.
    Z.div_mod_to_equations. lia. }
  rewrite Hs.
  assert (He : dt_add (combine day 12 45 tz) (td_minutes 30) = combine day 13 15 tz).
  { unfold dt_add, combine, td_minutes. cbn [wall utcoffset]. f_equal. numerals. lia. }
  rewrite He.
  assert (H1 : dt_ltb (combine day 12 45 tz) (work_start day tz) = false).
  { unfold dt_ltb, work_start, combine, instant. cbn [wall utcoffset].
    apply Z.ltb_ge. numerals. lia. }
  assert (H2 : dt_ltb (work_end day tz) (combine day 13 15 tz) = false).
  { unfold dt_ltb, work_end, combine, instant. cbn [wall utcoffset].
    apply Z.ltb_ge. numerals. lia. }
  rewrite H1, H2. reflexivity.
Qed.

Lemma slot_str_combine sc day h1 m1 h2 m2 tz :
  0 <= h1 < 24 -> 0 <= m1 < 60 -> 0 <= h2 < 24 -> 0 <= m2 < 60 ->
  slot_str (sc, combine day h1 m1 tz, combine day h2 m2 tz) =
  (date_text day ++ ": " ++ fmt_hm h1 m1 ++ "-" ++ fmt_hm h2 m2)%string.
Proof.
  intros H1 H2 H3 H4. unfold slot_str, strftime_date, strftime_hm, cand_start, cand_end.
  cbn [fst snd].
  destruct (combine_fields day h1 m1 tz H1 H2) as (-> & -> & ->).
  destruct (combine_fields day h2 m2 tz H3 H4) as (_ & -> & ->).
  reflexivity.
Qed.

(** Candidates that all have one score keep their order in the ranking. *)
Lemma equal_scores_keep_order (l : list candidate) (s : Q) :
  Forall (fun c => score c = s) l ->
  stable_sort (fun a b => negb (Qle_bool (score a) (score b))) l = l.
Proof.
  intros H. apply stable_sort_already_sorted. intros a b Ha Hb.
  rewrite Forall_forall in H. rewrite (H a Ha), (H b Hb).
  apply negb_false_iff. apply Qle_bool_iff. apply Qle_refl.
Qed.

Lemma day_candidates_no_events now day :
  (day = date_of now -> instant now <= instant (work_start day (utcoffset now))) ->
  day_candidates [] (td_minutes 30) now day =
  [((total_seconds (td_minutes 450) / 2)%Q,
    combine day 12 45 (utcoffset now), combine day 13 15 (utcoffset now))].
Proof.
  intros Hnow. unfold day_candidates. cbv zeta.
  rewrite free_intervals_no_events.
  - cbn [flat_map]. now rewrite whole_window_candidate.
  - destruct (Z.eqb_spec day (date_of now)); [|exact I]. exact Hnow.
Qed.

(** C8, as the code has it.  Two calendars without events, a 30-minute
    meeting, "now" at 08:00 on a Monday: the engine returns one slot for
    each day of that week, Monday first, every one of them 12:45-13:15,
    the placement centered in [09:00, 17:00). *)
Theorem empty_calendars_monday_morning Calendar cal_a cal_b monday tz week_now :
  Calendar cal_a = Ok [] -> Calendar cal_b = Ok [] ->
  weekday monday = 0 ->
  date_of week_now = monday ->
  find_best_meeting_slots Calendar (combine monday 8 0 tz) week_now [cal_a; cal_b] 30 10
  = Ok (map (fun day => (date_text day ++ ": 12:45-13:15")%string)
            [monday; monday + 1; monday + 2; monday + 3; monday + 4]).
Proof.
  intros Ha Hb Hmon Hweek.
  unfold find_best_meeting_slots, load_all, load_calendar_from_content.
  rewrite Ha, Hb. cbn [bind Ok app]. unfold Ok. f_equal.
  set (now := combine monday 8 0 tz).
  destruct (combine_fields monday 8 0 tz) as (Htoday & _); [lia|lia|].
  fold now in Htoday.
  assert (Hdays : get_scheduling_days week_now [] now
                  = [monday; monday + 1; monday + 2; monday + 3; monday + 4]).
  { unfold get_scheduling_days, infer_working_week.
    rewrite Hweek, Hmon, Htoday, Z.sub_0_r.
    rewrite Z.leb_refl. destruct (Z.leb_spec monday (monday + 4)); [|lia].
    cbn [andb]. replace (monday + 4 - monday + 1) with 5 by lia.
    change (range 5) with [0; 1; 2; 3; 4]. cbn [map]. now rewrite Z.add_0_r. }
  unfold best_slots. cbv zeta. rewrite Hdays. cbn [flat_map].
  assert (Hearly : forall day, day = date_of now ->
                     instant now <= instant (work_start day (utcoffset now))).
  { intros day ->. rewrite Htoday.
    unfold now, work_start, combine, instant. cbn [wall utcoffset]. numerals. lia. }
  rewrite !day_candidates_no_events by (apply Hearly).
  rewrite (equal_scores_keep_order _ (total_seconds (td_minutes 450) / 2)%Q)
    by (repeat constructor).
  cbn [app]. unfold slice_to. cbn [Z.ltb Z.compare].
  change (Z.to_nat 10) with 10%nat. cbn [firstn map].
  rewrite !slot_str_combine by lia. reflexivity.
Qed.

(** *** The engine and the requested duration *)

Lemma load_all_ok Calendar ics_contents :
  (forall p, In p ics_contents -> exists events, Calendar p = Ok events) ->
  forall acc, exists all_events, load_all Calendar ics_contents acc = Ok all_events.
Proof.
  induction ics_contents as [|p rest IH]; intros Hok acc; simpl.
  - now exists acc.
  - destruct (Hok p) as (events & Hp); [now left|].
    unfold load_calendar_from_content. rewrite Hp. cbn [bind Ok].
    apply IH. intros q Hq. apply Hok. now right.
Qed.

Lemma load_all_error Calendar ics_contents :
  forall acc e,
    load_all Calendar ics_contents acc = Raise e ->
    exists p, In p ics_contents /\ Calendar p = Raise e.
Proof.
  induction ics_contents as [|p rest IH]; intros acc e; simpl.
  - discriminate.
  - unfold load_calendar_from_content, bind.
    destruct (Calendar p) as [e'|events] eqn:Hp.
    + intros [= ->]. exists p. split; [now left|exact Hp].
    + intros H. destruct (IH _ _ H) as (q & Hq & Hqe). exists q. split; [now right|exact Hqe].
Qed.

Lemma load_all_fails Calendar ics_contents :
  forall acc p e,
    In p ics_contents -> Calendar p = Raise e ->
    exists e', load_all Calendar ics_contents acc = Raise e'.
Proof.
  induction ics_contents as [|q rest IH]; intros acc p e Hin Hp; [destruct Hin|].
  simpl. unfold load_calendar_from_content, bind.
  destruct (Calendar q) as [e'|events] eqn:Hq.
  - now exists e'.
  - destruct Hin as [->|Hin].
    + unfold Raise in Hp. congruence.
    + now apply (IH _ p e).
Qed.

(** C5, as the code has it.  The engine does not look at the sign of the
    duration.  With a duration of zero or less the payloads are still read
    first: if one of them is rejected the call fails with a reader's error;
    if all are read the call returns its slots, and each of them ends
    [duration] after it starts, that is, no later than it starts. *)
Theorem nonpositive_duration_not_rejected
    Calendar now week_now ics_contents minutes max_slots :
  minutes <= 0 ->
  let outcome :=
    find_best_meeting_slots Calendar now week_now ics_contents minutes max_slots in
  ((exists p e, In p ics_contents /\ Calendar p = Raise e) ->
     exists p e, In p ics_contents /\ Calendar p = Raise e /\ outcome = Raise e) /\
  ((forall p, In p ics_contents -> exists events, Calendar p = Ok events) ->
     exists chosen,
       outcome = Ok (map slot_str chosen) /\
       Forall (fun c => dt_sub (cand_end c) (cand_start c) = td_minutes minutes /\
                        instant (cand_end c) <= instant (cand_start c)) chosen).
Proof.
  intros Hneg outcome. unfold outcome, find_best_meeting_slots. split.
  - intros (p & e & Hin & Hp).
    destruct (load_all_fails Calendar ics_contents [] p e Hin Hp) as (e' & He').
    destruct (load_all_error _ _ _ _ He') as (q & Hq & Hqe).
    exists q, e'. rewrite He'. auto.
  - intros Hok. destruct (load_all_ok Calendar ics_contents Hok []) as (all_events & ->).
    cbn [bind Ok].
    exists (best_slots now week_now all_events minutes max_slots).
    split; [reflexivity|]. apply Forall_forall. intros c Hc.
    destruct (best_slots_origin _ _ _ _ _ _ Hc) as (day & iv & _ & _ & Hcand).
    destruct (candidate_from_interval_inv _ _ _ Hcand) as (_ & He & _).
    rewrite He, dt_sub_dt_add. split; [reflexivity|].
    unfold dt_add, instant, td_minutes. cbn [wall utcoffset]. numerals. lia.
Qed.

End Ranking.

(** ** The calendar of datetime.py *)

Module Civil.
Import Py Spec.

Lemma is_leap_shift y k : is_leap (y + 400 * k) = is_leap y.
Proof.
  unfold is_leap.
  replace ((y + 400 * k) mod 4) with (y mod 4) by (Z.div_mod_to_equations; lia).
  replace ((y + 400 * k) mod 100) with (y mod 100) by (Z.div_mod_to_equations; lia).
  replace ((y + 400 * k) mod 400) with (y mod 400) by (Z.div_mod_to_equations; lia).
  reflexivity.
Qed.

Lemma days_before_year_shift y k :
  days_before_year (y + 400 * k) = days_before_year y + DI400Y * k.
Proof. unfold days_before_year, DI400Y. Z.div_mod_to_equations. lia. Qed.

Lemma ymd2ord_shift y m d k :
  ymd2ord (y + 400 * k) m d = ymd2ord y m d + DI400Y * k.
Proof.
  unfold ymd2ord, days_before_month.
  rewrite days_before_year_shift, is_leap_shift. lia.
Qed.

Lemma days_in_month_shift y m k : days_in_month (y + 400 * k) m = days_in_month y m.
Proof. unfold days_in_month. now rewrite is_leap_shift. Qed.

Lemma ord2ymd_shift n k :
  ord2ymd (n + DI400Y * k) =
  (fst (fst (ord2ymd n)) + 400 * k, snd (fst (ord2ymd n)), snd (ord2ymd n)).
Proof.
  unfold ord2ymd. cbv zeta.
  replace ((n + DI400Y * k - 1) / DI400Y) with ((n - 1) / DI400Y + k)
    by (unfold DI400Y; Z.div_mod_to_equations; lia).
  replace ((n + DI400Y * k - 1) mod DI400Y) with ((n - 1) mod DI400Y)
    by (unfold DI400Y; Z.div_mod_to_equations; lia).
  set (r := (n - 1) mod DI400Y).
  destruct ((r mod DI100Y mod DI4Y / 365 =? 4) || (r / DI100Y =? 4));
    [cbn [fst snd]; f_equal; f_equal; lia|].
  match goal with
  | |- context [if ?c then _ else _] => destruct c
  end; cbn [fst snd]; f_equal; f_equal; lia.
Qed.

Lemma civil_ok_from_spec count :
  forall n, civil_ok_from count n = true ->
            forall i, n <= i < n + Z.of_nat count -> civil_ok i = true.
Proof.
  induction count as [|k IH]; intros n H i Hi; [lia|].
  cbn [civil_ok_from] in H. apply andb_prop in H. destruct H as [H0 Hk].
  destruct (Z.eq_dec i n) as [->|Hne]; [exact H0|].
  apply (IH (n + 1) Hk). lia.
Qed.

(** One 400-year cycle, checked day by day. *)
Lemma civil_ok_first_cycle : civil_ok_from (Z.to_nat DI400Y) 1 = true.
Proof. vm_compute. reflexivity. Qed.

(** Every ordinal is a real date of the calendar, and converting the date
    back gives the ordinal. *)
Lemma ord2ymd_valid n :
  let y := fst (fst (ord2ymd n)) in
  let m := snd (fst (ord2ymd n)) in
  let d := snd (ord2ymd n) in
  ymd2ord y m d = n /\ 1 <= m <= 12 /\ 1 <= d <= days_in_month y m.
Proof.
  set (k := (n - 1) / DI400Y). set (r := (n - 1) mod DI400Y + 1).
  assert (Hn : n = r + DI400Y * k)
    by (unfold r, k, DI400Y; Z.div_mod_to_equations; lia).
  assert (Hr : 1 <= r < 1 + Z.of_nat (Z.to_nat DI400Y))
    by (unfold r, DI400Y; Z.div_mod_to_equations; lia).
  pose proof (civil_ok_from_spec _ _ civil_ok_first_cycle r Hr) as Hok.
  unfold civil_ok in Hok.
  rewrite Hn, ord2ymd_shift. cbn [fst snd].
  destruct (ord2ymd r) as [[y m] d]. cbn [fst snd].
  repeat (apply andb_prop in Hok; destruct Hok as [Hok ?]).
  rewrite ymd2ord_shift, days_in_month_shift. lia.
Qed.

End Civil.

(** ** Slot descriptors: writing and reading *)

Module Descriptor.
Import Py scheduler2 update_schedule_2 Spec PyFacts Resolver Ranking Civil.


Lemma digit_cases n :
  digit n = "0"%char \/ digit n = "1"%char \/ digit n = "2"%char \/
  digit n = "3"%char \/ digit n = "4"%char \/ digit n = "5"%char \/
  digit n = "6"%char \/ digit n = "7"%char \/ digit n = "8"%char \/
  digit n = "9"%char.
Proof.
  unfold digit. pose proof (Z.mod_pos_bound n 10 eq_refl) as H.
  assert (E : n mod 10 = 0 \/ n mod 10 = 1 \/ n mod 10 = 2 \/ n mod 10 = 3 \/
              n mod 10 = 4 \/ n mod 10 = 5 \/ n mod 10 = 6 \/ n mod 10 = 7 \/
              n mod 10 = 8 \/ n mod 10 = 9) by lia.
  repeat destruct E as [E|E]; rewrite E; tauto.
Qed.

Lemma digit_value_digit n : digit_value (digit n) = Some (n mod 10).
Proof.
  unfold digit. pose proof (Z.mod_pos_bound n 10 eq_refl) as H.
  assert (E : n mod 10 = 0 \/ n mod 10 = 1 \/ n mod 10 = 2 \/ n mod 10 = 3 \/
              n mod 10 = 4 \/ n mod 10 = 5 \/ n mod 10 = 6 \/ n mod 10 = 7 \/
              n mod 10 = 8 \/ n mod 10 = 9) by lia.
  repeat destruct E as [E|E]; rewrite E; reflexivity.
Qed.

Lemma colon_not_digit n : Ascii.eqb ":" (digit n) = false.
Proof. destruct (digit_cases n) as [E|E]; repeat destruct E as [E|E]; now rewrite E. Qed.

Lemma dash_not_digit n : Ascii.eqb "-" (digit n) = false.
Proof. destruct (digit_cases n) as [E|E]; repeat destruct E as [E|E]; now rewrite E. Qed.

Lemma number2_pad n :
  0 <= n < 100 -> number2 (digit (n / 10)) (digit n) = Some n.
Proof.
  intros Hn. unfold number2. rewrite !digit_value_digit. f_equal.
  Z.div_mod_to_equations. lia.
Qed.

Lemma number4_pad n :
  0 <= n < 10000 ->
  number4 (digit (n / 1000)) (digit (n / 100)) (digit (n / 10)) (digit n) = Some n.
Proof.
  intros Hn. unfold number4, number2. rewrite !digit_value_digit. f_equal.
  Z.div_mod_to_equations. lia.
Qed.

Lemma space_not_digit n : Ascii.eqb " " (digit n) = false.
Proof. destruct (digit_cases n) as [E|E]; repeat destruct E as [E|E]; now rewrite E. Qed.

Lemma append_empty_r s : (s ++ "")%string = s.
Proof. induction s as [|c s IH]; simpl; [reflexivity|now rewrite IH]. Qed.

Lemma append_assoc a b c : ((a ++ b) ++ c)%string = (a ++ (b ++ c))%string.
Proof. induction a as [|x a IH]; simpl; [reflexivity|now rewrite IH]. Qed.

Lemma has_char_app c a b : has_char c (a ++ b) = has_char c a || has_char c b.
Proof.
  induction a as [|x a IH]; simpl; [reflexivity|].
  rewrite IH. now rewrite orb_assoc.
Qed.

Lemma starts_with_app sep b : starts_with (sep ++ b) sep = true.
Proof.
  induction sep as [|c sep IH]; simpl; [reflexivity|].
  now rewrite Ascii.eqb_refl, IH.
Qed.

(** A text that starts with the separator holds every character of it. *)
Lemma starts_with_has_char c sep :
  forall s, starts_with s sep = true -> has_char c sep = true -> has_char c s = true.
Proof.
  induction sep as [|a sep IH]; intros s Hs Hc; simpl in *; [discriminate|].
  destruct s as [|b s]; [discriminate|].
  apply andb_prop in Hs. destruct Hs as [Hab Hs].
  apply Ascii.eqb_eq in Hab. subst b. simpl.
  apply orb_prop in Hc. destruct Hc as [Hc|Hc].
  - now rewrite Hc.
  - rewrite (IH s Hs Hc). apply orb_true_r.
Qed.

(** No cut in a text that lacks a character of the separator. *)
Lemma split_from_no_sep sep c :
  has_char c sep = true ->
  forall s cur, has_char c s = false -> split_from sep 0 cur s = [(cur ++ s)%string].
Proof.
  intros Hc. induction s as [|b s IH]; intros cur Hs; simpl.
  - now rewrite append_empty_r.
  - destruct (starts_with (String b s) sep) eqn:Hst.
    + pose proof (starts_with_has_char c sep _ Hst Hc) as Habs. congruence.
    + simpl in Hs. apply orb_false_elim in Hs. destruct Hs as [_ Hs].
      rewrite (IH _ Hs), append_assoc. reflexivity.
Qed.

Lemma split_from_skip sep p :
  forall cur b, split_from sep (String.length p) cur (p ++ b) = split_from sep 0 cur b.
Proof. induction p as [|x p IH]; intros cur b; simpl; [reflexivity|apply IH]. Qed.

(** The first cut falls after a piece that lacks the separator's first
    character. *)
Lemma split_from_first c0 sep' a :
  forall cur b,
    has_char c0 a = false ->
    split_from (String c0 sep') 0 cur (a ++ String c0 sep' ++ b)
    = (cur ++ a)%string :: split_from (String c0 sep') 0 "" b.
Proof.
  induction a as [|x a IH]; intros cur b Ha.
  - rewrite append_empty_r. cbn [append split_from].
    change (String c0 (sep' ++ b)) with (String c0 sep' ++ b)%string.
    rewrite starts_with_app. cbn [String.length Nat.sub].
    rewrite Nat.sub_0_r. now rewrite split_from_skip.
  - simpl in Ha. apply orb_false_elim in Ha. destruct Ha as [Hx Ha].
    change ((String x a ++ String c0 sep' ++ b)%string)
      with (String x (a ++ String c0 sep' ++ b)).
    cbn [split_from starts_with]. rewrite Hx. cbn [andb].
    rewrite (IH _ _ Ha), append_assoc. reflexivity.
Qed.

Lemma has_char_pad2 c n :
  (forall k, Ascii.eqb c (digit k) = false) -> has_char c (pad2 n) = false.
Proof. intros H. unfold pad2. cbn [has_char]. now rewrite !H. Qed.

Lemma has_char_pad4 c n :
  (forall k, Ascii.eqb c (digit k) = false) -> has_char c (pad4 n) = false.
Proof. intros H. unfold pad4, pad2. cbn [has_char]. now rewrite !H. Qed.

(** Splitting a descriptor at [": "] and its time range at ["-"]. *)
Lemma split_descriptor y m d h1 m1 h2 m2 :
  split (fmt_date y m d ++ ": " ++ fmt_hm h1 m1 ++ "-" ++ fmt_hm h2 m2) ": "
  = [fmt_date y m d; (fmt_hm h1 m1 ++ "-" ++ fmt_hm h2 m2)%string].
Proof.
  unfold split. rewrite (split_from_first ":" " " (fmt_date y m d)).
  - rewrite (split_from_no_sep ": " " "); [reflexivity|reflexivity|].
    unfold fmt_hm. rewrite !has_char_app.
    rewrite !has_char_pad2 by apply space_not_digit. reflexivity.
  - unfold fmt_date. rewrite !has_char_app.
    rewrite has_char_pad4, !has_char_pad2 by apply colon_not_digit. reflexivity.
Qed.

Lemma split_time_range h1 m1 h2 m2 :
  split (fmt_hm h1 m1 ++ "-" ++ fmt_hm h2 m2) "-" = [fmt_hm h1 m1; fmt_hm h2 m2].
Proof.
  unfold split. rewrite (split_from_first "-" "" (fmt_hm h1 m1)).
  - rewrite (split_from_no_sep "-" "-"); [reflexivity|reflexivity|].
    unfold fmt_hm. rewrite !has_char_app.
    rewrite !has_char_pad2 by apply dash_not_digit. reflexivity.
  - unfold fmt_hm. rewrite !has_char_app.
    rewrite !has_char_pad2 by apply dash_not_digit. reflexivity.
Qed.

(** [strptime] reads back what [strftime] writes, for fields that name a
    real date and time of day. *)
Lemma strptime_fmt y m d h mi :
  1 <= y <= 9999 -> 1 <= m <= 12 -> 1 <= d <= days_in_month y m ->
  0 <= h <= 23 -> 0 <= mi <= 59 ->
  strptime (fmt_date y m d ++ " " ++ fmt_hm h mi) = Ok (naive y m d h mi).
Proof.
  intros Hy Hm Hd Hh Hmi.
  assert (Hd31 : days_in_month y m <= 31).
  { unfold days_in_month, tbl.
    assert (E : m = 1 \/ m = 2 \/ m = 3 \/ m = 4 \/ m = 5 \/ m = 6 \/ m = 7 \/
                m = 8 \/ m = 9 \/ m = 10 \/ m = 11 \/ m = 12) by lia.
    repeat destruct E as [E|E]; subst m; destruct (is_leap y); cbv; congruence. }
  unfold strptime, fmt_date, fmt_hm, pad4, pad2.
  cbn [append list_ascii_of_string].
  change (Ascii.eqb "-" "-") with true. change (Ascii.eqb " " " ") with true.
  change (Ascii.eqb ":" ":") with true. cbn [andb].
  rewrite number4_pad by lia. rewrite !number2_pad by lia.
  destruct (Z.leb_spec 1 y); [|lia]. destruct (Z.leb_spec 1 m); [|lia].
  destruct (Z.leb_spec m 12); [|lia]. destruct (Z.leb_spec 1 d); [|lia].
  destruct (Z.leb_spec d (days_in_month y m)); [|lia].
  destruct (Z.leb_spec h 23); [|lia]. destruct (Z.leb_spec mi 59); [|lia].
  reflexivity.
Qed.

(** A well-formed descriptor parses into the wall clocks it names. *)
Lemma parse_descriptor SGT y m d h1 m1 h2 m2 :
  1 <= y <= 9999 -> 1 <= m <= 12 -> 1 <= d <= days_in_month y m ->
  0 <= h1 <= 23 -> 0 <= m1 <= 59 -> 0 <= h2 <= 23 -> 0 <= m2 <= 59 ->
  parse_selected_time SGT
    (fmt_date y m d ++ ": " ++ fmt_hm h1 m1 ++ "-" ++ fmt_hm h2 m2)
  = Ok (mkdt (naive y m d h1 m1) SGT, mkdt (naive y m d h2 m2) SGT).
Proof.
  intros Hy Hm Hd Hh1 Hm1 Hh2 Hm2. unfold parse_selected_time.
  rewrite split_descriptor, split_time_range.
  rewrite !strptime_fmt by assumption. reflexivity.
Qed.

(** C10.  A descriptor of the shape "YYYY-MM-DD: HH:MM-HH:MM" whose fields
    name a real date and two times of day is parsed into that start and that
    end, in the parser's zone, with no error, whatever the order of the two
    times: when the end time is the start time or earlier, the pair comes
    back with its end instant no later than its start instant. *)
Theorem parse_selected_time_no_ordering_check SGT y m d h1 m1 h2 m2 :
  1 <= y <= 9999 -> 1 <= m <= 12 -> 1 <= d <= days_in_month y m ->
  0 <= h1 <= 23 -> 0 <= m1 <= 59 -> 0 <= h2 <= 23 -> 0 <= m2 <= 59 ->
  parse_selected_time SGT
    (fmt_date y m d ++ ": " ++ fmt_hm h1 m1 ++ "-" ++ fmt_hm h2 m2)
  = Ok (mkdt (naive y m d h1 m1) SGT, mkdt (naive y m d h2 m2) SGT) /\
  (60 * h2 + m2 <= 60 * h1 + m1 ->
   instant (mkdt (naive y m d h2 m2) SGT) <= instant (mkdt (naive y m d h1 m1) SGT)).
Proof.
  intros Hy Hm Hd Hh1 Hm1 Hh2 Hm2. split.
  - now apply parse_descriptor.
  - intros Hle. unfold instant, naive. cbn [wall utcoffset]. numerals. lia.
Qed.

(** *** Formatting a candidate and parsing it back *)

(** A wall clock on a whole minute is its date, hour and minute. *)
Lemma wall_on_the_minute d :
  wall d mod US_PER_MINUTE = 0 ->
  wall d = date_of d * US_PER_DAY + hour d * US_PER_HOUR + minute d * US_PER_MINUTE /\
  0 <= hour d <= 23 /\ 0 <= minute d <= 59.
Proof.
  unfold date_of, hour, minute. numerals. intros H.
  repeat split; Z.div_mod_to_equations; lia.
Qed.

(** A candidate cut from an interval of a working day, for a duration that
    is not negative, starts and ends on that date, in the zone of the
    interval, on whole minutes. *)
Lemma candidate_in_working_day day tz iv minutes c :
  in_working_day day tz (fst iv) -> in_working_day day tz (snd iv) ->
  0 <= minutes ->
  candidate_from_interval iv (td_minutes minutes) = Some c ->
  utcoffset (cand_start c) = tz /\ utcoffset (cand_end c) = tz /\
  date_of (cand_start c) = day /\ date_of (cand_end c) = day /\
  wall (cand_start c) mod US_PER_MINUTE = 0 /\
  wall (cand_end c) mod US_PER_MINUTE = 0.
Proof.
  intros [Hso Hsi] [Heo Hei] Hmin Hc.
  destruct (candidate_from_interval_inv _ _ _ Hc) as (_ & Hend & Hlo & Hhi & _).
  pose proof (candidate_start_wall _ _ _ Hc) as Hst. cbv zeta in Hst.
  assert (Hoc : utcoffset (centered_start iv (td_minutes minutes)) = tz).
  { unfold centered_start, dt_add. cbn [utcoffset]. exact Hso. }
  rewrite Hoc in Hst.
  set (w := wall (centered_start iv (td_minutes minutes))) in *.
  set (r := nearest5 (minute (centered_start iv (td_minutes minutes)))) in *.
  rewrite Hend in Hhi |- *. rewrite Hst in *.
  unfold dt_add, td_minutes in *. cbn [wall utcoffset] in *.
  unfold instant, work_start, work_end, combine, date_of in *.
  cbn [wall utcoffset] in *. rewrite Hso, Heo in *.
  clear Hc Hend Hst. numerals.
  split; [reflexivity|]. split; [reflexivity|].
  repeat split; Z.div_mod_to_equations; lia.
Qed.

Lemma slot_str_fields c :
  slot_str c =
  (fmt_date (fst (fst (ord2ymd (date_of (cand_start c)))))
            (snd (fst (ord2ymd (date_of (cand_start c)))))
            (snd (ord2ymd (date_of (cand_start c))))
   ++ ": " ++ fmt_hm (hour (cand_start c)) (minute (cand_start c))
   ++ "-" ++ fmt_hm (hour (cand_end c)) (minute (cand_end c)))%string.
Proof.
  unfold slot_str, strftime_date, strftime_hm, date_text.
  now destruct (ord2ymd (date_of (cand_start c))) as [[y m] d].
Qed.

(** C4, as the code has it.  Take a candidate the engine ranks, for a
    duration that is not negative, on a date of a four-digit year.  Its
    descriptor parses without error into the candidate's own date and HH:MM
    wall-clock readings, carried in the parser's fixed zone [SGT].  The
    parsed pair denotes the candidate's instants exactly when the zone the
    engine formatted in, the offset of "now", is [SGT]. *)
Theorem parse_after_format SGT now week_now all_events minutes max_slots c :
  0 <= minutes ->
  In c (best_slots now week_now all_events minutes max_slots) ->
  1000 <= year (date_of (cand_start c)) <= 9999 ->
  parse_selected_time SGT (slot_str c)
  = Ok (replace_tzinfo (cand_start c) SGT, replace_tzinfo (cand_end c) SGT) /\
  ((instant (replace_tzinfo (cand_start c) SGT) = instant (cand_start c) /\
    instant (replace_tzinfo (cand_end c) SGT) = instant (cand_end c))
   <-> SGT = utcoffset now).
Proof.
  intros Hmin Hin Hyear.
  destruct (best_slots_origin _ _ _ _ _ _ Hin) as (day & iv & _ & Hiv & Hc).
  assert (Hends : endpoints (in_working_day day (utcoffset now))
                    (free_intervals_for_day all_events day (utcoffset now)
                       (if day =? date_of now then Some now else None))).
  { apply free_intervals_endpoints. now destruct (day =? date_of now). }
  unfold endpoints in Hends. rewrite Forall_forall in Hends.
  destruct (Hends iv Hiv) as [Hfst Hsnd].
  destruct (candidate_in_working_day day (utcoffset now) iv minutes c Hfst Hsnd Hmin Hc)
    as (Hos & Hoe & Hds & Hde & Hms & Hme).
  destruct (wall_on_the_minute _ Hms) as (Hws & Hhs & Hmins).
  destruct (wall_on_the_minute _ Hme) as (Hwe & Hhe & Hmine).
  split.
  - rewrite slot_str_fields.
    destruct (ord2ymd_valid (date_of (cand_start c))) as (Hord & Hm & Hd).
    cbv zeta in Hord, Hm, Hd. unfold year in Hyear.
    set (y := fst (fst (ord2ymd (date_of (cand_start c))))) in *.
    set (m := snd (fst (ord2ymd (date_of (cand_start c))))) in *.
    set (d := snd (ord2ymd (date_of (cand_start c)))) in *.
    rewrite (parse_descriptor SGT y m d
               (hour (cand_start c)) (minute (cand_start c))
               (hour (cand_end c)) (minute (cand_end c)))
      by (assumption || lia).
    unfold naive, replace_tzinfo. rewrite Hord.
    assert (E1 : date_of (cand_start c) * US_PER_DAY
                 + hour (cand_start c) * US_PER_HOUR
                 + minute (cand_start c) * US_PER_MINUTE = wall (cand_start c))
      by (symmetry; exact Hws).
    assert (E2 : date_of (cand_start c) * US_PER_DAY
                 + hour (cand_end c) * US_PER_HOUR
                 + minute (cand_end c) * US_PER_MINUTE = wall (cand_end c))
      by (rewrite Hds, <- Hde; symmetry; exact Hwe).
    rewrite E1, E2. reflexivity.
  - unfold replace_tzinfo, instant. cbn [wall utcoffset]. rewrite Hos, Hoe. lia.
Qed.

End Descriptor.

(** ** Concrete runs *)

Module Runs.
Import Py scheduler2 update_schedule_2 Spec Samples.

(** The sample pool on the Monday: 10:00-11:00 and 10:30-11:30 (given in
    UTC) overlap, 11:30-12:00 touches them, 13:00-14:00 stands apart. *)
Example events_for_day_pool :
  events_for_day pool monday plus8 =
  [(combine monday 10 0 plus8, combine monday 12 0 plus8);
   (combine monday 13 0 plus8, combine monday 14 0 plus8)].
Proof. vm_compute. reflexivity. Qed.

Example free_intervals_pool :
  free_intervals_for_day pool monday plus8 None =
  [(combine monday 9 0 plus8, combine monday 10 0 plus8);
   (combine monday 12 0 plus8, combine monday 13 0 plus8);
   (combine monday 14 0 plus8, combine monday 17 0 plus8)].
Proof. vm_compute. reflexivity. Qed.

Lemma pool_well_formed :
  Forall (fun ev => instant (begin ev) < instant (end_ ev)) pool.
Proof. unfold pool. repeat (constructor; [vm_compute; reflexivity|]). constructor. Defined.

Lemma pool_not_inverted :
  Forall (fun ev => instant (begin ev) <= instant (end_ ev)) pool.
Proof. unfold pool. repeat (constructor; [vm_compute; discriminate|]). constructor. Defined.

Lemma events_for_day_merge_correct_witness :
  Forall (fun ev => instant (begin ev) < instant (end_ ev)) pool /\
  (sorted_by_start (events_for_day pool monday plus8) /\
   pairwise_disjoint (events_for_day pool monday plus8) /\
   Forall nonempty (events_for_day pool monday plus8) /\
   forall t, covers (events_for_day pool monday plus8) t <->
             exists ev, In ev pool /\ event_inside ev t /\ in_window monday plus8 t).
Proof.
  split; [exact pool_well_formed|].
  exact (Resolver.events_for_day_merge_correct pool monday plus8 pool_well_formed).
Defined.

Lemma free_busy_complement_witness :
  Forall (fun ev => instant (begin ev) <= instant (end_ ev)) pool /\
  (pairwise_disjoint (free_intervals_for_day pool monday plus8 None
                      ++ events_for_day pool monday plus8) /\
   (forall t, ~ (covers (free_intervals_for_day pool monday plus8 None) t /\
                 covers (events_for_day pool monday plus8) t)) /\
   (forall t, in_window monday plus8 t <->
              covers (free_intervals_for_day pool monday plus8 None) t \/
              covers (events_for_day pool monday plus8) t)).
Proof.
  split; [exact pool_not_inverted|].
  exact (Resolver.free_busy_complement pool monday plus8 pool_not_inverted).
Defined.

Lemma early_meeting_touches :
  instant (end_ early_meeting) = instant (work_start monday plus8) \/
  instant (begin early_meeting) = instant (work_end monday plus8).
Proof. left. vm_compute. reflexivity. Defined.

Lemma touching_event_witness :
  (instant (end_ early_meeting) = instant (work_start monday plus8) \/
   instant (begin early_meeting) = instant (work_end monday plus8)) /\
  events_for_day ([] ++ early_meeting :: pool) monday plus8 =
    events_for_day ([] ++ pool) monday plus8 /\
  free_intervals_for_day ([] ++ early_meeting :: pool) monday plus8 (Some monday_8am) =
    free_intervals_for_day ([] ++ pool) monday plus8 (Some monday_8am) /\
  events_for_day [early_meeting] monday plus8 = [] /\
  free_intervals_for_day [early_meeting] monday plus8 None =
    [(work_start monday plus8, work_end monday plus8)].
Proof.
  split; [exact early_meeting_touches|].
  exact (Resolver.touching_event_contributes_nothing
           [] early_meeting pool monday plus8 (Some monday_8am) early_meeting_touches).
Defined.

(** A gap of 35 minutes and a meeting of 30: the centered start is
    09:02:30 and the candidate kept is 09:00-09:30. *)
Example short_gap_candidate :
  option_map (fun c => (cand_start c, cand_end c))
             (candidate_from_interval short_gap (td_minutes 30))
  = Some (combine monday 9 0 plus8, combine monday 9 30 plus8).
Proof. vm_compute. reflexivity. Qed.

Lemma short_gap_kept :
  candidate_from_interval short_gap (td_minutes 30)
  = Some ((total_seconds (td_minutes 5) / 2)%Q,
          combine monday 9 0 plus8, combine monday 9 30 plus8).
Proof. vm_compute. reflexivity. Defined.

Lemma duration_invariant_witness :
  candidate_from_interval short_gap (td_minutes 30)
  = Some ((total_seconds (td_minutes 5) / 2)%Q,
          combine monday 9 0 plus8, combine monday 9 30 plus8) /\
  dt_sub (combine monday 9 30 plus8) (combine monday 9 0 plus8) = td_minutes 30.
Proof.
  split; [exact short_gap_kept|].
  exact (proj1 Ranking.duration_invariant short_gap (td_minutes 30) _ short_gap_kept).
Defined.

(** The centered start 09:02:30 lies exactly two and a half minutes past
    09:00, and the candidate starts at 09:00, not at 09:05: the seconds are
    not counted and the start is rounded down. *)
Lemma half_past_two_minutes_rounds_down :
  minute (centered_start short_gap (td_minutes 30)) = 2 /\
  second (centered_start short_gap (td_minutes 30)) = 30 /\
  microsecond (centered_start short_gap (td_minutes 30)) = 0 /\
  option_map (fun c => (hour (cand_start c), minute (cand_start c)))
             (candidate_from_interval short_gap (td_minutes 30)) = Some (9, 0).
Proof. vm_compute. repeat split; reflexivity. Qed.

Lemma rounding_on_whole_minutes_witness :
  candidate_from_interval short_gap (td_minutes 30)
  = Some ((total_seconds (td_minutes 5) / 2)%Q,
          combine monday 9 0 plus8, combine monday 9 30 plus8) /\
  minute (combine monday 9 0 plus8)
  = nearest5 (minute (centered_start short_gap (td_minutes 30))) mod 60 /\
  minute (combine monday 9 0 plus8) mod 5 = 0 /\
  second (combine monday 9 0 plus8) = 0.
Proof.
  split; [exact short_gap_kept|].
  pose proof (Ranking.rounding_on_whole_minutes short_gap (td_minutes 30) _ short_gap_kept)
    as (_ & _ & Hmin & Hfive & Hsec & _).
  exact (conj Hmin (conj Hfive Hsec)).
Defined.

(** Calendars without events, 30 minutes, Monday 08:00: the Monday slot is
    12:45-13:15, and "2024-01-01: 12:55-13:25" is not among the slots. *)
Lemma monday_slot_is_1245 :
  find_best_meeting_slots no_events monday_8am monday_8am
    [empty_payload; empty_payload] 30 10
  = Ok ["2024-01-01: 12:45-13:15"; "2024-01-02: 12:45-13:15";
        "2024-01-03: 12:45-13:15"; "2024-01-04: 12:45-13:15";
        "2024-01-05: 12:45-13:15"]%string /\
  match find_best_meeting_slots no_events monday_8am monday_8am
          [empty_payload; empty_payload] 30 10 with
  | inr slots => existsb (String.eqb "2024-01-01: 12:55-13:25") slots = false
  | inl _ => False
  end.
Proof. vm_compute. split; reflexivity. Qed.

Lemma empty_calendars_witness :
  (no_events empty_payload = Ok [] /\ no_events empty_payload = Ok [] /\
   weekday monday = 0 /\ date_of monday_8am = monday) /\
  find_best_meeting_slots no_events (combine monday 8 0 plus8) monday_8am
    [empty_payload; empty_payload] 30 10
  = Ok (map (fun day => (date_text day ++ ": 12:45-13:15")%string)
            [monday; monday + 1; monday + 2; monday + 3; monday + 4]).
Proof.
  split; [repeat split; vm_compute; reflexivity|].
  apply (Ranking.empty_calendars_monday_morning no_events empty_payload empty_payload
           monday plus8 monday_8am); vm_compute; reflexivity.
Defined.

(** A duration of zero or less is not turned down: the slots come back
    empty or inverted, and a payload that cannot be read fails the call with
    the reader's error. *)
Lemma nonpositive_duration_runs :
  find_best_meeting_slots no_events monday_8am monday_8am
    [empty_payload; empty_payload] 0 10
  = Ok ["2024-01-01: 13:00-13:00"; "2024-01-02: 13:00-13:00";
        "2024-01-03: 13:00-13:00"; "2024-01-04: 13:00-13:00";
        "2024-01-05: 13:00-13:00"]%string /\
  find_best_meeting_slots no_events monday_8am monday_8am
    [empty_payload; empty_payload] (-30) 10
  = Ok ["2024-01-01: 13:15-12:45"; "2024-01-02: 13:15-12:45";
        "2024-01-03: 13:15-12:45"; "2024-01-04: 13:15-12:45";
        "2024-01-05: 13:15-12:45"]%string /\
  find_best_meeting_slots strict_reader monday_8am monday_8am
    [empty_payload; "garbage"%string] 0 10
  = Raise ParseError.
Proof. vm_compute. repeat split; reflexivity. Qed.

Lemma no_events_reads_all :
  forall p, In p [empty_payload; empty_payload] ->
            exists events, no_events p = Ok events.
Proof. intros p _. exists []. reflexivity. Defined.

Lemma nonpositive_duration_witness :
  0 <= 0 /\
  exists chosen,
    find_best_meeting_slots no_events monday_8am monday_8am
      [empty_payload; empty_payload] 0 10 = Ok (map slot_str chosen) /\
    Forall (fun c => dt_sub (cand_end c) (cand_start c) = td_minutes 0 /\
                     instant (cand_end c) <= instant (cand_start c)) chosen.
Proof.
  split; [apply Z.le_refl|].
  exact (proj2 (Ranking.nonpositive_duration_not_rejected no_events monday_8am monday_8am
                  [empty_payload; empty_payload] 0 10 (Z.le_refl 0))
               no_events_reads_all).
Defined.

(** An inverted range is parsed as it stands. *)
Example parse_inverted_range :
  parse_selected_time sgt_stated "2024-01-01: 13:45-13:15"
  = Ok (combine monday 13 45 sgt_stated, combine monday 13 15 sgt_stated).
Proof. vm_compute. reflexivity. Qed.

Lemma parse_selected_time_witness :
  (1 <= 2024 <= 9999 /\ 1 <= 1 <= 12 /\ 1 <= 1 <= days_in_month 2024 1 /\
   0 <= 13 <= 23 /\ 0 <= 45 <= 59 /\ 0 <= 13 <= 23 /\ 0 <= 15 <= 59) /\
  parse_selected_time sgt_stated
    (fmt_date 2024 1 1 ++ ": " ++ fmt_hm 13 45 ++ "-" ++ fmt_hm 13 15)
  = Ok (mkdt (naive 2024 1 1 13 45) sgt_stated, mkdt (naive 2024 1 1 13 15) sgt_stated) /\
  (60 * 13 + 15 <= 60 * 13 + 45 ->
   instant (mkdt (naive 2024 1 1 13 15) sgt_stated)
   <= instant (mkdt (naive 2024 1 1 13 45) sgt_stated)).
Proof.
  split; [vm_compute; repeat split; discriminate|].
  apply (Descriptor.parse_selected_time_no_ordering_check sgt_stated 2024 1 1 13 45 13 15);
    vm_compute; split; discriminate.
Defined.

(** The engine run in UTC offers 12:45-13:15 UTC; read back by the parser
    the descriptor names 12:45-13:15 of the parser's zone, which is another
    instant, whether that zone is UTC+8 or the +06:55 of the zone object. *)
Lemma parse_after_format_other_zone :
  In utc_slot (best_slots monday_8am_utc monday_8am_utc [] 30 10) /\
  slot_str utc_slot = "2024-01-01: 12:45-13:15"%string /\
  parse_selected_time sgt_stated (slot_str utc_slot)
  = Ok (combine monday 12 45 sgt_stated, combine monday 13 15 sgt_stated) /\
  dt_eqb (combine monday 12 45 sgt_stated) (cand_start utc_slot) = false /\
  parse_selected_time sgt_lmt (slot_str utc_slot)
  = Ok (combine monday 12 45 sgt_lmt, combine monday 13 15 sgt_lmt) /\
  dt_eqb (combine monday 12 45 sgt_lmt) (cand_start utc_slot) = false.
Proof. vm_compute. split; [left; reflexivity|repeat split; reflexivity]. Qed.

Lemma utc_slot_ranked : In utc_slot (best_slots monday_8am_utc monday_8am_utc [] 30 10).
Proof. vm_compute. left. reflexivity. Defined.

Lemma utc_slot_year : 1000 <= year (date_of (cand_start utc_slot)) <= 9999.
Proof. vm_compute. split; discriminate. Defined.

Lemma parse_after_format_witness :
  (0 <= 30 /\ In utc_slot (best_slots monday_8am_utc monday_8am_utc [] 30 10) /\
   1000 <= year (date_of (cand_start utc_slot)) <= 9999) /\
  parse_selected_time utc (slot_str utc_slot)
  = Ok (replace_tzinfo (cand_start utc_slot) utc, replace_tzinfo (cand_end utc_slot) utc) /\
  ((instant (replace_tzinfo (cand_start utc_slot) utc) = instant (cand_start utc_slot) /\
    instant (replace_tzinfo (cand_end utc_slot) utc) = instant (cand_end utc_slot))
   <-> utc = utcoffset monday_8am_utc).
Proof.
  split; [split; [discriminate|split; [exact utc_slot_ranked|exact utc_slot_year]]|].
  apply (Descriptor.parse_after_format utc monday_8am_utc monday_8am_utc [] 30 10 utc_slot).
  - discriminate.
  - exact utc_slot_ranked.
  - exact utc_slot_year.
Defined.

(** Thursday 2024-01-04 in a week inferred from the sample pool. *)
Example thursday_and_friday :
  get_scheduling_days monday_8am pool (combine (monday + 3) 8 0 plus8)
  = [monday + 3; monday + 4].
Proof. vm_compute. reflexivity. Qed.

End Runs.

(** ** More on candidate placement *)

Module Placement.
Import Py scheduler2 Spec PyFacts Resolver Ranking.

(** [timedelta / 2] is within half a microsecond of the exact half. *)
Lemma td_div_two td : td - 1 <= 2 * td_div td 2 <= td + 1.
Proof.
  unfold td_div, divide_and_round. cbv zeta. cbn [Z.ltb Z.compare].
  destruct (Z.ltb_spec 2 (2 * (td mod 2)));
    destruct (Z.eqb_spec (2 * (td mod 2)) 2);
    destruct (Z.eqb_spec (td / 2 mod 2) 1); cbn [orb andb];
    Z.div_mod_to_equations; lia.
Qed.

(** Rounding moves a wall clock by less than three minutes back and by at
    most two minutes forward. *)
Lemma rounding_shift w :
  let m := (w / US_PER_MINUTE) mod 60 in
  let w' := w - w mod US_PER_HOUR + nearest5 m * US_PER_MINUTE in
  w - 3 * US_PER_MINUTE < w' <= w + 2 * US_PER_MINUTE.
Proof.
  cbv zeta. unfold nearest5. numerals.
  destruct (Z.leb_spec ((w / 60000000) mod 60 mod 5) 2);
    Z.div_mod_to_equations; lia.
Qed.

(** A kept candidate lies inside the interval it was cut from, which is at
    least as long as the meeting; its score is half the slack in seconds
    and is not negative.  An interval shorter than the meeting gives no
    candidate. *)
Theorem candidate_within_interval iv meeting_td :
  (forall c,
      candidate_from_interval iv meeting_td = Some c ->
      instant (fst iv) <= instant (cand_start c) /\
      instant (cand_end c) <= instant (snd iv) /\
      meeting_td <= dt_sub (snd iv) (fst iv) /\
      score c = (total_seconds (dt_sub (snd iv) (fst iv) - meeting_td)%Z / 2)%Q /\
      (0 <= score c)%Q) /\
  (dt_sub (snd iv) (fst iv) < meeting_td ->
   candidate_from_interval iv meeting_td = None).
Proof.
  split.
  - intros c Hc.
    destruct (candidate_from_interval_inv _ _ _ Hc) as (_ & _ & Hlo & Hhi & Hfit).
    split; [exact Hlo|]. split; [exact Hhi|]. split; [exact Hfit|].
    rewrite candidate_from_interval_eq in Hc. cbv zeta in Hc.
    destruct (dt_sub (snd iv) (fst iv) <? meeting_td); [discriminate|].
    destruct (dt_ltb _ (fst iv) || dt_ltb (snd iv) _); [discriminate|].
    injection Hc as <-. unfold score. cbn [fst].
    split; [reflexivity|].
    unfold total_seconds, Qdiv, Qmult, Qinv, Qle. cbn. lia.
  - intros Hshort. rewrite candidate_from_interval_eq. cbv zeta.
    apply Z.ltb_lt in Hshort. now rewrite Hshort.
Qed.

(** An interval that exceeds the meeting by six minutes or more always
    gives a candidate: rounding cannot push it out. *)
Theorem candidate_exists_with_slack iv meeting_td :
  td_minutes 6 <= dt_sub (snd iv) (fst iv) - meeting_td ->
  exists c, candidate_from_interval iv meeting_td = Some c.
Proof.
  intros Hslack. rewrite candidate_from_interval_eq. cbv zeta.
  set (slack := dt_sub (snd iv) (fst iv) - meeting_td) in *.
  assert (Hlen : (dt_sub (snd iv) (fst iv) <? meeting_td) = false).
  { apply Z.ltb_ge. unfold slack, td_minutes in Hslack. numerals. lia. }
  rewrite Hlen.
  pose proof (td_div_two slack) as Hhalf.
  pose proof (rounding_shift (wall (centered_start iv meeting_td))) as Hshift.
  cbv zeta in Hshift. fold (minute (centered_start iv meeting_td)) in Hshift.
  set (w' := wall (centered_start iv meeting_td)
             - wall (centered_start iv meeting_td) mod US_PER_HOUR
             + nearest5 (minute (centered_start iv meeting_td)) * US_PER_MINUTE) in *.
  assert (Hin : dt_ltb (mkdt w' (utcoffset (centered_start iv meeting_td))) (fst iv)
                || dt_ltb (snd iv)
                     (dt_add (mkdt w' (utcoffset (centered_start iv meeting_td))) meeting_td)
                = false).
  { apply orb_false_intro; unfold dt_ltb; apply Z.ltb_ge;
      unfold dt_add, instant; cbn [wall utcoffset];
      unfold centered_start, dt_add in *; cbn [wall utcoffset] in *;
      fold slack in Hshift |- *; unfold slack, dt_sub, instant, td_minutes in *;
      numerals; lia. }
  rewrite Hin. eexists. reflexivity.
Qed.

End Placement.

(** ** More on busy and free time *)

Module FreeTime.
Import Py scheduler2 Spec PyFacts Resolver.

(** Busy intervals never touch: in the busy list of a day every interval
    ends strictly before the next one starts, and each begins and ends
    between 09:00 and 17:00 of the date, in the zone asked for. *)
Theorem busy_intervals_separated events day tz :
  Forall (fun ev => instant (begin ev) <= instant (end_ ev)) events ->
  chain (events_for_day events day tz) /\
  endpoints (in_working_day day tz) (events_for_day events day tz).
Proof.
  intros Hev. split.
  - now destruct (events_for_day_chain events day tz Hev) as (_ & Hch & _).
  - apply events_for_day_endpoints.
Qed.

Lemma free_intervals_today events day tz now :
  free_intervals_for_day events day tz (Some now) =
  if day =? date_of now
  then flat_map (clip_to_now now) (free_intervals_for_day events day tz None)
  else free_intervals_for_day events day tz None.
Proof. reflexivity. Qed.

Lemma covers_clip_to_now now iv t :
  covers (clip_to_now now iv) t <-> inside iv t /\ instant now <= t.
Proof.
  destruct iv as [s e]. unfold clip_to_now, dt_ltb.
  destruct (Z.ltb_spec (instant s) (instant now)) as [Hlt|Hge].
  - rewrite instant_dt_max.
    destruct (Z.ltb_spec (Z.max (instant s) (instant now)) (instant e)).
    + rewrite covers_one. unfold inside, istart, iend; cbn [fst snd].
      rewrite instant_dt_max. lia.
    + pose proof (covers_nil t). unfold inside, istart, iend; cbn [fst snd].
      split; [tauto|lia].
  - destruct (Z.ltb_spec (instant s) (instant e)).
    + rewrite covers_one. unfold inside, istart, iend; cbn [fst snd]. lia.
    + pose proof (covers_nil t). unfold inside, istart, iend; cbn [fst snd].
      split; [tauto|lia].
Qed.

Lemma clip_to_now_starts now iv :
  Forall (fun iv' => instant now <= istart iv' /\ istart iv <= istart iv' /\
                     iend iv' = iend iv /\ nonempty iv')
         (clip_to_now now iv).
Proof.
  destruct iv as [s e]. unfold clip_to_now, dt_ltb.
  destruct (Z.ltb_spec (instant s) (instant now)) as [Hlt|Hge].
  - rewrite instant_dt_max.
    destruct (Z.ltb_spec (Z.max (instant s) (instant now)) (instant e));
      constructor; [|constructor].
    unfold nonempty, istart, iend; cbn [fst snd]. rewrite instant_dt_max. lia.
  - destruct (Z.ltb_spec (instant s) (instant e)); constructor; [|constructor].
    unfold nonempty, istart, iend; cbn [fst snd]. lia.
Qed.

(** The "today" clipping.  On another date than that of the current
    instant the free list is the unclipped one.  On that date it covers the
    free instants that are not before the current instant, and no interval
    of it starts before the current instant. *)
Theorem today_clipping events day tz now :
  let free := free_intervals_for_day events day tz None in
  let clipped := free_intervals_for_day events day tz (Some now) in
  (day <> date_of now -> clipped = free) /\
  (day = date_of now ->
   Forall (fun iv => instant now <= istart iv) clipped /\
   forall t, covers clipped t <-> covers free t /\ instant now <= t).
Proof.
  intros free clipped. unfold clipped. rewrite free_intervals_today. fold free.
  split.
  - intros Hne. destruct (Z.eqb_spec day (date_of now)); [contradiction|reflexivity].
  - intros Heq. rewrite (proj2 (Z.eqb_eq _ _) Heq). split.
    + apply Forall_forall. intros iv Hiv. apply in_flat_map in Hiv.
      destruct Hiv as (iv0 & _ & Hiv).
      pose proof (clip_to_now_starts now iv0) as Hc. rewrite Forall_forall in Hc.
      now destruct (Hc iv Hiv).
    + intros t. rewrite covers_flat_map. split.
      * intros (iv & Hin & Hc). apply covers_clip_to_now in Hc.
        split; [now exists iv|tauto].
      * intros [(iv & Hin & Hiv) Hnow]. exists iv. split; [exact Hin|].
        now apply covers_clip_to_now.
Qed.

Lemma free_between_nonempty hi busy :
  forall lo, Forall nonempty (free_between lo busy hi).
Proof.
  induction busy as [|[s e] busy IH]; intros lo; simpl.
  - unfold dt_ltb. destruct (Z.ltb_spec (instant lo) (instant hi));
      constructor; [|constructor]. exact H.
  - apply Forall_app. split; [|apply IH].
    unfold dt_ltb. destruct (Z.ltb_spec (instant lo) (instant s));
      constructor; [|constructor]. exact H.
Qed.

Lemma wchain_clip now free :
  wchain free -> wchain (flat_map (clip_to_now now) free).
Proof.
  unfold wchain. induction 1 as [|a free Hs IH Ha]; simpl; [constructor|].
  pose proof (clip_to_now_starts now a) as Hca.
  destruct (clip_to_now now a) as [|a' [|a'' rest]] eqn:Ea.
  - exact IH.
  - simpl. constructor; [exact IH|].
    inversion Hca as [|? ? (_ & _ & Hend & _) _]; subst.
    apply Forall_forall. intros b' Hb'. apply in_flat_map in Hb'.
    destruct Hb' as (b & Hb & Hb').
    pose proof (clip_to_now_starts now b) as Hcb. rewrite Forall_forall in Hcb.
    destruct (Hcb b' Hb') as (_ & Hsb & _).
    rewrite Forall_forall in Ha. specialize (Ha b Hb). lia.
  - exfalso. destruct a as [s e]. unfold clip_to_now in Ea.
    destruct (dt_ltb _ e); discriminate.
Qed.

Lemma wchain_sorted_by_start l : Forall nonempty l -> wchain l -> sorted_by_start l.
Proof.
  unfold wchain, sorted_by_start. intros Hne Hch. induction Hch as [|a l Hs IH Ha].
  - constructor.
  - inversion Hne as [|? ? Hna Hnl]; subst. constructor; [now apply IH|].
    revert Ha. apply Forall_impl. intros b. unfold nonempty in *. lia.
Qed.

(** What the free list of a day looks like, clipped to a current instant of
    the same zone or not: its intervals are non-empty, sorted by start,
    pairwise disjoint, begin and end between 09:00 and 17:00 of the date,
    and hold no busy instant. *)
Theorem free_intervals_shape events day tz current_dt :
  Forall (fun ev => instant (begin ev) <= instant (end_ ev)) events ->
  match current_dt with Some now => utcoffset now = tz | None => True end ->
  let free := free_intervals_for_day events day tz current_dt in
  Forall nonempty free /\
  sorted_by_start free /\
  pairwise_disjoint free /\
  endpoints (in_working_day day tz) free /\
  forall t, covers free t -> ~ covers (events_for_day events day tz) t.
Proof.
  intros Hev Hzone free.
  destruct (events_for_day_chain events day tz Hev) as (Hin & Hch & _).
  pose proof (work_start_before_end day tz) as Hw.
  destruct (free_between_complement (work_end day tz) (events_for_day events day tz)
              (work_start day tz) Hch Hin) as (_ & _ & F3 & F4 & _); [lia|].
  rewrite <- free_intervals_unclipped in F3, F4.
  pose proof (free_between_nonempty (work_end day tz) (events_for_day events day tz)
                (work_start day tz)) as Hne.
  rewrite <- free_intervals_unclipped in Hne.
  assert (Hends : endpoints (in_working_day day tz) free)
    by (apply free_intervals_endpoints; exact Hzone).
  assert (Hshape : Forall nonempty free /\ wchain free /\
                   forall t, covers free t ->
                             covers (free_intervals_for_day events day tz None) t).
  { unfold free. destruct current_dt as [now|]; [|now auto].
    rewrite free_intervals_today. destruct (day =? date_of now); [|now auto].
    split; [|split].
    - apply Forall_forall. intros iv Hiv. apply in_flat_map in Hiv.
      destruct Hiv as (iv0 & _ & Hiv).
      pose proof (clip_to_now_starts now iv0) as Hc. rewrite Forall_forall in Hc.
      now destruct (Hc iv Hiv) as (_ & _ & _ & Hn).
    - now apply wchain_clip.
    - intros t Ht. apply covers_flat_map in Ht. destruct Ht as (iv & Hiv & Hc).
      apply covers_clip_to_now in Hc. exists iv. tauto. }
  destruct Hshape as (Hn & Hwc & Hsub).
  split; [exact Hn|]. split; [now apply wchain_sorted_by_start|].
  split; [now apply wchain_pairwise_disjoint|]. split; [exact Hends|].
  intros t Ht. now destruct (F4 t (Hsub t Ht)).
Qed.

(** *** The busy list does not depend on the order of the pool *)

Lemma datetime_eq a b : instant a = instant b -> utcoffset a = utcoffset b -> a = b.
Proof.
  destruct a as [wa oa], b as [wb ob]. unfold instant. cbn [wall utcoffset].
  intros Hi Ho. subst ob. f_equal. lia.
Qed.

Lemma covers_after_head b l t :
  chain (b :: l) -> covers l t -> iend b < t.
Proof.
  unfold chain. intros Hch (x & Hx & Ht). inversion Hch as [|? ? _ Hb]; subst.
  rewrite Forall_forall in Hb. specialize (Hb x Hx).
  unfold separated, inside in *. lia.
Qed.

Lemma covers_from_head b l t :
  chain (b :: l) -> nonempty b -> covers (b :: l) t -> istart b <= t.
Proof.
  intros Hch Hb Ht. apply covers_cons in Ht. destruct Ht as [Ht|Ht].
  - unfold inside in Ht. lia.
  - pose proof (covers_after_head b l t Hch Ht). unfold nonempty in Hb. lia.
Qed.

Lemma head_start_covered a l : nonempty a -> covers (a :: l) (istart a).
Proof.
  intros Ha. apply covers_cons. left. unfold inside, nonempty in *. lia.
Qed.

(** Two chains of non-empty intervals of one zone that cover the same
    instants are the same list. *)
Lemma chain_unique tz l1 :
  forall l2,
    Forall nonempty l1 -> Forall nonempty l2 -> chain l1 -> chain l2 ->
    endpoints (fun d => utcoffset d = tz) l1 ->
    endpoints (fun d => utcoffset d = tz) l2 ->
    (forall t, covers l1 t <-> covers l2 t) ->
    l1 = l2.
Proof.
  induction l1 as [|a l1 IH]; intros [|b l2] N1 N2 C1 C2 E1 E2 Hcov.
  - reflexivity.
  - inversion N2 as [|? ? Hb _]; subst.
    destruct (covers_nil (istart b)). apply Hcov. now apply head_start_covered.
  - inversion N1 as [|? ? Ha _]; subst.
    destruct (covers_nil (istart a)). apply Hcov. now apply head_start_covered.
  - inversion N1 as [|? ? Ha N1']; subst. inversion N2 as [|? ? Hb N2']; subst.
    inversion E1 as [|? ? Hea E1']; subst. inversion E2 as [|? ? Heb E2']; subst.
    assert (Hs : istart a = istart b).
    { pose proof (covers_from_head b l2 (istart a) C2 Hb
                    (proj1 (Hcov _) (head_start_covered a l1 Ha))).
      pose proof (covers_from_head a l1 (istart b) C1 Ha
                    (proj2 (Hcov _) (head_start_covered b l2 Hb))).
      lia. }
    assert (Hends : forall x lx y ly,
               chain (x :: lx) -> chain (y :: ly) -> nonempty x -> nonempty y ->
               istart x = istart y ->
               (forall t, covers (x :: lx) t -> covers (y :: ly) t) ->
               iend x <= iend y).
    { intros x lx y ly Cx Cy Hx Hy Hxy Hsub.
      destruct (Z.le_gt_cases (iend x) (iend y)) as [|Hgt]; [assumption|exfalso].
      assert (Hc : covers (x :: lx) (iend y)).
      { apply covers_cons. left. unfold inside, nonempty in *. lia. }
      apply Hsub in Hc. apply covers_cons in Hc. destruct Hc as [Hc|Hc].
      - unfold inside in Hc. lia.
      - pose proof (covers_after_head y ly _ Cy Hc). lia. }
    assert (He : iend a = iend b).
    { pose proof (Hends a l1 b l2 C1 C2 Ha Hb Hs (fun t => proj1 (Hcov t))).
      pose proof (Hends b l2 a l1 C2 C1 Hb Ha (eq_sym Hs) (fun t => proj2 (Hcov t))).
      lia. }
    assert (Hab : a = b).
    { destruct a as [sa ea], b as [sb eb]. unfold istart, iend in Hs, He.
      cbn [fst snd] in *. destruct Hea as [Hsa Hea], Heb as [Hsb Heb].
      f_equal; apply datetime_eq; congruence. }
    subst b. f_equal.
    inversion C1 as [|? ? C1' _]; subst. inversion C2 as [|? ? C2' _]; subst.
    apply IH; auto. intros t. split; intros Ht.
    + pose proof (covers_after_head a l1 t C1 Ht).
      assert (Hc : covers (a :: l2) t) by (apply Hcov, covers_cons; now right).
      apply covers_cons in Hc. destruct Hc as [Hc|Hc]; [|exact Hc].
      unfold inside in Hc. lia.
    + pose proof (covers_after_head a l2 t C2 Ht).
      assert (Hc : covers (a :: l1) t) by (apply Hcov, covers_cons; now right).
      apply covers_cons in Hc. destruct Hc as [Hc|Hc]; [|exact Hc].
      unfold inside in Hc. lia.
Qed.

(** The busy list of a day is determined by the instants the events cover
    inside the working window. *)
Lemma busy_list_determined events events' day tz :
  Forall (fun ev => instant (begin ev) < instant (end_ ev)) events ->
  Forall (fun ev => instant (begin ev) < instant (end_ ev)) events' ->
  (forall t, (exists ev, In ev events /\ event_inside ev t /\ in_window day tz t) <->
             (exists ev, In ev events' /\ event_inside ev t /\ in_window day tz t)) ->
  events_for_day events day tz = events_for_day events' day tz.
Proof.
  intros Hev Hev' Hsame.
  destruct (events_for_day_chain events day tz (strict_events_weak _ Hev))
    as (_ & C1 & Hc1).
  destruct (events_for_day_chain events' day tz (strict_events_weak _ Hev'))
    as (_ & C2 & Hc2).
  apply (chain_unique tz); auto.
  - now apply events_for_day_nonempty.
  - now apply events_for_day_nonempty.
  - pose proof (events_for_day_endpoints events day tz) as H.
    unfold endpoints, in_working_day in *. revert H. apply Forall_impl. tauto.
  - pose proof (events_for_day_endpoints events' day tz) as H.
    unfold endpoints, in_working_day in *. revert H. apply Forall_impl. tauto.
  - intros t. rewrite Hc1, Hc2. apply Hsame.
Qed.

(** Two pools that hold the same events, in whatever order and however
    often, have the same busy list and the same free list on every day. *)
Theorem events_for_day_order_independent events events' day tz current_dt :
  Forall (fun ev => instant (begin ev) < instant (end_ ev)) events ->
  (forall ev, In ev events <-> In ev events') ->
  events_for_day events day tz = events_for_day events' day tz /\
  free_intervals_for_day events day tz current_dt
  = free_intervals_for_day events' day tz current_dt.
Proof.
  intros Hev Hsame.
  assert (Hev' : Forall (fun ev => instant (begin ev) < instant (end_ ev)) events').
  { rewrite Forall_forall in Hev |- *. intros ev Hin. apply Hev. now apply Hsame. }
  assert (Hbusy : events_for_day events day tz = events_for_day events' day tz).
  { apply busy_list_determined; auto.
    intros t. split; intros (ev & Hin & H); exists ev;
      (split; [now apply Hsame|exact H]). }
  split; [exact Hbusy|].
  unfold free_intervals_for_day. now rewrite Hbusy.
Qed.

End FreeTime.

(** ** More on the ranking and on what is offered *)

Module Offers.
Import Py scheduler2 Spec Spec2 PyFacts Resolver Ranking.

(** *** The order of the ranking *)

Lemma score_lt_false a b : score_lt a b = false <-> (score a <= score b)%Q.
Proof. unfold score_lt. rewrite negb_false_iff. apply Qle_bool_iff. Qed.

Lemma score_lt_true a b : score_lt a b = true -> (score b <= score a)%Q.
Proof.
  unfold score_lt. rewrite negb_true_iff. intros H.
  apply Qlt_le_weak, Qnot_le_lt. intros Hle. apply Qle_bool_iff in Hle. congruence.
Qed.

Lemma insert_by_score_sorted x l :
  StronglySorted (fun a b => (score b <= score a)%Q) l ->
  StronglySorted (fun a b => (score b <= score a)%Q) (insert_sorted score_lt x l).
Proof.
  induction 1 as [|y l Hs IH Hy]; simpl.
  - repeat constructor.
  - destruct (score_lt y x) eqn:Hyx.
    + constructor; [exact IH|].
      apply Forall_forall. intros z Hz. apply In_insert_sorted in Hz.
      destruct Hz as [->|Hz].
      * now apply score_lt_true.
      * rewrite Forall_forall in Hy. now apply Hy.
    + apply score_lt_false in Hyx. constructor.
      * now constructor.
      * constructor; [exact Hyx|].
        rewrite Forall_forall in Hy |- *. intros z Hz.
        apply Qle_trans with (score y); [now apply Hy|exact Hyx].
Qed.

Lemma sort_by_score_sorted l :
  StronglySorted (fun a b => (score b <= score a)%Q) (stable_sort score_lt l).
Proof.
  induction l as [|x l IH]; simpl; [constructor|].
  now apply insert_by_score_sorted.
Qed.

Lemma insert_sorted_perm {A : Type} (lt : A -> A -> bool) x l :
  Permutation (insert_sorted lt x l) (x :: l).
Proof.
  induction l as [|y l IH]; simpl; [reflexivity|].
  destruct (lt y x); [|reflexivity].
  rewrite IH. apply perm_swap.
Qed.

Lemma stable_sort_perm {A : Type} (lt : A -> A -> bool) l :
  Permutation (stable_sort lt l) l.
Proof.
  induction l as [|x l IH]; simpl; [reflexivity|].
  rewrite insert_sorted_perm. now constructor.
Qed.

Lemma sorted_app_inv {A : Type} (R : A -> A -> Prop) l1 l2 :
  StronglySorted R (l1 ++ l2) ->
  StronglySorted R l1 /\ forall a b, In a l1 -> In b l2 -> R a b.
Proof.
  induction l1 as [|x l1 IH]; simpl; intros H.
  - split; [constructor|]. intros a b [].
  - inversion H as [|? ? Hs Hx]; subst. destruct (IH Hs) as [H1 H2].
    apply Forall_app in Hx. destruct Hx as [Hx1 Hx2]. split.
    + now constructor.
    + intros a b [<-|Ha] Hb.
      * rewrite Forall_forall in Hx2. now apply Hx2.
      * now apply H2.
Qed.

(** The ranking returns the best candidates, best first.  The list is in
    order of score, highest first; it is the front part of a rearrangement
    of all the candidates of the scheduling days, and whatever is left out
    scores no higher than anything returned.  With [max_slots] not negative
    it has at most [max_slots] entries. *)
Theorem ranking_takes_the_best now week_now all_events minutes max_slots :
  let candidates :=
    flat_map (day_candidates all_events (td_minutes minutes) now)
             (get_scheduling_days week_now all_events now) in
  let best := best_slots now week_now all_events minutes max_slots in
  StronglySorted (fun a b => (score b <= score a)%Q) best /\
  (exists rest,
      Permutation (best ++ rest) candidates /\
      forall c r, In c best -> In r rest -> (score r <= score c)%Q) /\
  (0 <= max_slots -> Z.of_nat (List.length best) <= max_slots).
Proof.
  intros candidates best. unfold best, best_slots. cbv zeta. fold candidates.
  fold score_lt. unfold slice_to.
  set (n := Z.to_nat (if max_slots <? 0
                      then max_slots + Z.of_nat (List.length (stable_sort score_lt candidates))
                      else max_slots)).
  pose proof (sort_by_score_sorted candidates) as Hsorted.
  rewrite <- (firstn_skipn n (stable_sort score_lt candidates)) in Hsorted.
  destruct (sorted_app_inv _ _ _ Hsorted) as [H1 H2].
  split; [exact H1|]. split.
  - exists (skipn n (stable_sort score_lt candidates)). split; [|exact H2].
    rewrite firstn_skipn. apply stable_sort_perm.
  - intros Hmax. pose proof (firstn_le_length n (stable_sort score_lt candidates)).
    unfold n in *. destruct (Z.ltb_spec max_slots 0); lia.
Qed.

(** *** The days on offer *)

Lemma weekday_after_monday monday i :
  weekday monday = 0 -> 0 <= i <= 6 -> weekday (monday + i) = i.
Proof. unfold weekday. intros H Hi. Z.div_mod_to_equations. lia. Qed.

Lemma in_scheduling_days week_now all_events current_dt day :
  In day (get_scheduling_days week_now all_events current_dt) ->
  let monday := fst (infer_working_week week_now all_events) in
  monday <= day <= monday + 4 /\
  (monday <= date_of current_dt <= monday + 4 -> date_of current_dt <= day).
Proof.
  unfold get_scheduling_days, infer_working_week. cbv zeta. cbn [fst].
  set (monday := match all_events with
                 | [] => date_of week_now - weekday (date_of week_now)
                 | first :: others =>
                     min_event_date first others - weekday (min_event_date first others)
                 end).
  destruct (Z.leb_spec monday (date_of current_dt));
    destruct (Z.leb_spec (date_of current_dt) (monday + 4)); cbn [andb];
    intros Hin; apply in_map_iff in Hin; destruct Hin as (i & <- & Hi);
    apply In_range in Hi; lia.
Qed.

(** The scheduling days are never empty and never more than five; they are
    distinct, in ascending order, and each is a Monday, Tuesday, Wednesday,
    Thursday or Friday of the inferred week. *)
Theorem scheduling_days_are_weekdays week_now all_events current_dt :
  let days := get_scheduling_days week_now all_events current_dt in
  (1 <= List.length days <= 5)%nat /\
  StronglySorted Z.lt days /\
  forall day, In day days ->
    0 <= weekday day <= 4 /\
    fst (infer_working_week week_now all_events) <= day
      <= snd (infer_working_week week_now all_events).
Proof.
  intros days.
  destruct (infer_working_week_spec week_now all_events) as (Hmon & Hfri & _).
  cbv zeta in Hmon, Hfri.
  split; [|split].
  - unfold days, get_scheduling_days.
    rewrite (surjective_pairing (infer_working_week week_now all_events)), Hfri.
    set (monday := fst (infer_working_week week_now all_events)).
    destruct (Z.leb_spec monday (date_of current_dt));
      destruct (Z.leb_spec (date_of current_dt) (monday + 4)); cbn [andb];
      rewrite length_map; unfold range; rewrite length_map, length_seq; lia.
  - unfold days, get_scheduling_days.
    rewrite (surjective_pairing (infer_working_week week_now all_events)).
    destruct ((_ <=? _) && (_ <=? _)); apply shifted_range_days.
  - intros day Hday. destruct (in_scheduling_days _ _ _ _ Hday) as [Hin _].
    cbv zeta in Hin. rewrite Hfri. split; [|exact Hin].
    replace day with (fst (infer_working_week week_now all_events)
                      + (day - fst (infer_working_week week_now all_events))) at 1 2
      by lia.
    rewrite weekday_after_monday; [lia|exact Hmon|lia].
Qed.

(** The inferred week and the date it is inferred from.  With events in
    the pool that date is the earliest [begin] date; the week's Monday is
    the Monday on or before it.  The date itself lies in the Monday-to-
    Friday week exactly when it is not a Saturday or a Sunday: a pool whose
    earliest event falls on a weekend yields the week that ended just
    before it. *)
Theorem working_week_of_earliest_event week_now first others :
  let earliest := min_event_date first others in
  let monday := fst (infer_working_week week_now (first :: others)) in
  let friday := snd (infer_working_week week_now (first :: others)) in
  (forall ev, In ev (first :: others) -> earliest <= date_of (begin ev)) /\
  (exists ev, In ev (first :: others) /\ earliest = date_of (begin ev)) /\
  monday = earliest - weekday earliest /\
  weekday monday = 0 /\
  (earliest <= friday <-> weekday earliest <= 4) /\
  (5 <= weekday earliest -> friday < earliest).
Proof.
  cbv zeta. unfold infer_working_week. cbn [fst snd].
  set (earliest := min_event_date first others).
  pose proof (weekday_range earliest) as Hwd.
  destruct (fold_min_least (map (fun ev => date_of (begin ev)) others)
              (date_of (begin first))) as (H1 & H2 & H3).
  fold (min_event_date first others) in H1, H2, H3. fold earliest in H1, H2, H3.
  split; [|split; [|split; [|split; [|split]]]].
  - intros ev [<-|Hin]; [exact H2|]. apply H3. apply in_map_iff. now exists ev.
  - destruct H1 as [H1|H1].
    + exists first. split; [now left|exact H1].
    + apply in_map_iff in H1. destruct H1 as (ev & Hev & Hin).
      exists ev. split; [now right|now rewrite Hev].
  - reflexivity.
  - apply weekday_of_monday.
  - lia.
  - lia.
Qed.

(** *** What is offered *)

(** Where a ranked candidate comes from: a free interval of a scheduling
    day, whose ends lie in the working day, in the zone of "now". *)
Lemma ranked_candidate_origin now week_now all_events minutes max_slots c :
  In c (best_slots now week_now all_events minutes max_slots) ->
  exists day iv,
    In day (get_scheduling_days week_now all_events now) /\
    In iv (free_intervals_for_day all_events day (utcoffset now)
             (if day =? date_of now then Some now else None)) /\
    in_working_day day (utcoffset now) (fst iv) /\
    in_working_day day (utcoffset now) (snd iv) /\
    candidate_from_interval iv (td_minutes minutes) = Some c.
Proof.
  intros Hin.
  destruct (best_slots_origin _ _ _ _ _ _ Hin) as (day & iv & Hday & Hiv & Hc).
  exists day, iv. split; [exact Hday|]. split; [exact Hiv|].
  assert (Hends : endpoints (in_working_day day (utcoffset now))
                    (free_intervals_for_day all_events day (utcoffset now)
                       (if day =? date_of now then Some now else None))).
  { apply free_intervals_endpoints. now destruct (day =? date_of now). }
  unfold endpoints in Hends. rewrite Forall_forall in Hends.
  destruct (Hends iv Hiv) as [Hfst Hsnd]. auto.
Qed.

(** A meeting longer than the eight working hours gets no slot: the
    ranking is empty, and the call returns the empty list, not an error,
    once the payloads are read. *)
Theorem no_slot_for_overlong_meeting
    Calendar now week_now ics_contents minutes max_slots :
  480 < minutes ->
  (forall all_events, best_slots now week_now all_events minutes max_slots = []) /\
  ((forall p, In p ics_contents -> exists events, Calendar p = Ok events) ->
   find_best_meeting_slots Calendar now week_now ics_contents minutes max_slots = Ok []).
Proof.
  intros Hlong.
  assert (Hnone : forall all_events,
             best_slots now week_now all_events minutes max_slots = []).
  { intros all_events.
    destruct (best_slots now week_now all_events minutes max_slots) as [|c rest] eqn:E;
      [reflexivity|exfalso].
    assert (Hin : In c (best_slots now week_now all_events minutes max_slots))
      by (rewrite E; now left).
    destruct (ranked_candidate_origin _ _ _ _ _ _ Hin)
      as (day & iv & _ & _ & [_ Hs] & [_ He] & Hc).
    destruct (candidate_from_interval_inv _ _ _ Hc) as (_ & _ & _ & _ & Hfit).
    unfold dt_sub, td_minutes, work_start, work_end, combine, instant in *.
    cbn [wall utcoffset] in *. numerals. lia. }
  split; [exact Hnone|].
  intros Hok. unfold find_best_meeting_slots.
  destruct (load_all_ok Calendar ics_contents Hok []) as (all_events & ->).
  cbn [bind Ok]. now rewrite Hnone.
Qed.

(** When the date of "now" lies in the inferred week, nothing offered
    starts before "now". *)
Theorem no_slot_in_the_past now week_now all_events minutes max_slots c :
  fst (infer_working_week week_now all_events) <= date_of now
    <= snd (infer_working_week week_now all_events) ->
  In c (best_slots now week_now all_events minutes max_slots) ->
  instant now <= instant (cand_start c).
Proof.
  intros Hweek Hin.
  destruct (ranked_candidate_origin _ _ _ _ _ _ Hin)
    as (day & iv & Hday & Hiv & [_ Hs] & _ & Hc).
  destruct (candidate_from_interval_inv _ _ _ Hc) as (_ & _ & Hlo & _).
  apply Z.le_trans with (instant (fst iv)); [|exact Hlo].
  destruct (in_scheduling_days _ _ _ _ Hday) as [_ Hfrom]. cbv zeta in Hfrom.
  assert (Hfri : snd (infer_working_week week_now all_events)
                 = fst (infer_working_week week_now all_events) + 4) by reflexivity.
  rewrite Hfri in Hweek. specialize (Hfrom Hweek).
  destruct (Z.eqb_spec day (date_of now)) as [Heq|Hne].
  - rewrite FreeTime.free_intervals_today in Hiv.
    rewrite (proj2 (Z.eqb_eq _ _) Heq) in Hiv.
    apply in_flat_map in Hiv. destruct Hiv as (iv0 & _ & Hiv).
    pose proof (FreeTime.clip_to_now_starts now iv0) as Hclip.
    rewrite Forall_forall in Hclip. now destruct (Hclip iv Hiv).
  - apply Z.le_trans with (instant (work_start day (utcoffset now))); [|apply Hs].
    unfold work_start, combine, instant, date_of in *. cbn [wall utcoffset].
    numerals. Z.div_mod_to_equations. nia.
Qed.

(** Every candidate the engine ranks for a duration that is not negative
    lies on a scheduling day, a Monday to Friday: it starts and ends on that
    date between 09:00 and 17:00 in the zone of "now", the start no later
    than the end, on a whole minute that is a multiple of five. *)
Theorem offers_in_working_hours now week_now all_events minutes max_slots c :
  0 <= minutes ->
  In c (best_slots now week_now all_events minutes max_slots) ->
  exists day,
    In day (get_scheduling_days week_now all_events now) /\
    0 <= weekday day <= 4 /\
    date_of (cand_start c) = day /\ date_of (cand_end c) = day /\
    in_working_day day (utcoffset now) (cand_start c) /\
    in_working_day day (utcoffset now) (cand_end c) /\
    instant (cand_start c) <= instant (cand_end c) /\
    minute (cand_start c) mod 5 = 0 /\
    second (cand_start c) = 0 /\ microsecond (cand_start c) = 0.
Proof.
  intros Hmin Hin.
  destruct (ranked_candidate_origin _ _ _ _ _ _ Hin)
    as (day & iv & Hday & _ & Hfst & Hsnd & Hc).
  destruct (Descriptor.candidate_in_working_day day (utcoffset now) iv minutes c
              Hfst Hsnd Hmin Hc) as (Hos & Hoe & Hds & Hde & _ & _).
  destruct (candidate_from_interval_inv _ _ _ Hc) as (_ & Hend & Hlo & Hhi & _).
  pose proof (candidate_start_wall _ _ _ Hc) as Hw. cbv zeta in Hw.
  destruct (nearest5_range (minute (centered_start iv (td_minutes minutes)))
              (minute_range _)) as [Hr H5].
  destruct (fields_after_rounding (wall (centered_start iv (td_minutes minutes)))
              (utcoffset (centered_start iv (td_minutes minutes))) _ Hr)
    as (F1 & F2 & F3 & _).
  cbv zeta in F1, F2, F3. rewrite <- Hw in F1, F2, F3.
  assert (Hord : instant (cand_start c) <= instant (cand_end c)).
  { rewrite Hend. unfold dt_add, instant, td_minutes. cbn [wall utcoffset].
    numerals. lia. }
  destruct Hfst as [_ Hfst], Hsnd as [_ Hsnd].
  exists day. split; [exact Hday|]. split.
  - destruct (in_scheduling_days _ _ _ _ Hday) as [Hwk _]. cbv zeta in Hwk.
    destruct (infer_working_week_spec week_now all_events) as (Hmon & _).
    cbv zeta in Hmon.
    replace day with (fst (infer_working_week week_now all_events)
                      + (day - fst (infer_working_week week_now all_events))) by lia.
    rewrite weekday_after_monday; [lia|exact Hmon|lia].
  - split; [exact Hds|]. split; [exact Hde|].
    split; [split; [exact Hos|lia]|]. split; [split; [exact Hoe|lia]|].
    split; [exact Hord|]. split; [|split; [exact F2|exact F3]].
    rewrite F1. Z.div_mod_to_equations. lia.
Qed.

(** *** The slots do not depend on the order of the events *)

Lemma min_event_date_same first others first' others' :
  (forall ev, In ev (first :: others) <-> In ev (first' :: others')) ->
  min_event_date first others = min_event_date first' others'.
Proof.
  intros Hsame.
  assert (Hmin : forall f o,
             (exists ev, In ev (f :: o) /\ min_event_date f o = date_of (begin ev)) /\
             (forall ev, In ev (f :: o) -> min_event_date f o <= date_of (begin ev))).
  { intros f o. unfold min_event_date.
    destruct (fold_min_least (map (fun ev => date_of (begin ev)) o)
                (date_of (begin f))) as (H1 & H2 & H3). split.
    - destruct H1 as [H1|H1].
      + exists f. split; [now left|exact H1].
      + apply in_map_iff in H1. destruct H1 as (ev & Hev & Hin).
        exists ev. split; [now right|now rewrite Hev].
    - intros ev [<-|Hin]; [exact H2|]. apply H3. apply in_map_iff. now exists ev. }
  destruct (Hmin first others) as ((ev & Hin & He) & Hle).
  destruct (Hmin first' others') as ((ev' & Hin' & He') & Hle').
  apply Hsame in Hin. apply Hsame in Hin'.
  specialize (Hle ev' Hin'). specialize (Hle' ev Hin). lia.
Qed.

(** Pools that hold the same events give the same ranking; so the slots
    returned for two calendars do not depend on which calendar comes
    first. *)
Theorem slots_do_not_depend_on_order
    Calendar now week_now payload_a payload_b events_a events_b minutes max_slots :
  Calendar payload_a = Ok events_a -> Calendar payload_b = Ok events_b ->
  Forall (fun ev => instant (begin ev) < instant (end_ ev)) (events_a ++ events_b) ->
  find_best_meeting_slots Calendar now week_now [payload_a; payload_b] minutes max_slots
  = find_best_meeting_slots Calendar now week_now [payload_b; payload_a] minutes max_slots.
Proof.
  intros Ha Hb Hev.
  unfold find_best_meeting_slots, load_all, load_calendar_from_content.
  rewrite Ha, Hb. cbn [bind Ok app]. unfold Ok. f_equal. f_equal.
  assert (Hsame : forall ev, In ev (events_a ++ events_b) <-> In ev (events_b ++ events_a)).
  { intros ev. rewrite !in_app_iff. tauto. }
  assert (Hev' : Forall (fun ev => instant (begin ev) < instant (end_ ev))
                        (events_b ++ events_a)).
  { rewrite Forall_forall in Hev |- *. intros ev Hin. apply Hev. now apply Hsame. }
  assert (Hweek : infer_working_week week_now (events_a ++ events_b)
                  = infer_working_week week_now (events_b ++ events_a)).
  { unfold infer_working_week.
    destruct (events_a ++ events_b) as [|f o] eqn:E1;
      destruct (events_b ++ events_a) as [|f' o'] eqn:E2.
    - reflexivity.
    - exfalso. apply (in_nil (a := f')). apply Hsame. now left.
    - exfalso. apply (in_nil (a := f)). apply Hsame. now left.
    - now rewrite (min_event_date_same f o f' o' Hsame). }
  assert (Hfree : forall day cur,
             free_intervals_for_day (events_a ++ events_b) day (utcoffset now) cur
             = free_intervals_for_day (events_b ++ events_a) day (utcoffset now) cur).
  { intros day cur. unfold free_intervals_for_day.
    rewrite (FreeTime.busy_list_determined (events_a ++ events_b) (events_b ++ events_a)
               day (utcoffset now) Hev Hev'); [reflexivity|].
    intros t. split; intros (ev & Hin & H); exists ev;
      (split; [now apply Hsame|exact H]). }
  unfold best_slots, get_scheduling_days. cbv zeta. rewrite Hweek.
  f_equal. f_equal. apply flat_map_ext. intros day.
  unfold day_candidates. cbv zeta. now rewrite Hfree.
Qed.

(** When the inferred week ended before the date of "now", which happens
    when the earliest event of the pool lies in an earlier week, every
    candidate ranked for a duration that is not negative ends before
    "now": all that is offered lies in the past. *)
Theorem stale_week_offers_the_past now week_now all_events minutes max_slots c :
  snd (infer_working_week week_now all_events) < date_of now ->
  0 <= minutes ->
  In c (best_slots now week_now all_events minutes max_slots) ->
  instant (cand_start c) <= instant (cand_end c) /\
  instant (cand_end c) < instant now.
Proof.
  intros Hstale Hmin Hin.
  destruct (ranked_candidate_origin _ _ _ _ _ _ Hin)
    as (day & iv & Hday & _ & _ & [_ He] & Hc).
  destruct (candidate_from_interval_inv _ _ _ Hc) as (_ & Hend & _ & Hhi & _).
  destruct (in_scheduling_days _ _ _ _ Hday) as [Hwk _]. cbv zeta in Hwk.
  assert (Hfri : snd (infer_working_week week_now all_events)
                 = fst (infer_working_week week_now all_events) + 4) by reflexivity.
  rewrite Hfri in Hstale. split.
  - rewrite Hend. unfold dt_add, instant, td_minutes. cbn [wall utcoffset].
    numerals. lia.
  - apply Z.le_lt_trans with (instant (work_end day (utcoffset now))); [lia|].
    unfold work_end, combine, instant, date_of in *. cbn [wall utcoffset].
    numerals. Z.div_mod_to_equations. nia.
Qed.

(** *** Loading the payloads *)

(** The payloads are read in order.  When all of them are read the pool is
    their events one after the other; when one is rejected after others
    were read, the call fails with that payload's error, whatever comes
    after it, and returns no slot at all. *)
Theorem loading_all_or_nothing Calendar now week_now minutes max_slots :
  (forall payloads pools,
      Forall2 (fun p events => Calendar p = Ok events) payloads pools ->
      load_all Calendar payloads [] = Ok (List.concat pools)) /\
  (forall read pools rejected e rest,
      Forall2 (fun p events => Calendar p = Ok events) read pools ->
      Calendar rejected = Raise e ->
      load_all Calendar (read ++ rejected :: rest) [] = Raise e /\
      find_best_meeting_slots Calendar now week_now (read ++ rejected :: rest)
        minutes max_slots = Raise e).
Proof.
  assert (Hok : forall payloads pools,
             Forall2 (fun p events => Calendar p = Ok events) payloads pools ->
             forall acc, load_all Calendar payloads acc = Ok (acc ++ List.concat pools)).
  { induction 1 as [|p events payloads pools Hp _ IH]; intros acc; simpl.
    - now rewrite app_nil_r.
    - unfold load_calendar_from_content. rewrite Hp. cbn [bind Ok].
      rewrite IH. now rewrite app_assoc. }
  assert (Hfail : forall read pools rejected e rest,
             Forall2 (fun p events => Calendar p = Ok events) read pools ->
             Calendar rejected = Raise e ->
             forall acc, load_all Calendar (read ++ rejected :: rest) acc = Raise e).
  { intros read pools rejected e rest Hread Hrej.
    induction Hread as [|p events read pools Hp _ IH]; intros acc; simpl.
    - unfold load_calendar_from_content. now rewrite Hrej.
    - unfold load_calendar_from_content. rewrite Hp. cbn [bind Ok]. apply IH. }
  split.
  - intros payloads pools H. apply (Hok payloads pools H []).
  - intros read pools rejected e rest Hread Hrej.
    pose proof (Hfail read pools rejected e rest Hread Hrej []) as Hload.
    split; [exact Hload|]. unfold find_best_meeting_slots. now rewrite Hload.
Qed.

End Offers.

(** ** What the parser turns down *)

Module ParseErrors.
Import Py scheduler2 update_schedule_2 Spec Spec2 PyFacts Descriptor.

Lemma strptime_padded y m d h mi :
  0 <= y < 10000 -> 0 <= m < 100 -> 0 <= d < 100 -> 0 <= h < 100 -> 0 <= mi < 100 ->
  strptime (fmt_date y m d ++ " " ++ fmt_hm h mi) =
  if real_date y m d && real_time h mi then Ok (naive y m d h mi) else Raise ValueError.
Proof.
  intros Hy Hm Hd Hh Hmi.
  unfold strptime, fmt_date, fmt_hm, pad4, pad2.
  cbn [append list_ascii_of_string].
  change (Ascii.eqb "-" "-") with true. change (Ascii.eqb " " " ") with true.
  change (Ascii.eqb ":" ":") with true. cbn [andb].
  rewrite number4_pad by lia. rewrite !number2_pad by lia.
  unfold real_date, real_time. now rewrite !andb_assoc.
Qed.

(** A zero-padded descriptor is parsed exactly when its fields name a real
    date and two real times of day; otherwise the call fails with
    [ValueError]. *)
Theorem parse_selected_time_accepts_real_dates_only SGT y m d h1 m1 h2 m2 :
  0 <= y < 10000 -> 0 <= m < 100 -> 0 <= d < 100 ->
  0 <= h1 < 100 -> 0 <= m1 < 100 -> 0 <= h2 < 100 -> 0 <= m2 < 100 ->
  parse_selected_time SGT
    (fmt_date y m d ++ ": " ++ fmt_hm h1 m1 ++ "-" ++ fmt_hm h2 m2)
  = if real_date y m d && real_time h1 m1 && real_time h2 m2
    then Ok (mkdt (naive y m d h1 m1) SGT, mkdt (naive y m d h2 m2) SGT)
    else Raise ValueError.
Proof.
  intros Hy Hm Hd Hh1 Hm1 Hh2 Hm2. unfold parse_selected_time.
  rewrite split_descriptor, split_time_range.
  rewrite !strptime_padded by assumption.
  destruct (real_date y m d); destruct (real_time h1 m1); destruct (real_time h2 m2);
    reflexivity.
Qed.

(** A text with no colon in it, or with no blank in it, cannot be cut at
    [": "]: the unpacking of the split fails with [ValueError], whatever
    else the text holds. *)
Theorem parse_selected_time_needs_separator SGT text :
  has_char ":" text = false \/ has_char " " text = false ->
  parse_selected_time SGT text = Raise ValueError.
Proof.
  intros H. unfold parse_selected_time, split.
  assert (Hone : split_from ": " 0 EmptyString text = [text]).
  { destruct H as [H|H].
    - now rewrite (split_from_no_sep ": " ":" eq_refl text EmptyString H).
    - now rewrite (split_from_no_sep ": " " " eq_refl text EmptyString H). }
  now rewrite Hone.
Qed.

End ParseErrors.

(** ** From a descriptor to datetimes and back *)

Module Reformat.
Import Py scheduler2 update_schedule_2 Spec Spec2 PyFacts Ranking Civil Descriptor.

(** A year is 365 days long, and 366 when it is a leap year. *)
Lemma days_before_year_succ y :
  days_before_year (y + 1) = days_before_year y + 365 + (if is_leap y then 1 else 0).
Proof.
  unfold days_before_year, is_leap. cbv zeta.
  replace (y + 1 - 1) with y by lia.
  destruct (Z.eqb_spec (y mod 4) 0) as [H4|H4];
    destruct (Z.eqb_spec (y mod 100) 0) as [H100|H100];
    destruct (Z.eqb_spec (y mod 400) 0) as [H400|H400];
    cbn [andb orb negb]; Z.div_mod_to_equations; lia.
Qed.

Lemma days_before_year_mono a b : a <= b -> days_before_year a <= days_before_year b.
Proof. intros H. unfold days_before_year. cbv zeta. Z.div_mod_to_equations. lia. Qed.

Lemma month_cases m :
  1 <= m <= 12 ->
  m = 1 \/ m = 2 \/ m = 3 \/ m = 4 \/ m = 5 \/ m = 6 \/
  m = 7 \/ m = 8 \/ m = 9 \/ m = 10 \/ m = 11 \/ m = 12.
Proof. lia. Qed.

(** Looking up the tables of month lengths at a given month. *)
Ltac tables :=
  cbv [tbl DAYS_IN_MONTH DAYS_BEFORE_MONTH nth Z.to_nat Pos.to_nat Pos.iter_op
       Nat.add Z.eqb Z.ltb Z.compare Pos.eqb Pos.compare Pos.compare_cont
       andb] in *.

(** The day of the year of a real date, and the month and day it
    determines. *)
Lemma day_of_year_range y m d :
  1 <= m <= 12 -> 1 <= d <= days_in_month y m ->
  1 <= days_before_month y m + d <= 365 + (if is_leap y then 1 else 0).
Proof.
  intros Hm Hd. unfold days_in_month, days_before_month in *.
  destruct (is_leap y);
    destruct (month_cases m Hm) as [E|E]; repeat destruct E as [E|E]; subst m;
    tables; lia.
Qed.

Lemma day_of_year_inj y m d m' d' :
  1 <= m <= 12 -> 1 <= d <= days_in_month y m ->
  1 <= m' <= 12 -> 1 <= d' <= days_in_month y m' ->
  days_before_month y m + d = days_before_month y m' + d' ->
  m = m' /\ d = d'.
Proof.
  intros Hm Hd Hm' Hd'. unfold days_in_month, days_before_month in *.
  destruct (is_leap y);
    destruct (month_cases m Hm) as [E|E]; repeat destruct E as [E|E]; subst m;
    destruct (month_cases m' Hm') as [E|E]; repeat destruct E as [E|E]; subst m';
    tables; lia.
Qed.

(** Two real dates with the same ordinal are the same date. *)
Lemma ymd2ord_inj y m d y' m' d' :
  1 <= m <= 12 -> 1 <= d <= days_in_month y m ->
  1 <= m' <= 12 -> 1 <= d' <= days_in_month y' m' ->
  ymd2ord y m d = ymd2ord y' m' d' ->
  y = y' /\ m = m' /\ d = d'.
Proof.
  intros Hm Hd Hm' Hd' E. unfold ymd2ord in E.
  pose proof (day_of_year_range y m d Hm Hd) as R.
  pose proof (day_of_year_range y' m' d' Hm' Hd') as R'.
  pose proof (days_before_year_succ y) as S.
  pose proof (days_before_year_succ y') as S'.
  assert (Hy : y = y').
  { destruct (Z.lt_trichotomy y y') as [Hlt|[Heq|Hgt]]; [|exact Heq|].
    - pose proof (days_before_year_mono (y + 1) y' ltac:(lia)). lia.
    - pose proof (days_before_year_mono (y' + 1) y ltac:(lia)). lia. }
  subst y'. split; [reflexivity|].
  apply (day_of_year_inj y); try assumption. lia.
Qed.

(** [ord2ymd] undoes [ymd2ord] on every real date. *)
Lemma ord2ymd_ymd2ord y m d :
  1 <= m <= 12 -> 1 <= d <= days_in_month y m ->
  ord2ymd (ymd2ord y m d) = (y, m, d).
Proof.
  intros Hm Hd.
  pose proof (ord2ymd_valid (ymd2ord y m d)) as V. cbv zeta in V.
  destruct (ord2ymd (ymd2ord y m d)) as [[y' m'] d']. cbn [fst snd] in V.
  destruct V as (E & Hm' & Hd').
  destruct (ymd2ord_inj y' m' d' y m d Hm' Hd' Hm Hd E) as (-> & -> & ->).
  reflexivity.
Qed.


End Reformat.

(** ** The texts of the bot *)

Module BotTexts.
Import Py scheduler2 update_schedule_2 bot Spec Spec2 PyFacts Resolver Ranking Civil
       Descriptor.

Lemma digit_is_not c x :
  is_digit c = true -> is_digit x = false -> Ascii.eqb x c = false.
Proof.
  intros Hc Hx. destruct (Ascii.eqb x c) eqn:E; [|reflexivity].
  apply Ascii.eqb_eq in E. congruence.
Qed.

(** A valid meeting id holds no ["|"]. *)
Lemma valid_meeting_id_no_bar meeting_id :
  valid_meeting_id meeting_id = true -> has_char "|" meeting_id = false.
Proof.
  unfold valid_meeting_id. intros H.
  do 15 (destruct meeting_id as [|? meeting_id]; [discriminate H|]).
  cbn [list_ascii_of_string] in H.
  repeat (apply andb_prop in H; destruct H as [H ?]).
  unfold is_space in *.
  repeat match goal with
         | E : Ascii.eqb _ " " = true |- _ => apply Ascii.eqb_eq in E; subst
         end.
  cbn [has_char].
  repeat match goal with
         | D : is_digit ?c = true |- context [Ascii.eqb "|" ?c] =>
             rewrite (digit_is_not c "|" D eq_refl)
         end.
  change (Ascii.eqb "|" " ") with false. cbn [orb].
  destruct meeting_id as [|nl rest]; [reflexivity|].
  destruct rest as [|? ?]; cbn [list_ascii_of_string] in *; [|discriminate].
  match goal with E : Ascii.eqb _ _ = true |- _ => apply Ascii.eqb_eq in E; subst end.
  reflexivity.
Qed.

Lemma split_once_at_bar meeting_id :
  forall cur slot,
    has_char "|" meeting_id = false ->
    split_from_max "|" 1 0 cur (meeting_id ++ "|" ++ slot)
    = [(cur ++ meeting_id)%string; slot].
Proof.
  induction meeting_id as [|x meeting_id IH]; intros cur slot Hno.
  - rewrite append_empty_r. cbn [append split_from_max starts_with].
    change (Ascii.eqb "|" "|") with true. cbn [andb String.length Nat.sub].
    destruct slot; reflexivity.
  - cbn [has_char] in Hno. apply orb_false_elim in Hno. destruct Hno as [Hx Hno].
    change ((String x meeting_id ++ "|" ++ slot)%string)
      with (String x (meeting_id ++ "|" ++ slot)).
    cbn [split_from_max starts_with]. rewrite Hx. cbn [andb].
    rewrite (IH _ _ Hno), append_assoc. reflexivity.
Qed.

(** The callback data of a button is taken apart into the meeting id and
    the slot it was built from, for every valid meeting id and every slot
    text, also one with a ["|"] in it. *)
Theorem callback_round_trip meeting_id slot :
  valid_meeting_id meeting_id = true ->
  read_callback (callback_data meeting_id slot) = Ok (meeting_id, slot).
Proof.
  intros Hvalid. unfold read_callback, callback_data, split_max.
  now rewrite (split_once_at_bar meeting_id EmptyString slot (valid_meeting_id_no_bar _ Hvalid)).
Qed.

(** *** Stored choices *)

Lemma join_cons sep x y rest :
  join sep (x :: y :: rest) = (x ++ sep ++ join sep (y :: rest))%string.
Proof. reflexivity. Qed.

Lemma split_join rest :
  forall x cur,
    Forall (fun s => has_char "," s = false) (x :: rest) ->
    split_from ", " 0 cur (join ", " (x :: rest)) = (cur ++ x)%string :: rest.
Proof.
  induction rest as [|y rest IH]; intros x cur Hno.
  - inversion Hno as [|? ? Hx _]; subst. cbn [join].
    now rewrite (split_from_no_sep ", " "," eq_refl x cur Hx).
  - inversion Hno as [|? ? Hx Hrest]; subst.
    rewrite join_cons, (split_from_first "," " " x cur _ Hx).
    now rewrite (IH y EmptyString Hrest).
Qed.

Lemma choices_round_trip_helper selected_slots :
  Forall (fun s => has_char "," s = false /\ s <> EmptyString) selected_slots ->
  read_choices (stored_choices selected_slots) = selected_slots.
Proof.
  intros H. unfold stored_choices. destruct selected_slots as [|x rest]; [reflexivity|].
  assert (Hno : Forall (fun s => has_char "," s = false) (x :: rest))
    by (revert H; apply Forall_impl; tauto).
  inversion H as [|? ? [_ Hx] _]; subst.
  unfold read_choices, split.
  destruct (join ", " (x :: rest)) as [|c s] eqn:E.
  - destruct x as [|c x]; [contradiction|]. destruct rest; discriminate E.
  - rewrite <- E. now rewrite (split_join rest x EmptyString Hno).
Qed.

Lemma comma_not_digit n : Ascii.eqb "," (digit n) = false.
Proof. destruct (digit_cases n) as [E|E]; repeat destruct E as [E|E]; now rewrite E. Qed.

(** A slot descriptor holds no comma and is not empty. *)
Lemma slot_str_no_comma c :
  has_char "," (slot_str c) = false /\ slot_str c <> EmptyString.
Proof.
  rewrite slot_str_fields. split.
  - unfold fmt_date, fmt_hm. rewrite !has_char_app.
    rewrite has_char_pad4, !has_char_pad2 by apply comma_not_digit. reflexivity.
  - unfold fmt_date, pad4. discriminate.
Qed.

(** What a user's selection is stored as reads back as that selection, in
    the same order, when no selected text is empty or holds a comma; the
    selection is taken in the order [join] walks it.  Slot descriptors are
    such texts, so every selection of descriptors reads back as it was
    stored. *)
Theorem choices_round_trip :
  (forall selected_slots,
      Forall (fun s => has_char "," s = false /\ s <> EmptyString) selected_slots ->
      read_choices (stored_choices selected_slots) = selected_slots) /\
  (forall chosen : list candidate,
      read_choices (stored_choices (map slot_str chosen)) = map slot_str chosen).
Proof.
  split.
  - intros selected_slots H. now apply choices_round_trip_helper.
  - intros chosen. apply choices_round_trip_helper.
    apply Forall_forall. intros s Hs.
    apply in_map_iff in Hs. destruct Hs as (c & <- & _).
    apply slot_str_no_comma.
Qed.

Lemma In_common_slots slot user_a_choices user_b_choices :
  In slot (common_slots user_a_choices user_b_choices) <->
  In slot user_a_choices /\ In slot user_b_choices.
Proof.
  unfold common_slots. rewrite filter_In, existsb_exists. split.
  - intros [Ha (x & Hx & E)]. apply String.eqb_eq in E. subst x. auto.
  - intros [Ha Hb]. split; [exact Ha|]. exists slot. split; [exact Hb|].
    apply String.eqb_refl.
Qed.

(** The descriptor of a ranked candidate parses into the candidate's
    wall-clock readings in the parser's zone. *)
Lemma parse_ranked_candidate SGT now week_now all_events minutes max_slots c :
  0 <= minutes ->
  In c (best_slots now week_now all_events minutes max_slots) ->
  1000 <= year (date_of (cand_start c)) <= 9999 ->
  parse_selected_time SGT (slot_str c)
  = Ok (replace_tzinfo (cand_start c) SGT, replace_tzinfo (cand_end c) SGT).
Proof.
  intros Hmin Hin Hyear.
  destruct (best_slots_origin _ _ _ _ _ _ Hin) as (day & iv & _ & Hiv & Hc).
  assert (Hends : endpoints (in_working_day day (utcoffset now))
                    (free_intervals_for_day all_events day (utcoffset now)
                       (if day =? date_of now then Some now else None))).
  { apply free_intervals_endpoints. now destruct (day =? date_of now). }
  unfold endpoints in Hends. rewrite Forall_forall in Hends.
  destruct (Hends iv Hiv) as [Hfst Hsnd].
  destruct (candidate_in_working_day day (utcoffset now) iv minutes c Hfst Hsnd Hmin Hc)
    as (_ & _ & Hds & Hde & Hms & Hme).
  destruct (wall_on_the_minute _ Hms) as (Hws & Hhs & Hmins).
  destruct (wall_on_the_minute _ Hme) as (Hwe & Hhe & Hmine).
  rewrite slot_str_fields.
  destruct (ord2ymd_valid (date_of (cand_start c))) as (Hord & Hm & Hd).
  cbv zeta in Hord, Hm, Hd. unfold year in Hyear.
  rewrite parse_descriptor by (assumption || lia).
  unfold naive, replace_tzinfo. rewrite Hord.
  rewrite <- Hws. rewrite Hds, <- Hde, <- Hwe. reflexivity.
Qed.

(** From the offer to the calendar.  Two users select among the slots the
    engine offered, their selections are stored and read back, and a slot
    found in both is parsed: that slot is one both selected, it is the
    descriptor of a ranked candidate, and it parses without error into that
    candidate's wall-clock start and end. *)
Theorem common_slot_parses
    SGT now week_now all_events minutes max_slots user_a user_b slot :
  0 <= minutes ->
  (forall c, In c (best_slots now week_now all_events minutes max_slots) ->
             1000 <= year (date_of (cand_start c)) <= 9999) ->
  incl user_a (map slot_str (best_slots now week_now all_events minutes max_slots)) ->
  incl user_b (map slot_str (best_slots now week_now all_events minutes max_slots)) ->
  In slot (common_slots (read_choices (stored_choices user_a))
                        (read_choices (stored_choices user_b))) ->
  In slot user_a /\ In slot user_b /\
  exists c,
    In c (best_slots now week_now all_events minutes max_slots) /\
    slot = slot_str c /\
    parse_selected_time SGT slot
    = Ok (replace_tzinfo (cand_start c) SGT, replace_tzinfo (cand_end c) SGT).
Proof.
  intros Hmin Hyear Ha Hb Hcommon.
  assert (Hclean : forall user,
             incl user (map slot_str (best_slots now week_now all_events minutes max_slots)) ->
             read_choices (stored_choices user) = user).
  { intros user Hu. apply choices_round_trip_helper.
    apply Forall_forall. intros s Hs. apply Hu in Hs. apply in_map_iff in Hs.
    destruct Hs as (c & <- & _). apply slot_str_no_comma. }
  rewrite (Hclean user_a Ha), (Hclean user_b Hb) in Hcommon.
  apply In_common_slots in Hcommon. destruct Hcommon as [Hina Hinb].
  split; [exact Hina|]. split; [exact Hinb|].
  apply Ha in Hina. apply in_map_iff in Hina. destruct Hina as (c & <- & Hc).
  exists c. split; [exact Hc|]. split; [reflexivity|].
  apply (parse_ranked_candidate SGT now week_now all_events minutes max_slots);
    [exact Hmin|exact Hc|now apply Hyear].
Qed.

End BotTexts.

(** ** The selection buttons *)

Module Buttons.
Import Py scheduler2 bot.

Lemma mem_In slot s : mem slot s = true <-> In slot s.
Proof.
  unfold mem. rewrite existsb_exists. split.
  - intros (x & Hx & E). apply String.eqb_eq in E. now subst.
  - intros H. exists slot. split; [exact H|apply String.eqb_refl].
Qed.

Lemma mem_not_In slot s : mem slot s = false <-> ~ In slot s.
Proof.
  rewrite <- mem_In. destruct (mem slot s); split; intros H;
    try discriminate; try reflexivity; try (intros E; discriminate E).
  now exfalso.
Qed.

Lemma In_set_remove x slot s : In x (set_remove slot s) <-> In x s /\ x <> slot.
Proof.
  unfold set_remove. rewrite filter_In. split; intros [Hx H]; split; try exact Hx.
  - intros ->. now rewrite String.eqb_refl in H.
  - destruct (String.eqb_spec slot x) as [E|E]; [now subst|reflexivity].
Qed.

Lemma In_set_add x slot s : In x (set_add slot s) <-> x = slot \/ In x s.
Proof.
  unfold set_add. destruct (mem slot s) eqn:E.
  - apply mem_In in E. split; [now right|]. intros [->|H]; assumption.
  - simpl. split; (intros [H|H]; [left; now symmetry|now right]).
Qed.

Lemma In_set_of x slots : In x (set_of slots) <-> In x slots.
Proof. unfold set_of. apply nodup_In. Qed.

Lemma set_eqb_spec a b : set_eqb a b = true <-> forall x, In x a <-> In x b.
Proof.
  unfold set_eqb. rewrite andb_true_iff, !forallb_forall. split.
  - intros [Hab Hba] x. split; intros H.
    + now apply mem_In, Hab.
    + now apply mem_In, Hba.
  - intros H. split; intros x Hx; apply mem_In; now apply H.
Qed.

Lemma slot_selection_each_once common_slots chosen selected :
  NoDup selected -> NoDup (slot_selection common_slots chosen selected).
Proof.
  intros Hnd. unfold slot_selection.
  destruct (String.eqb chosen "select_all").
  - destruct (negb _); [apply NoDup_nodup|constructor].
  - destruct (mem chosen selected) eqn:E.
    + now apply NoDup_filter.
    + unfold set_add. rewrite E. constructor; [now apply mem_not_In|exact Hnd].
Qed.

(** A button of a slot toggles it: the slot is selected afterwards exactly
    when it was not before, no other slot is touched, and pressing the
    button twice leaves the selection as it was. *)
Theorem toggle_button common_slots chosen selected :
  chosen <> "select_all"%string ->
  let once := slot_selection common_slots chosen selected in
  let twice := slot_selection common_slots chosen once in
  (In chosen once <-> ~ In chosen selected) /\
  (forall other, other <> chosen -> (In other once <-> In other selected)) /\
  (forall slot, In slot twice <-> In slot selected).
Proof.
  intros Hch. cbv zeta.
  assert (Hstep : forall s,
             slot_selection common_slots chosen s
             = if mem chosen s then set_remove chosen s else set_add chosen s).
  { intros s. unfold slot_selection.
    destruct (String.eqb_spec chosen "select_all") as [E|_]; [contradiction|reflexivity]. }
  rewrite !Hstep. destruct (mem chosen selected) eqn:E.
  - apply mem_In in E.
    assert (Hout : mem chosen (set_remove chosen selected) = false).
    { apply mem_not_In. rewrite In_set_remove. tauto. }
    rewrite Hout. split; [|split].
    + rewrite In_set_remove. tauto.
    + intros other Ho. rewrite In_set_remove. tauto.
    + intros slot. rewrite In_set_add, In_set_remove.
      destruct (string_dec slot chosen) as [->|Hne]; tauto.
  - apply mem_not_In in E.
    assert (Hin : mem chosen (set_add chosen selected) = true).
    { apply mem_In. rewrite In_set_add. now left. }
    rewrite Hin. split; [|split].
    + rewrite In_set_add. tauto.
    + intros other Ho. rewrite In_set_add. tauto.
    + intros slot. rewrite In_set_remove, In_set_add.
      split; [tauto|]. intros H. split; [now right|]. now intros ->.
Qed.

(** "Select All".  When every offered slot is selected, and nothing else,
    the button clears the selection; otherwise it selects exactly the
    offered slots, and a second press then clears the selection. *)
Theorem select_all_button common_slots selected :
  let once := slot_selection common_slots "select_all" selected in
  let twice := slot_selection common_slots "select_all" once in
  ((forall slot, In slot common_slots <-> In slot selected) -> once = []) /\
  (~ (forall slot, In slot common_slots <-> In slot selected) ->
   (forall slot, In slot once <-> In slot common_slots) /\ twice = []).
Proof.
  cbv zeta.
  assert (Hstep : forall s,
             slot_selection common_slots "select_all" s
             = if negb (set_eqb (set_of common_slots) s) then set_of common_slots else []).
  { intros s. reflexivity. }
  rewrite !Hstep. split.
  - intros Hall.
    assert (E : set_eqb (set_of common_slots) selected = true).
    { apply set_eqb_spec. intros x. rewrite In_set_of. apply Hall. }
    now rewrite E.
  - intros Hnot.
    assert (E : set_eqb (set_of common_slots) selected = false).
    { destruct (set_eqb (set_of common_slots) selected) eqn:E; [|reflexivity].
      exfalso. apply Hnot. intros x. rewrite <- In_set_of.
      revert x. now apply set_eqb_spec. }
    rewrite E. cbn [negb]. split; [intros slot; apply In_set_of|].
    assert (E' : set_eqb (set_of common_slots) (set_of common_slots) = true)
      by (apply set_eqb_spec; tauto).
    now rewrite E'.
Qed.

(** Whatever buttons are pressed, as long as each is "Select All" or the
    button of an offered slot, the selection holds offered slots only, each
    once. *)
Theorem selection_stays_among_offers common_slots presses :
  Forall (fun chosen => chosen = "select_all"%string \/ In chosen common_slots) presses ->
  NoDup (selection_after common_slots presses) /\
  incl (selection_after common_slots presses) common_slots.
Proof.
  intros Hpress. unfold selection_after.
  assert (Hinv : forall selected,
             NoDup selected /\ incl selected common_slots ->
             NoDup (fold_left (fun s chosen => slot_selection common_slots chosen s)
                              presses selected) /\
             incl (fold_left (fun s chosen => slot_selection common_slots chosen s)
                             presses selected) common_slots).
  { induction Hpress as [|chosen presses Hch _ IH]; intros selected [Hnd Hincl].
    - now split.
    - cbn [fold_left]. apply IH. split; [now apply slot_selection_each_once|].
      unfold slot_selection.
      destruct (String.eqb_spec chosen "select_all") as [E|E].
      + destruct (negb _); intros x Hx; [exact (proj1 (In_set_of _ _) Hx)|destruct Hx].
      + destruct Hch as [Hch|Hch]; [contradiction|].
        destruct (mem chosen selected); intros x Hx.
        * apply (proj1 (In_set_remove _ _ _)) in Hx. now apply Hincl.
        * apply (proj1 (In_set_add _ _ _)) in Hx.
          destruct Hx as [->|Hx]; [exact Hch|now apply Hincl]. }
  apply Hinv. split; [constructor|intros x []].
Qed.

End Buttons.

(** ** Further runs on sample data *)

Module MoreRuns.
Import Py scheduler2 update_schedule_2 bot Spec Spec2 Samples MoreSamples.

Lemma candidate_exists_with_slack_witness :
  td_minutes 6 <= dt_sub (snd long_gap) (fst long_gap) - td_minutes 30 /\
  exists c, candidate_from_interval long_gap (td_minutes 30) = Some c.
Proof.
  assert (H : td_minutes 6 <= dt_sub (snd long_gap) (fst long_gap) - td_minutes 30)
    by (vm_compute; discriminate).
  split; [exact H|].
  exact (Placement.candidate_exists_with_slack long_gap (td_minutes 30) H).
Defined.

Lemma busy_intervals_separated_witness :
  Forall (fun ev => instant (begin ev) <= instant (end_ ev)) pool /\
  chain (events_for_day pool monday plus8) /\
  endpoints (in_working_day monday plus8) (events_for_day pool monday plus8).
Proof.
  split; [exact Runs.pool_not_inverted|].
  exact (FreeTime.busy_intervals_separated pool monday plus8 Runs.pool_not_inverted).
Defined.

Lemma free_intervals_shape_witness :
  Forall (fun ev => instant (begin ev) <= instant (end_ ev)) pool /\
  utcoffset monday_8am = plus8 /\
  Forall nonempty (free_intervals_for_day pool monday plus8 (Some monday_8am)) /\
  sorted_by_start (free_intervals_for_day pool monday plus8 (Some monday_8am)) /\
  pairwise_disjoint (free_intervals_for_day pool monday plus8 (Some monday_8am)) /\
  endpoints (in_working_day monday plus8)
            (free_intervals_for_day pool monday plus8 (Some monday_8am)) /\
  forall t, covers (free_intervals_for_day pool monday plus8 (Some monday_8am)) t ->
            ~ covers (events_for_day pool monday plus8) t.
Proof.
  split; [exact Runs.pool_not_inverted|]. split; [reflexivity|].
  exact (FreeTime.free_intervals_shape pool monday plus8 (Some monday_8am)
           Runs.pool_not_inverted eq_refl).
Defined.

Lemma pool_reversed : forall ev, In ev pool <-> In ev (rev pool).
Proof. intros ev. apply in_rev. Defined.

Lemma events_for_day_order_independent_witness :
  Forall (fun ev => instant (begin ev) < instant (end_ ev)) pool /\
  (forall ev, In ev pool <-> In ev (rev pool)) /\
  events_for_day pool monday plus8 = events_for_day (rev pool) monday plus8 /\
  free_intervals_for_day pool monday plus8 None
  = free_intervals_for_day (rev pool) monday plus8 None.
Proof.
  split; [exact Runs.pool_well_formed|]. split; [exact pool_reversed|].
  exact (FreeTime.events_for_day_order_independent pool (rev pool) monday plus8 None
           Runs.pool_well_formed pool_reversed).
Defined.

Lemma no_slot_for_overlong_meeting_witness :
  480 < 481 /\
  (forall all_events, best_slots monday_8am monday_8am all_events 481 10 = []) /\
  ((forall p, In p [empty_payload] -> exists events, no_events p = Ok events) ->
   find_best_meeting_slots no_events monday_8am monday_8am [empty_payload] 481 10 = Ok []).
Proof.
  split; [reflexivity|].
  exact (Offers.no_slot_for_overlong_meeting no_events monday_8am monday_8am
           [empty_payload] 481 10 eq_refl).
Defined.

Lemma monday_slot_offered : In monday_slot (best_slots monday_8am monday_8am [] 30 10).
Proof. vm_compute. left. reflexivity. Defined.

Lemma monday_in_its_week :
  fst (infer_working_week monday_8am []) <= date_of monday_8am
    <= snd (infer_working_week monday_8am []).
Proof. vm_compute. split; discriminate. Defined.

Lemma no_slot_in_the_past_witness :
  (fst (infer_working_week monday_8am []) <= date_of monday_8am
     <= snd (infer_working_week monday_8am [])) /\
  In monday_slot (best_slots monday_8am monday_8am [] 30 10) /\
  instant monday_8am <= instant (cand_start monday_slot).
Proof.
  split; [exact monday_in_its_week|]. split; [exact monday_slot_offered|].
  exact (Offers.no_slot_in_the_past monday_8am monday_8am [] 30 10 monday_slot
           monday_in_its_week monday_slot_offered).
Defined.

Lemma half_hour_not_negative : 0 <= 30.
Proof. discriminate. Defined.

Lemma offers_in_working_hours_witness :
  0 <= 30 /\
  In monday_slot (best_slots monday_8am monday_8am [] 30 10) /\
  exists day,
    In day (get_scheduling_days monday_8am [] monday_8am) /\
    0 <= weekday day <= 4 /\
    date_of (cand_start monday_slot) = day /\ date_of (cand_end monday_slot) = day /\
    in_working_day day (utcoffset monday_8am) (cand_start monday_slot) /\
    in_working_day day (utcoffset monday_8am) (cand_end monday_slot) /\
    instant (cand_start monday_slot) <= instant (cand_end monday_slot) /\
    minute (cand_start monday_slot) mod 5 = 0 /\
    second (cand_start monday_slot) = 0 /\ microsecond (cand_start monday_slot) = 0.
Proof.
  split; [exact half_hour_not_negative|]. split; [exact monday_slot_offered|].
  exact (Offers.offers_in_working_hours monday_8am monday_8am [] 30 10 monday_slot
           half_hour_not_negative monday_slot_offered).
Defined.

Lemma shared_pool_well_formed :
  Forall (fun ev => instant (begin ev) < instant (end_ ev)) (pool_a ++ pool_b).
Proof. exact Runs.pool_well_formed. Defined.

Lemma slots_do_not_depend_on_order_witness :
  two_calendars "calendar a" = Ok pool_a /\
  two_calendars "calendar b" = Ok pool_b /\
  Forall (fun ev => instant (begin ev) < instant (end_ ev)) (pool_a ++ pool_b) /\
  find_best_meeting_slots two_calendars monday_8am monday_8am
    ["calendar a"; "calendar b"]%string 30 10
  = find_best_meeting_slots two_calendars monday_8am monday_8am
      ["calendar b"; "calendar a"]%string 30 10.
Proof.
  split; [reflexivity|]. split; [reflexivity|]. split; [exact shared_pool_well_formed|].
  exact (Offers.slots_do_not_depend_on_order two_calendars monday_8am monday_8am
           "calendar a" "calendar b" pool_a pool_b 30 10 eq_refl eq_refl
           shared_pool_well_formed).
Defined.

(** A week after the sample pool's Monday the engine still plans that
    week: the Tuesday slot it ranks first is over. *)
Lemma tuesday_slot_offered :
  In tuesday_slot (best_slots next_monday_8am next_monday_8am pool 30 10).
Proof. vm_compute. left. reflexivity. Defined.

Lemma pool_week_is_over :
  snd (infer_working_week next_monday_8am pool) < date_of next_monday_8am.
Proof. vm_compute. reflexivity. Defined.

Lemma stale_week_offers_the_past_witness :
  snd (infer_working_week next_monday_8am pool) < date_of next_monday_8am /\
  0 <= 30 /\
  In tuesday_slot (best_slots next_monday_8am next_monday_8am pool 30 10) /\
  instant (cand_start tuesday_slot) <= instant (cand_end tuesday_slot) /\
  instant (cand_end tuesday_slot) < instant next_monday_8am.
Proof.
  split; [exact pool_week_is_over|]. split; [exact half_hour_not_negative|].
  split; [exact tuesday_slot_offered|].
  exact (Offers.stale_week_offers_the_past next_monday_8am next_monday_8am pool 30 10
           tuesday_slot pool_week_is_over half_hour_not_negative tuesday_slot_offered).
Defined.

(** 30 February is refused, and so is 24:00. *)
Example february_30_refused :
  parse_selected_time sgt_stated "2024-02-30: 09:00-09:30" = Raise ValueError /\
  parse_selected_time sgt_stated "2024-02-29: 23:30-24:00" = Raise ValueError.
Proof. vm_compute. split; reflexivity. Qed.

Lemma parse_selected_time_accepts_real_dates_only_witness :
  (0 <= 2024 < 10000 /\ 0 <= 2 < 100 /\ 0 <= 30 < 100 /\
   0 <= 9 < 100 /\ 0 <= 0 < 100 /\ 0 <= 9 < 100 /\ 0 <= 30 < 100) /\
  parse_selected_time sgt_stated
    (fmt_date 2024 2 30 ++ ": " ++ fmt_hm 9 0 ++ "-" ++ fmt_hm 9 30)
  = if real_date 2024 2 30 && real_time 9 0 && real_time 9 30
    then Ok (mkdt (naive 2024 2 30 9 0) sgt_stated, mkdt (naive 2024 2 30 9 30) sgt_stated)
    else Raise ValueError.
Proof.
  split; [lia|].
  apply (ParseErrors.parse_selected_time_accepts_real_dates_only sgt_stated
           2024 2 30 9 0 9 30); lia.
Defined.

Lemma parse_selected_time_needs_separator_witness :
  (has_char ":" "tomorrow at nine" = false \/ has_char " " "tomorrow at nine" = false) /\
  parse_selected_time sgt_stated "tomorrow at nine" = Raise ValueError.
Proof.
  split; [left; reflexivity|].
  apply (ParseErrors.parse_selected_time_needs_separator sgt_stated "tomorrow at nine").
  left. reflexivity.
Defined.


Lemma callback_round_trip_witness :
  valid_meeting_id meeting_id = true /\
  read_callback (callback_data meeting_id "2024-01-01: 12:45-13:15")
  = Ok (meeting_id, "2024-01-01: 12:45-13:15"%string).
Proof.
  split; [reflexivity|].
  exact (BotTexts.callback_round_trip meeting_id "2024-01-01: 12:45-13:15" eq_refl).
Defined.

Lemma offered_years :
  forall c, In c (best_slots monday_8am monday_8am [] 30 10) ->
            1000 <= year (date_of (cand_start c)) <= 9999.
Proof.
  intros c Hc. vm_compute in Hc.
  repeat (destruct Hc as [<-|Hc]; [vm_compute; split; discriminate|]).
  destruct Hc.
Defined.

Lemma selection_a_offered :
  incl selection_a (map slot_str (best_slots monday_8am monday_8am [] 30 10)).
Proof.
  intros s Hs. vm_compute in Hs.
  destruct Hs as [<-|[<-|[]]]; vm_compute; auto.
Defined.

Lemma selection_b_offered :
  incl selection_b (map slot_str (best_slots monday_8am monday_8am [] 30 10)).
Proof.
  intros s Hs. vm_compute in Hs.
  destruct Hs as [<-|[]]; vm_compute; auto.
Defined.

Lemma tuesday_selected_by_both :
  In "2024-01-02: 12:45-13:15"%string
     (common_slots (read_choices (stored_choices selection_a))
                   (read_choices (stored_choices selection_b))).
Proof. vm_compute. left. reflexivity. Defined.

Lemma common_slot_parses_witness :
  0 <= 30 /\
  (forall c, In c (best_slots monday_8am monday_8am [] 30 10) ->
             1000 <= year (date_of (cand_start c)) <= 9999) /\
  incl selection_a (map slot_str (best_slots monday_8am monday_8am [] 30 10)) /\
  incl selection_b (map slot_str (best_slots monday_8am monday_8am [] 30 10)) /\
  In "2024-01-02: 12:45-13:15"%string
     (common_slots (read_choices (stored_choices selection_a))
                   (read_choices (stored_choices selection_b))) /\
  In "2024-01-02: 12:45-13:15"%string selection_a /\
  In "2024-01-02: 12:45-13:15"%string selection_b /\
  exists c,
    In c (best_slots monday_8am monday_8am [] 30 10) /\
    "2024-01-02: 12:45-13:15"%string = slot_str c /\
    parse_selected_time sgt_stated "2024-01-02: 12:45-13:15"
    = Ok (replace_tzinfo (cand_start c) sgt_stated, replace_tzinfo (cand_end c) sgt_stated).
Proof.
  split; [exact half_hour_not_negative|]. split; [exact offered_years|].
  split; [exact selection_a_offered|]. split; [exact selection_b_offered|].
  split; [exact tuesday_selected_by_both|].
  exact (BotTexts.common_slot_parses sgt_stated monday_8am monday_8am [] 30 10
           selection_a selection_b "2024-01-02: 12:45-13:15"
           half_hour_not_negative offered_years selection_a_offered selection_b_offered
           tuesday_selected_by_both).
Defined.

Lemma slot_button_is_not_select_all :
  "2024-01-01: 12:45-13:15"%string <> "select_all"%string.
Proof. discriminate. Defined.

Lemma toggle_button_witness :
  "2024-01-01: 12:45-13:15"%string <> "select_all"%string /\
  (In "2024-01-01: 12:45-13:15"%string
      (slot_selection selection_a "2024-01-01: 12:45-13:15" selection_b)
   <-> ~ In "2024-01-01: 12:45-13:15"%string selection_b) /\
  (forall other, other <> "2024-01-01: 12:45-13:15"%string ->
     (In other (slot_selection selection_a "2024-01-01: 12:45-13:15" selection_b)
      <-> In other selection_b)) /\
  (forall slot,
     In slot (slot_selection selection_a "2024-01-01: 12:45-13:15"
                (slot_selection selection_a "2024-01-01: 12:45-13:15" selection_b))
     <-> In slot selection_b).
Proof.
  split; [exact slot_button_is_not_select_all|].
  exact (Buttons.toggle_button selection_a "2024-01-01: 12:45-13:15" selection_b
           slot_button_is_not_select_all).
Defined.

Lemma presses_are_buttons :
  Forall (fun chosen => chosen = "select_all"%string \/ In chosen selection_a) presses.
Proof.
  unfold presses, selection_a.
  repeat (constructor; [cbn [In]; auto|]). constructor.
Defined.

Lemma selection_stays_among_offers_witness :
  Forall (fun chosen => chosen = "select_all"%string \/ In chosen selection_a) presses /\
  NoDup (selection_after selection_a presses) /\
  incl (selection_after selection_a presses) selection_a.
Proof.
  split; [exact presses_are_buttons|].
  exact (Buttons.selection_stays_among_offers selection_a presses presses_are_buttons).
Defined.

(** The sample presses: the Monday slot, then "Select All", then the
    Tuesday slot again, which deselects it. *)
Example selection_after_presses :
  selection_after selection_a presses = ["2024-01-01: 12:45-13:15"]%string.
Proof. vm_compute. reflexivity. Qed.

End MoreRuns.
